(** * Smart Repository Assistant: classifier, size bands, analytics, webhook

    A shallow embedding of the decision logic of [issue_bot.py], [config.py],
    [analytics.py] and [app.py], with the properties stated about it.

    Conventions of the embedding:
    - A Python [str] is a [string]; a character of a [string] is the code
      point of the same number, so texts range over all strings of code
      points below 256. [str.lower], [\w] under [re.IGNORECASE] and
      [hmac.compare_digest] are written out for all of these characters.
    - Python [float] values are exact rationals ([Q]); [float('inf')] is a
      separate constructor.
    - A [dict] whose iteration order matters is an association list in
      insertion order; a getter's result is [None] for the empty dict it
      returns after an exception.
    - A call that may raise has an [outcome]; every [try/except] of the
      source is written out. *)

From Stdlib Require Import Bool Arith List Lia ZArith QArith Qminmax Lqa.
From Stdlib Require Import Ascii String.
From Stdlib Require Import Permutation Sorted.
Import ListNotations.

Close Scope Q_scope.
Open Scope string_scope.
Open Scope list_scope.
Open Scope nat_scope.

(* ===================================================================== *)
(** ** Python string primitives *)
(* ===================================================================== *)

Module PyStr.

(** [c.lower()] on one character: the capital letters below code point
    256 are [A]..[Z] and U+00C0..U+00DE without the multiplication sign
    U+00D7; the small letter of each lies 32 code points above it. *)
Definition lower_char (c : ascii) : ascii :=
  let n := nat_of_ascii c in
  if ((65 <=? n) && (n <=? 90))
     || ((192 <=? n) && (n <=? 214))
     || ((216 <=? n) && (n <=? 222))
  then ascii_of_nat (n + 32) else c.

(** [s.lower()]. *)
Fixpoint lower (s : string) : string :=
  match s with
  | EmptyString => EmptyString
  | String c r => String (lower_char c) (lower r)
  end.

(** [s.startswith(p)]. *)
Fixpoint starts_with (p s : string) : bool :=
  match p, s with
  | EmptyString, _ => true
  | String a p', String b s' => Ascii.eqb a b && starts_with p' s'
  | String _ _, EmptyString => false
  end.

(** [kw in text] for two [str] operands: [kw] occurs at some offset. *)
Fixpoint contains (kw text : string) : bool :=
  starts_with kw text ||
  match text with
  | EmptyString => false
  | String _ rest => contains kw rest
  end.

(** [kw] is a substring of [text]. *)
Definition substring_of (kw text : string) : Prop :=
  exists pre post, text = (pre ++ kw ++ post)%string.

(** [kw] occurs in [text] when letter case is ignored on the side of
    [text]: some slice of [text] lower-cases to [kw]. *)
Definition occurs_ignoring_case (kw text : string) : Prop :=
  exists pre mid post,
    text = (pre ++ mid ++ post)%string /\ lower mid = kw.

(** [s.isascii()]: every code point is below 128. *)
Fixpoint is_ascii (s : string) : bool :=
  match s with
  | EmptyString => true
  | String c rest => (nat_of_ascii c <? 128) && is_ascii rest
  end.

End PyStr.

(* ===================================================================== *)
(** ** config.py *)
(* ===================================================================== *)

Module Config.

(** [Config.ISSUE_LABELS], in declaration order. *)
Definition ISSUE_LABELS : list (string * list string) :=
  [ ("bug", ["bug"; "error"; "crash"; "broken"; "not working"; "fail"]);
    ("feature", ["feature"; "enhancement"; "new"; "add"; "implement"]);
    ("documentation", ["doc"; "documentation"; "readme"; "guide"; "help"]);
    ("question", ["question"; "help"; "how to"; "support"]);
    ("performance", ["performance"; "slow"; "optimization"; "speed"]);
    ("security", ["security"; "vulnerability"; "auth"; "permission"]);
    ("maintenance", ["maintenance"; "cleanup"; "refactor"; "update"]);
    ("ci/cd", ["ci"; "cd"; "build"; "deploy"; "pipeline"; "test"]) ].

(** [Config.PRIORITY_KEYWORDS], in declaration order. *)
Definition PRIORITY_KEYWORDS : list (string * list string) :=
  [ ("critical", ["critical"; "urgent"; "emergency"; "blocking"]);
    ("high", ["high"; "important"; "asap"]);
    ("medium", ["medium"; "normal"]);
    ("low", ["low"; "minor"; "nice to have"]) ].

(** [Config.HEALTH_THRESHOLDS] is declared but read by no code path. *)

End Config.

(* ===================================================================== *)
(** ** issue_bot.py: IssueClassifier (type and priority) *)
(* ===================================================================== *)

Module IssueClassifier.
Import PyStr.

(** [f"{title} {body}".lower()] *)
Definition combined_text (title body : string) : string :=
  lower (title ++ " " ++ body)%string.

(** [sum(1 for keyword in keywords if keyword in text)] *)
Fixpoint keyword_score (text : string) (keywords : list string) : nat :=
  match keywords with
  | [] => 0
  | keyword :: rest =>
      (if contains keyword text then 1 else 0) + keyword_score text rest
  end.

(** The loop filling [scores]: a label is inserted only when its score is
    positive; labels are distinct, so insertion order is taxonomy order. *)
Fixpoint build_scores (text : string) (labels : list (string * list string))
  : list (string * nat) :=
  match labels with
  | [] => []
  | (label, keywords) :: rest =>
      let score := keyword_score text keywords in
      if 0 <? score then (label, score) :: build_scores text rest
      else build_scores text rest
  end.

(** [max(scores, key=scores.get)] on a non-empty dict: the running best is
    replaced only by a strictly larger value, so the first maximum wins. *)
Fixpoint py_max_by_value (best : string * nat) (rest : list (string * nat))
  : string :=
  match rest with
  | [] => fst best
  | cand :: rest' =>
      if snd best <? snd cand then py_max_by_value cand rest'
      else py_max_by_value best rest'
  end.

Definition classify_with (labels : list (string * list string))
           (title body : string) : string :=
  let text := combined_text title body in
  match build_scores text labels with
  | [] => "general"
  | first :: rest => py_max_by_value first rest
  end.

(** [IssueClassifier.classify_issue_type] *)
Definition classify_issue_type (title body : string) : string :=
  classify_with Config.ISSUE_LABELS title body.

(** [any(keyword in text for keyword in keywords)] *)
Definition any_keyword (text : string) (keywords : list string) : bool :=
  existsb (fun keyword => contains keyword text) keywords.

Fixpoint first_priority (text : string) (table : list (string * list string))
  : string :=
  match table with
  | [] => "medium"
  | (priority, keywords) :: rest =>
      if any_keyword text keywords then priority
      else first_priority text rest
  end.

(** [IssueClassifier.determine_priority] *)
Definition determine_priority (title body : string) : string :=
  first_priority (combined_text title body) Config.PRIORITY_KEYWORDS.

End IssueClassifier.

(* ===================================================================== *)
(** ** The classification claim in its own words *)
(* ===================================================================== *)

Module Wording.

(** Two characters are the same letter, case ignored: they are equal, or
    one is a capital letter [A]..[Z] and the other its small letter. *)
Definition same_letter (a b : ascii) : bool :=
  let n := nat_of_ascii a in
  let m := nat_of_ascii b in
  (n =? m)
  || ((65 <=? n) && (n <=? 90) && (m =? n + 32))
  || ((65 <=? m) && (m <=? 90) && (n =? m + 32)).

(** [kw] stands at the front of [text], case ignored. *)
Fixpoint stands_at_front (kw text : string) : bool :=
  match kw, text with
  | EmptyString, _ => true
  | String a kw', String b text' => same_letter a b && stands_at_front kw' text'
  | String _ _, EmptyString => false
  end.

(** Case-insensitive substring match: [kw] stands at some offset. *)
Fixpoint occurs (kw text : string) : bool :=
  stands_at_front kw text ||
  match text with
  | EmptyString => false
  | String _ rest => occurs kw rest
  end.

(** The count of occurrences of [kw] in [text]: the number of offsets at
    which it stands. *)
Fixpoint occurrence_count (kw text : string) : nat :=
  (if stands_at_front kw text then 1 else 0) +
  match text with
  | EmptyString => 0
  | String _ rest => occurrence_count kw rest
  end.

(** The score of a category as the claim words it: the count of keyword
    occurrences. *)
Definition occurrence_score (text : string) (keywords : list string) : nat :=
  list_sum (map (fun kw => occurrence_count kw text) keywords).

(** The score of a category as the number of its keywords that occur,
    each counted once. *)
Definition presence_score (text : string) (keywords : list string) : nat :=
  List.length (filter (fun kw => occurs kw text) keywords).

(** The category of the highest score, the first declared among equals,
    and ["general"] when every score is 0. *)
Fixpoint best_category (score : list string -> nat)
         (labels : list (string * list string))
         (best : string) (best_score : nat) : string :=
  match labels with
  | [] => best
  | (c, kws) :: rest =>
      if best_score <? score kws then best_category score rest c (score kws)
      else best_category score rest best best_score
  end.

Definition classify_by (score : list string -> nat)
           (labels : list (string * list string)) : string :=
  best_category score labels "general" 0.

(** A keyword written without capital letters, in ASCII. *)
Definition plain_char (c : ascii) : bool :=
  let n := nat_of_ascii c in
  (n <? 128) && negb ((65 <=? n) && (n <=? 90)).

Fixpoint plain (kw : string) : bool :=
  match kw with
  | EmptyString => true
  | String c rest => plain_char c && plain rest
  end.

End Wording.

(* ===================================================================== *)
(** ** The fragment of Python's [re] used by [extract_components] *)
(* ===================================================================== *)

Module PyRe.
Import PyStr.

(** The two character sets of the pattern list. *)
Inductive charset : Type :=
| NotBacktick   (* [^`] *)
| WordChar.     (* \w   *)

(** [\w] on a [str] pattern: the underscore and every character that is
    alphanumeric in Unicode. Below code point 256 these are the digits and
    the letters [A]..[Z], [a]..[z], the ordinal indicators U+00AA and
    U+00BA, the superscripts U+00B2, U+00B3 and U+00B9, the micro sign
    U+00B5, the fractions U+00BC..U+00BE, and the letters U+00C0..U+00FF
    without the multiplication and division signs U+00D7 and U+00F7. *)
Definition is_word_char (c : ascii) : bool :=
  let n := nat_of_ascii c in
  ((48 <=? n) && (n <=? 57)) || ((65 <=? n) && (n <=? 90))
  || ((97 <=? n) && (n <=? 122)) || (n =? 95)
  || (n =? 170) || ((178 <=? n) && (n <=? 179)) || (n =? 181)
  || ((185 <=? n) && (n <=? 186)) || ((188 <=? n) && (n <=? 190))
  || ((192 <=? n) && (n <=? 214)) || ((216 <=? n) && (n <=? 246))
  || ((248 <=? n) && (n <=? 255)).

Definition in_charset (cs : charset) (c : ascii) : bool :=
  match cs with
  | NotBacktick => negb (Ascii.eqb c "`"%char)
  | WordChar => is_word_char c
  end.

(** Patterns: literal text, a greedy [+] over a character set,
    concatenation, and the capturing group. *)
Inductive regex : Type :=
| Chars (lit : string)
| OneOrMore (cs : charset)
| Then (r1 r2 : regex)
| Capture (r : regex).

(** A literal under [re.IGNORECASE]: consume [lit] from the front of [s],
    comparing characters up to letter case. *)
Fixpoint eat_literal (lit s : string) : option string :=
  match lit, s with
  | EmptyString, _ => Some s
  | String a lit', String b s' =>
      if Ascii.eqb (lower_char a) (lower_char b) then eat_literal lit' s'
      else None
  | String _ _, EmptyString => None
  end.

Section Backtracking.
Context {R : Type}.

(** Greedy repetition: take as many characters as possible, and give
    one back at a time while the rest of the pattern fails. *)
Fixpoint zero_or_more (cs : charset) (s : string)
         (k : string -> option R) : option R :=
  match s with
  | String c s' =>
      if in_charset cs c then
        match zero_or_more cs s' k with
        | Some r => Some r
        | None => k s
        end
      else k s
  | EmptyString => k s
  end.

Definition one_or_more (cs : charset) (s : string)
           (k : string -> option R) : option R :=
  match s with
  | String c s' => if in_charset cs c then zero_or_more cs s' k else None
  | EmptyString => None
  end.

(** [run r s cap k]: match [r] at the front of [s]; [cap] is group 1 so
    far; [k] is the rest of the pattern, called on what is left. *)
Fixpoint run (r : regex) (s : string) (cap : string)
         (k : string -> string -> option R) : option R :=
  match r with
  | Chars lit =>
      match eat_literal lit s with
      | Some rest => k rest cap
      | None => None
      end
  | OneOrMore cs => one_or_more cs s (fun rest => k rest cap)
  | Then r1 r2 => run r1 s cap (fun rest cap' => run r2 rest cap' k)
  | Capture r1 =>
      run r1 s cap
          (fun rest _ => k rest (substring 0 (length s - length rest) s))
  end.
End Backtracking.

(** [pattern.match(s)]: group 1 and the unconsumed rest. *)
Definition match_here (r : regex) (s : string) : option (string * string) :=
  run r s EmptyString (fun rest cap => Some (cap, rest)).

(** The scan of [re.findall]: try every start position from the left; after
    a match, resume where it ended ([skip] counts the characters of the
    match still to step over). *)
Fixpoint findall_skip (r : regex) (skip : nat) (s : string) : list string :=
  match s with
  | EmptyString => []
  | String _ s' =>
      match skip with
      | S n => findall_skip r n s'
      | O =>
          match match_here r s with
          | Some (cap, rest) =>
              cap :: findall_skip r (length s - length rest - 1) s'
          | None => findall_skip r 0 s'
          end
      end
  end.

(** [re.findall(pattern, s, re.IGNORECASE)] for a pattern with one group. *)
Definition findall (r : regex) (s : string) : list string :=
  findall_skip r 0 s.

(** *** What a pattern matches, stated without the search order:
    [matches r m cap cap'] says that [r] matches exactly the text [m] and
    turns group 1 from [cap] into [cap']. *)

Fixpoint all_in (cs : charset) (w : string) : bool :=
  match w with
  | EmptyString => true
  | String c w' => in_charset cs c && all_in cs w'
  end.

Inductive matches : regex -> string -> string -> string -> Prop :=
| matches_chars lit m cap :
    lower m = lower lit -> matches (Chars lit) m cap cap
| matches_one_or_more cs w cap :
    w <> EmptyString -> all_in cs w = true ->
    matches (OneOrMore cs) w cap cap
| matches_then r1 r2 m1 m2 cap0 cap1 cap2 :
    matches r1 m1 cap0 cap1 -> matches r2 m2 cap1 cap2 ->
    matches (Then r1 r2) (m1 ++ m2) cap0 cap2
| matches_capture r m cap0 cap1 :
    matches r m cap0 cap1 -> matches (Capture r) m cap0 m.

(** [re.findall] in the words of its documentation: the non-overlapping
    matches of the pattern, found scanning left to right, group 1 of each
    in the order found. At an offset where the pattern matches, a match is
    taken and the scan goes on behind it; elsewhere it moves on by one
    character. *)
Inductive scan (r : regex) : string -> list string -> Prop :=
| scan_end : scan r EmptyString []
| scan_skip c s xs :
    (forall m rest x,
        String c s = (m ++ rest)%string -> ~ matches r m EmptyString x) ->
    scan r s xs ->
    scan r (String c s) xs
| scan_match m rest x xs :
    m <> EmptyString ->
    matches r m EmptyString x ->
    scan r rest xs ->
    scan r (m ++ rest) (x :: xs).

(** [list(set(xs))]: the distinct elements of [xs], each once, in the
    iteration order of the set, which the language leaves open. *)
Definition py_list_of_set (xs res : list string) : Prop :=
  NoDup res /\ forall x, In x res <-> In x xs.

End PyRe.

(* ===================================================================== *)
(** ** issue_bot.py: component extraction and label assembly *)
(* ===================================================================== *)

Module Components.
Import PyStr PyRe.

Definition backticked (ext : string) : regex :=
  Then (Chars "`")
       (Then (Capture (Then (OneOrMore NotBacktick) (Chars ext)))
             (Chars "`")).

(** The [patterns] list of [extract_components], in order. *)
Definition patterns : list regex :=
  [ backticked ".py";
    backticked ".js";
    backticked ".html";
    Then (Chars "in ") (Then (Capture (OneOrMore WordChar)) (Chars " module"));
    Then (Capture (OneOrMore WordChar)) (Chars " component") ].

(** The list [components] when the loop over [patterns] has finished. *)
Definition components_found (body : string) : list string :=
  flat_map (fun pattern => findall pattern body) patterns.

(** What the five patterns capture, in words: a file name ending in
    [.py], [.js] or [.html] (in any letter case) that stands between two
    backticks with no backtick inside; a word between ["in "] and
    [" module"]; a word before [" component"]. *)
Definition component_shape (body x : string) : Prop :=
  (exists ext stem e,
      In ext [".py"; ".js"; ".html"]
      /\ x = (stem ++ e)%string /\ stem <> EmptyString
      /\ all_in NotBacktick stem = true /\ lower e = ext
      /\ substring_of ("`" ++ x ++ "`") body)
  \/ (x <> EmptyString /\ all_in WordChar x = true
      /\ exists l r,
          lower l = "in " /\ lower r = " module"
          /\ substring_of (l ++ x ++ r) body)
  \/ (x <> EmptyString /\ all_in WordChar x = true
      /\ exists r, lower r = " component" /\ substring_of (x ++ r) body).

(** [IssueClassifier.extract_components]: [res] is a value the call may
    return on [body]. *)
Definition extract_components (body : string) (res : list string) : Prop :=
  py_list_of_set (components_found body) res.

(** The loop [for component in components[:3]] of
    [_classify_and_label_issue]. *)
Definition component_labels (components : list string) : list string :=
  map (fun component => ("component:" ++ component)%string)
      (firstn 3 components).

End Components.

(* ===================================================================== *)
(** ** Exceptions *)
(* ===================================================================== *)

(** A Python computation returns a value or raises. *)
Inductive outcome (A : Type) : Type :=
| Returns (value : A)
| Raises.

Arguments Returns {A} value.
Arguments Raises {A}.

Definition bind {A B : Type} (m : outcome A) (k : A -> outcome B)
  : outcome B :=
  match m with
  | Returns a => k a
  | Raises => Raises
  end.

Notation "x <- m ;; k" := (bind m (fun x => k))
  (at level 61, m at next level, right associativity).
Notation "' pat <- m ;; k" := (bind m (fun x => let 'pat := x in k))
  (at level 61, pat pattern, m at next level, right associativity).

(** [try: return body / except Exception: return handler] *)
Definition try_except {A : Type} (body : outcome A) (handler : A) : A :=
  match body with
  | Returns a => a
  | Raises => handler
  end.

(** [a / b] on numbers: [ZeroDivisionError] when [b] is zero. *)
Definition py_div (a b : Q) : outcome Q :=
  if Qeq_bool b 0 then Raises else Returns (a / b)%Q.

(* ===================================================================== *)
(** ** Pull requests and issues as the host returns them *)
(* ===================================================================== *)

(** The attributes of a pull request that the code reads. Times are seconds
    since the epoch. *)
Record pull_request : Type := {
  additions : Z;
  deletions : Z;
  pr_state : string;
  merged : bool;
  pr_created_at : Z;
  merged_at : option Z
}.

(** The attributes of an issue that the code reads. [comments] is the
    outcome of [list(issue.get_comments())], a call to the host for each
    issue: the creation times of the comments, unless the call raises. *)
Record issue : Type := {
  issue_state : string;
  created_at : Z;
  closed_at : option Z;
  comments : outcome (list Z)
}.

(** The attributes of the repository read by [get_basic_stats]. *)
Record repository : Type := {
  description : option string;
  stargazers_count : Z;
  forks_count : Z
}.

(* ===================================================================== *)
(** ** issue_bot.py: SmartIssueBot._determine_pr_size *)
(* ===================================================================== *)

Module SmartIssueBot.

Definition _determine_pr_size (pr : pull_request) : string :=
  let total_changes := (additions pr + deletions pr)%Z in
  if (total_changes <? 20)%Z then "size:small"
  else if (total_changes <? 100)%Z then "size:medium"
  else if (total_changes <? 500)%Z then "size:large"
  else "size:xl".

End SmartIssueBot.

(* ===================================================================== *)
(** ** analytics.py: RepositoryAnalyzer *)
(* ===================================================================== *)

Module RepositoryAnalyzer.

(** A Python float: a rational, or [float('inf')]. *)
Inductive pyfloat : Type :=
| Finite (q : Q)
| Infinity.

(** [x < bound] for a finite [bound]. *)
Definition lt_bound (x : pyfloat) (bound : Q) : bool :=
  match x with
  | Finite q => negb (Qle_bool bound q)
  | Infinity => false
  end.

(** [(later - earlier).total_seconds() / 3600] *)
Definition hours_between (later earlier : Z) : Q :=
  (inject_Z (later - earlier) / 3600)%Q.

Definition Qsum (xs : list Q) : Q := fold_right Qplus 0%Q xs.

(** [np.mean(xs)]: the sum over the length. On the empty list this is 0/0,
    which NumPy reports as an invalid value; it counts as a failed
    division here. *)
Definition np_mean (xs : list Q) : outcome Q :=
  py_div (Qsum xs) (inject_Z (Z.of_nat (List.length xs))).

(** [np.mean(xs) if xs else 0] *)
Definition mean_or_zero (xs : list Q) : outcome Q :=
  match xs with
  | [] => Returns 0%Q
  | _ :: _ => np_mean xs
  end.

(** [len(part) / len(whole) * 100 if whole else 0] *)
Definition rate_percent (part whole : nat) : outcome Q :=
  match whole with
  | O => Returns 0%Q
  | S _ =>
      ratio <- py_div (inject_Z (Z.of_nat part)) (inject_Z (Z.of_nat whole)) ;;
      Returns (ratio * 100)%Q
  end.

(** *** The dicts the getters return; [None] stands for [{}]. *)

Record basic_stats : Type := {
  bs_description : option string;
  bs_stars : Z;
  bs_forks : Z
}.

Record commit_activity : Type := {
  total_commits : nat
}.

Record issue_stats : Type := {
  total_issues : nat;
  open_issues : nat;
  closed_issues : nat;
  close_rate : Q;
  avg_close_time_hours : Q;
  avg_response_time_hours : Q
}.

Record pr_stats : Type := {
  total_prs : nat;
  open_prs : nat;
  merged_prs : nat;
  merge_rate : Q;
  avg_merge_time_hours : Q;
  pr_size_distribution : list (string * nat)
}.

(** *** What the host answers when the four getters read from it: the
    repository attributes, the commits of the window (each by its date),
    all issues, all pull requests; each read may raise instead. *)

Record host : Type := {
  repo_fetch : outcome repository;
  commits_fetch : outcome (list Z);
  issues_fetch : outcome (list issue);
  pulls_fetch : outcome (list pull_request)
}.

(** [get_basic_stats] *)
Definition get_basic_stats (h : host) : option basic_stats :=
  try_except
    (repo <- repo_fetch h ;;
     Returns (Some {| bs_description := description repo;
                      bs_stars := stargazers_count repo;
                      bs_forks := forks_count repo |}))
    None.

(** [get_commit_activity] *)
Definition get_commit_activity (h : host) : option commit_activity :=
  try_except
    (commits <- commits_fetch h ;;
     Returns (Some {| total_commits := List.length commits |}))
    None.

(** The loop over [issues] of [get_issue_analytics], for the two lists
    [close_times] and [response_times]. *)
Fixpoint issue_loop (issues : list issue) (close_times response_times : list Q)
  : outcome (list Q * list Q) :=
  match issues with
  | [] => Returns (close_times, response_times)
  | i :: rest =>
      let close_times' :=
        match closed_at i with
        | Some closed =>
            if String.eqb (issue_state i) "closed"
            then close_times ++ [hours_between closed (created_at i)]
            else close_times
        | None => close_times
        end in
      comments_of_i <- comments i ;;
      match comments_of_i with
      | [] => issue_loop rest close_times' response_times
      | first_comment :: _ =>
          issue_loop rest close_times'
            (response_times ++ [hours_between first_comment (created_at i)])
      end
  end.

Definition count_state (st : string) (issues : list issue) : nat :=
  List.length (filter (fun i => String.eqb (issue_state i) st) issues).

(** The [try] body of [get_issue_analytics] once the issues are fetched. *)
Definition issue_analytics_of (issues : list issue) : outcome issue_stats :=
  '(close_times, response_times) <- issue_loop issues [] [] ;;
  avg_close_time <- mean_or_zero close_times ;;
  avg_response_time <- mean_or_zero response_times ;;
  rate <- rate_percent (count_state "closed" issues) (List.length issues) ;;
  Returns {| total_issues := List.length issues;
             open_issues := count_state "open" issues;
             closed_issues := count_state "closed" issues;
             close_rate := rate;
             avg_close_time_hours := avg_close_time;
             avg_response_time_hours := avg_response_time |}.

(** [get_issue_analytics] *)
Definition get_issue_analytics (h : host) : option issue_stats :=
  try_except
    (issues <- issues_fetch h ;;
     stats <- issue_analytics_of issues ;;
     Returns (Some stats))
    None.

(** [d[key] += 1] on a [defaultdict(int)]. *)
Fixpoint increment (key : string) (d : list (string * nat))
  : list (string * nat) :=
  match d with
  | [] => [(key, 1)]
  | (k, n) :: rest =>
      if String.eqb k key then (k, S n) :: rest
      else (k, n) :: increment key rest
  end.

(** [d.get(key, 0)] *)
Fixpoint lookup0 (key : string) (d : list (string * nat)) : nat :=
  match d with
  | [] => 0
  | (k, n) :: rest => if String.eqb k key then n else lookup0 key rest
  end.

(** The size category of [get_pull_request_analytics]. *)
Definition size_bucket (pr : pull_request) : string :=
  let total_changes := (additions pr + deletions pr)%Z in
  if (total_changes <? 20)%Z then "small"
  else if (total_changes <? 100)%Z then "medium"
  else if (total_changes <? 500)%Z then "large"
  else "xl".

(** The loop over [pulls] of [get_pull_request_analytics]. *)
Fixpoint pull_loop (pulls : list pull_request)
         (pr_sizes : list (string * nat)) (merge_times : list Q)
  : list (string * nat) * list Q :=
  match pulls with
  | [] => (pr_sizes, merge_times)
  | pr :: rest =>
      let pr_sizes' := increment (size_bucket pr) pr_sizes in
      match merged_at pr with
      | Some m =>
          pull_loop rest pr_sizes'
                    (merge_times ++ [hours_between m (pr_created_at pr)])
      | None => pull_loop rest pr_sizes' merge_times
      end
  end.

(** The [try] body of [get_pull_request_analytics] once the pull requests
    are fetched. *)
Definition pr_analytics_of (pulls : list pull_request) : outcome pr_stats :=
  let '(pr_sizes, merge_times) := pull_loop pulls [] [] in
  let n_merged := List.length (filter merged pulls) in
  rate <- rate_percent n_merged (List.length pulls) ;;
  avg_merge_time <- mean_or_zero merge_times ;;
  Returns {| total_prs := List.length pulls;
             open_prs :=
               List.length
                 (filter (fun p => String.eqb (pr_state p) "open") pulls);
             merged_prs := n_merged;
             merge_rate := rate;
             avg_merge_time_hours := avg_merge_time;
             pr_size_distribution := pr_sizes |}.

(** [get_pull_request_analytics] *)
Definition get_pull_request_analytics (h : host) : option pr_stats :=
  try_except
    (pulls <- pulls_fetch h ;;
     stats <- pr_analytics_of pulls ;;
     Returns (Some stats))
    None.

(** *** The averages as the specification words them: the arithmetic
    mean over the records whose pair of timestamps is defined. *)

Definition arithmetic_mean (xs : list Q) : Q :=
  (Qsum xs / inject_Z (Z.of_nat (List.length xs)))%Q.

(** The share of [part] in [whole] in percent, 0 when [whole] is 0. *)
Definition percentage (part whole : nat) : Q :=
  match whole with
  | O => 0%Q
  | S _ => (inject_Z (Z.of_nat part) / inject_Z (Z.of_nat whole) * 100)%Q
  end.

Definition close_pair (i : issue) : option Q :=
  match closed_at i with
  | Some closed =>
      if String.eqb (issue_state i) "closed"
      then Some (hours_between closed (created_at i))
      else None
  | None => None
  end.

Definition response_pair (i : issue) : option Q :=
  match comments i with
  | Returns (first_comment :: _) =>
      Some (hours_between first_comment (created_at i))
  | _ => None
  end.

Definition merge_pair (pr : pull_request) : option Q :=
  match merged_at pr with
  | Some m => Some (hours_between m (pr_created_at pr))
  | None => None
  end.

(** The defined values of [pair] over [records], in order. *)
Fixpoint defined_values {A : Type} (pair : A -> option Q) (records : list A)
  : list Q :=
  match records with
  | [] => []
  | r :: rest =>
      match pair r with
      | Some v => v :: defined_values pair rest
      | None => defined_values pair rest
      end
  end.

Definition mean_of_defined {A : Type} (pair : A -> option Q)
           (records : list A) : Q :=
  match defined_values pair records with
  | [] => 0%Q
  | sample => arithmetic_mean sample
  end.

(** *** calculate_health_score *)

(** [bool(basic_stats.get('description'))]: [None] and [''] are false. *)
Definition truthy (s : option string) : bool :=
  match s with
  | Some (String _ _) => true
  | _ => false
  end.

(** The four blocks of the [try] body, each as the amount it adds to
    [score], on the dict its getter returned. *)
Definition basic_points (basic : option basic_stats) : Q :=
  ((if truthy (match basic with Some b => bs_description b | None => None end)
    then 5 else 0)
   + (if (10 <? match basic with Some b => bs_stars b | None => 0 end)%Z
      then 5 else 0)
   + (if (5 <? match basic with Some b => bs_forks b | None => 0 end)%Z
      then 5 else 0))%Q.

Definition commit_points (activity : option commit_activity) : Q :=
  let recent_commits :=
    match activity with Some a => total_commits a | None => 0 end in
  if 0 <? recent_commits
  then inject_Z (Z.of_nat (Nat.min 15 recent_commits))
  else 0%Q.

Definition issue_points (stats : option issue_stats) : Q :=
  let rate := match stats with Some s => close_rate s | None => 0%Q end in
  let response_time :=
    match stats with
    | Some s => Finite (avg_response_time_hours s)
    | None => Infinity
    end in
  (Qmin 15 (rate * (15 # 100))
   + (if lt_bound response_time 24 then 10
      else if lt_bound response_time 72 then 5 else 0))%Q.

Definition pr_points (stats : option pr_stats) : Q :=
  let rate := match stats with Some s => merge_rate s | None => 0%Q end in
  let merge_time :=
    match stats with
    | Some s => Finite (avg_merge_time_hours s)
    | None => Infinity
    end in
  (Qmin 10 (rate * (1 # 10))
   + (if lt_bound merge_time 48 then 10
      else if lt_bound merge_time 168 then 5 else 0))%Q.

(** [score] just before the [return] of the [try] body. *)
Definition raw_score (basic : option basic_stats)
           (activity : option commit_activity)
           (issues : option issue_stats) (prs : option pr_stats) : Q :=
  (0 + basic_points basic + commit_points activity
   + issue_points issues + pr_points prs)%Q.

(** [min(100, max(0, score))] *)
Definition clamp_score (score : Q) : Q := Qmin 100 (Qmax 0 score).

(** The [try] body of [calculate_health_score]. The getters catch their
    own exceptions and the body itself calls nothing else that raises. *)
Definition health_score_body (h : host) : outcome Q :=
  let basic_stats := get_basic_stats h in
  let commit_activity := get_commit_activity h in
  let issue_stats := get_issue_analytics h in
  let pr_stats := get_pull_request_analytics h in
  Returns (clamp_score
             (raw_score basic_stats commit_activity issue_stats pr_stats)).

(** [calculate_health_score] *)
Definition calculate_health_score (h : host) : Q :=
  try_except (health_score_body h) 0%Q.

(** The score as the contribution table words it, from the eight signals. *)
Definition table_score (has_description : bool) (stars forks : Z)
           (recent_commits : nat) (issue_close_rate : Q)
           (response_time : pyfloat) (pr_merge_rate : Q)
           (merge_time : pyfloat) : Q :=
  let contributions :=
    [ if has_description then 5 else 0;
      if (stars >? 10)%Z then 5 else 0;
      if (forks >? 5)%Z then 5 else 0;
      inject_Z (Z.of_nat (Nat.min recent_commits 15));
      Qmin 15 (issue_close_rate * (15 # 100));
      if lt_bound response_time 24 then 10
      else if lt_bound response_time 72 then 5 else 0;
      Qmin 10 (pr_merge_rate * (1 # 10));
      if lt_bound merge_time 48 then 10
      else if lt_bound merge_time 168 then 5 else 0 ]%Q in
  Qmax 0 (Qmin 100 (Qsum contributions)).

(** The eight signals as [calculate_health_score] reads them out of the
    four dicts, with the defaults of its [.get] calls. *)
Definition sig_description (b : option basic_stats) : bool :=
  truthy (match b with Some b => bs_description b | None => None end).
Definition sig_stars (b : option basic_stats) : Z :=
  match b with Some b => bs_stars b | None => 0%Z end.
Definition sig_forks (b : option basic_stats) : Z :=
  match b with Some b => bs_forks b | None => 0%Z end.
Definition sig_commits (a : option commit_activity) : nat :=
  match a with Some a => total_commits a | None => 0 end.
Definition sig_close_rate (s : option issue_stats) : Q :=
  match s with Some s => close_rate s | None => 0%Q end.
Definition sig_response_time (s : option issue_stats) : pyfloat :=
  match s with
  | Some s => Finite (avg_response_time_hours s)
  | None => Infinity
  end.
Definition sig_merge_rate (s : option pr_stats) : Q :=
  match s with Some s => merge_rate s | None => 0%Q end.
Definition sig_merge_time (s : option pr_stats) : pyfloat :=
  match s with
  | Some s => Finite (avg_merge_time_hours s)
  | None => Infinity
  end.

End RepositoryAnalyzer.

(* ===================================================================== *)
(** ** app.py: webhook verification, routing, health status *)
(* ===================================================================== *)

Module App.

(** The status word of the [/health] endpoint. *)
Definition health_status (health_score : Q) : string :=
  if Qle_bool 90 health_score then "excellent"
  else if Qle_bool 75 health_score then "good"
  else if Qle_bool 60 health_score then "fair"
  else "poor".

(** [health()] on a reachable repository: score and status word. *)
Definition health (h : RepositoryAnalyzer.host) : Q * string :=
  let health_score := RepositoryAnalyzer.calculate_health_score h in
  (health_score, health_status health_score).

Section Webhook.
(** [hmac.new(key.encode(), msg, hashlib.sha256).hexdigest()] *)
Variable hmac_sha256_hexdigest : string -> string -> string.
(** The parsed JSON body. *)
Variable payload : Type.
(** [Config.GITHUB_WEBHOOK_SECRET]: [os.getenv] gives [None] or a string. *)
Variable GITHUB_WEBHOOK_SECRET : option string.

(** [hmac.compare_digest(a, b)] on two [str] operands: equality, but a
    [TypeError] when one of them has a character that is not ASCII. *)
Definition compare_digest (a b : string) : outcome bool :=
  if PyStr.is_ascii a && PyStr.is_ascii b then Returns (String.eqb a b)
  else Raises.

(** [verify_webhook_signature]. [not x] holds of [None] and of the empty
    string; the comparison may raise. *)
Definition verify_webhook_signature (payload_body : string)
           (signature_header : option string) : outcome bool :=
  match GITHUB_WEBHOOK_SECRET with
  | Some (String c key) =>
      match signature_header with
      | Some (String h hs) =>
          compare_digest
            ("sha256=" ++ hmac_sha256_hexdigest (String c key) payload_body)
            (String h hs)
      | _ => Returns false
      end
  | _ => Returns true
  end.

(** What [request.get_json()] does: raise, return a false value
    ([None], an empty object), or return the payload. *)
Inductive json_outcome : Type :=
| JsonRaises
| JsonFalsy
| JsonPayload (p : payload).

Record request : Type := {
  data : string;
  x_hub_signature_256 : option string;
  x_github_event : option string;
  get_json : json_outcome
}.

(** Entry points of the classification pipeline. *)
Inductive pipeline_call : Type :=
| process_issue (p : payload)
| process_pull_request (p : payload).

(** [webhook()]: the HTTP status of the response and the pipeline calls
    made on the way. Both pipeline entry points catch their own
    exceptions; an exception of the verification or of [get_json] ends in
    the [except] clause of [webhook()], which answers 500. *)
Definition webhook (req : request) : nat * list pipeline_call :=
  match verify_webhook_signature (data req) (x_hub_signature_256 req) with
  | Raises => (500, [])
  | Returns false => (401, [])
  | Returns true =>
      match get_json req with
      | JsonRaises => (500, [])
      | JsonFalsy => (400, [])
      | JsonPayload p =>
          match x_github_event req with
          | Some "issues" => (200, [process_issue p])
          | Some "pull_request" => (200, [process_pull_request p])
          | Some "ping" => (200, [])
          | _ => (200, [])
          end
      end
  end.
End Webhook.

End App.

(* ===================================================================== *)
(** ** Sample data *)
(* ===================================================================== *)

Module Samples.
Import RepositoryAnalyzer.

Definition pr_of_size (added deleted : Z) : pull_request :=
  {| additions := added; deletions := deleted; pr_state := "open";
     merged := false; pr_created_at := 0; merged_at := None |}.

(** A pull request merged one hour after it was opened. *)
Definition merged_pr : pull_request :=
  {| additions := 3; deletions := 1; pr_state := "closed";
     merged := true; pr_created_at := 1000; merged_at := Some 4600%Z |}.

(** An issue answered after half an hour and closed after two hours. *)
Definition closed_issue : issue :=
  {| issue_state := "closed"; created_at := 0;
     closed_at := Some 7200%Z; comments := Returns [1800%Z; 3600%Z] |}.

(** An open issue nobody has answered. *)
Definition silent_issue : issue :=
  {| issue_state := "open"; created_at := 50;
     closed_at := None; comments := Returns [] |}.

(** An issue whose comments the host fails to deliver. *)
Definition unreadable_issue : issue :=
  {| issue_state := "open"; created_at := 50;
     closed_at := None; comments := Raises |}.

(** Every fetch fails. *)
Definition unreachable_host : host :=
  {| repo_fetch := Raises; commits_fetch := Raises;
     issues_fetch := Raises; pulls_fetch := Raises |}.

(** A repository at its best on every signal: described, 5000 stars,
    800 forks, 20 commits in the window, its one issue answered at once
    and closed, its one pull request merged within the hour. *)
Definition best_host : host :=
  {| repo_fetch :=
       Returns {| description := Some "A well kept project";
                  stargazers_count := 5000; forks_count := 800 |};
     commits_fetch := Returns (repeat 0%Z 20);
     issues_fetch := Returns [closed_issue];
     pulls_fetch := Returns [merged_pr] |}.

(** The issue fetch works but one comment fetch fails. *)
Definition half_failed_host : host :=
  {| repo_fetch := repo_fetch best_host;
     commits_fetch := Raises;
     issues_fetch := Returns [closed_issue; unreadable_issue];
     pulls_fetch := Returns [merged_pr] |}.

End Samples.

(* ===================================================================== *)
(** ** issue_bot.py: pull-request type, sentiment, label assembly *)
(* ===================================================================== *)

Module Labeling.
Import PyStr IssueClassifier Components SmartIssueBot.

(** [SmartIssueBot._classify_pr_type] *)
Definition _classify_pr_type (title body : string) : string :=
  let text := lower (title ++ " " ++ body)%string in
  if any_keyword text ["fix"; "bug"; "error"; "issue"] then "bugfix"
  else if any_keyword text ["feat"; "feature"; "add"; "new"] then "feature"
  else if any_keyword text ["doc"; "documentation"; "readme"]
       then "documentation"
  else if any_keyword text ["refactor"; "cleanup"; "improve"] then "refactor"
  else if any_keyword text ["test"; "testing"] then "test"
  else "enhancement".

(** The chain of [_classify_pr_type] without the keywords that contain
    another keyword of their own list. *)
Definition pr_type_short_lists (title body : string) : string :=
  let text := lower (title ++ " " ++ body)%string in
  if any_keyword text ["fix"; "bug"; "error"; "issue"] then "bugfix"
  else if any_keyword text ["feat"; "add"; "new"] then "feature"
  else if any_keyword text ["doc"; "readme"] then "documentation"
  else if any_keyword text ["refactor"; "cleanup"; "improve"] then "refactor"
  else if any_keyword text ["test"] then "test"
  else "enhancement".

(** [labels_to_add] of [_classify_and_label_pr]; [if size_label] tests
    that the string is not empty. *)
Definition pr_labels_to_add (title body : string) (pr : pull_request)
  : list string :=
  let size_label := _determine_pr_size pr in
  [_classify_pr_type title body]
    ++ match size_label with
       | EmptyString => []
       | String _ _ => [size_label]
       end.

Section Sentiment.
(** [TextBlob(text).sentiment.polarity] *)
Variable polarity : string -> Q.

(** [IssueClassifier.analyze_sentiment] *)
Definition analyze_sentiment (text : string) : string :=
  if negb (Qle_bool (- (3 # 10)) (polarity text)) then "negative"
  else if negb (Qle_bool (polarity text) (3 # 10)) then "positive"
  else "neutral".

(** [labels_to_add] of [_classify_and_label_issue], from the title, the
    body and the list [extract_components] returned. *)
Definition issue_labels_to_add (title body : string)
           (components : list string) : list string :=
  let issue_type := classify_issue_type title body in
  let priority := determine_priority title body in
  let sentiment := analyze_sentiment (title ++ " " ++ body)%string in
  [issue_type]
    ++ (if String.eqb priority "medium" then []
        else [("priority:" ++ priority)%string])
    ++ (if String.eqb sentiment "negative" then ["needs-attention"] else [])
    ++ component_labels components.
End Sentiment.

(** The [color_map] of [_create_label_if_not_exists]. *)
Definition color_map : list (string * string) :=
  [ ("bug", "d73a4a"); ("feature", "0075ca"); ("documentation", "0052cc");
    ("question", "d876e3"); ("enhancement", "a2eeef");
    ("priority:critical", "b60205"); ("priority:high", "d93f0b");
    ("priority:medium", "fbca04"); ("priority:low", "0e8a16");
    ("needs-attention", "ff6b6b"); ("size:small", "c2e0c6");
    ("size:medium", "f9d71c"); ("size:large", "dfa878");
    ("size:xl", "d73a4a") ].

(** [d.get(key, default)] *)
Fixpoint dict_get (key : string) (d : list (string * string))
         (default : string) : string :=
  match d with
  | [] => default
  | (k, v) :: rest => if String.eqb k key then v else dict_get key rest default
  end.

(** [s.split(':')[0]]: what stands before the first colon. *)
Fixpoint before_colon (s : string) : string :=
  match s with
  | EmptyString => EmptyString
  | String c rest =>
      if Ascii.eqb c ":"%char then EmptyString
      else String c (before_colon rest)
  end.

(** The colour [_create_label_if_not_exists] picks for a new label. *)
Definition label_color (label_name : string) : string :=
  let color := dict_get (before_colon label_name) color_map "7057ff" in
  if contains ":" label_name
  then dict_get label_name color_map "7057ff"
  else color.

(** Calls to the host made while labels are applied. *)
Inductive host_call : Type :=
| get_label (name : string)
| create_label (name color : string)
| set_labels (labels : list string)
| create_comment (text : string).

(** How the host answers: whether [get_label] and [set_labels] return
    rather than raise. Whether [create_label] and [create_comment] raise
    changes nothing in the calls made: the first is followed by [pass], the
    second is the last call of the block. *)
Record label_host : Type := {
  get_label_ok : string -> bool;
  set_labels_ok : bool
}.

(** The names that were looked up, in the order of the calls. *)
Definition looked_up (calls : list host_call) : list string :=
  flat_map (fun call => match call with
                        | get_label n => [n]
                        | _ => []
                        end) calls.

(** [_create_label_if_not_exists]: the calls it makes. Both [except]
    clauses catch everything, so it always returns. *)
Definition _create_label_if_not_exists (host : label_host)
           (label_name : string) : list host_call :=
  if get_label_ok host label_name then [get_label label_name]
  else [get_label label_name; create_label label_name (label_color label_name)].

Definition newline : string := String (ascii_of_nat 10) EmptyString.

(** The robot emoji, U+1F916, in UTF-8. *)
Definition robot : string :=
  String (ascii_of_nat 240) (String (ascii_of_nat 159)
    (String (ascii_of_nat 164) (String (ascii_of_nat 150) EmptyString))).

(** [', '.join(items)] *)
Fixpoint join_comma (items : list string) : string :=
  match items with
  | [] => EmptyString
  | [x] => x
  | x :: rest => (x ++ ", " ++ join_comma rest)%string
  end.

(** [_generate_auto_label_comment] *)
Definition _generate_auto_label_comment (issue_type priority : string)
           (components : list string) : string :=
  (robot ++ " **Auto-labeling complete!**" ++ newline ++ newline
   ++ "- **Type**: " ++ issue_type ++ newline
   ++ "- **Priority**: " ++ priority ++ newline
   ++ match components with
      | [] => EmptyString
      | _ :: _ => "- **Components**: " ++ join_comma components ++ newline
      end
   ++ newline ++ "*This issue was automatically analyzed and labeled. "
   ++ "If you think the labels are incorrect, please feel free to modify them.*"
  )%string.

(** The [try] block at the end of [_classify_and_label_issue]: the calls
    made until one raises outside [_create_label_if_not_exists]. *)
Definition apply_issue_labels (host : label_host)
           (labels_to_add : list string) (issue_type priority : string)
           (components : list string) : list host_call :=
  flat_map (_create_label_if_not_exists host) labels_to_add
    ++ [set_labels labels_to_add]
    ++ (if set_labels_ok host
        then [create_comment
                (_generate_auto_label_comment issue_type priority components)]
        else []).

End Labeling.

(* ===================================================================== *)
(** ** issue_bot.py and app.py: from a payload to the classification *)
(* ===================================================================== *)

Module Pipeline.
Import PyStr.

(** A parsed JSON value; an object keeps the first entry of a key. *)
#[warnings="-register-all"] Inductive json : Type :=
| JNull
| JBool (b : bool)
| JNum (n : Z)
| JStr (s : string)
| JList (items : list json)
| JObj (fields : list (string * json)).

Fixpoint lookup_field (key : string) (fields : list (string * json))
  : option json :=
  match fields with
  | [] => None
  | (k, v) :: rest => if String.eqb k key then Some v else lookup_field key rest
  end.

(** The truth value of a JSON value. *)
Definition truthy (v : json) : bool :=
  match v with
  | JNull => false
  | JBool b => b
  | JNum n => negb (n =? 0)%Z
  | JStr EmptyString => false
  | JStr (String _ _) => true
  | JList [] => false
  | JList (_ :: _) => true
  | JObj [] => false
  | JObj (_ :: _) => true
  end.

(** [v == s] for a string constant [s]. *)
Definition is_str (s : string) (v : json) : bool :=
  match v with
  | JStr t => String.eqb t s
  | _ => false
  end.

(** [d.get(key, default)]: only a dict has the method. *)
Definition py_get (d : json) (key : string) (default : json) : outcome json :=
  match d with
  | JObj fields =>
      match lookup_field key fields with
      | Some v => Returns v
      | None => Returns default
      end
  | _ => Raises
  end.

(** [d[key]] for a string [key]: [KeyError] on a dict without the key,
    [TypeError] on anything that is not a dict. *)
Definition py_item (d : json) (key : string) : outcome json :=
  match d with
  | JObj fields =>
      match lookup_field key fields with
      | Some v => Returns v
      | None => Raises
      end
  | _ => Raises
  end.

(** [key in d] for a string [key]: a key of a dict, a substring of a
    string, an element of a list; [TypeError] on the rest. *)
Definition py_in (key : string) (d : json) : outcome bool :=
  match d with
  | JObj fields =>
      Returns (match lookup_field key fields with
               | Some _ => true
               | None => false
               end)
  | JStr s => Returns (contains key s)
  | JList items => Returns (existsb (is_str key) items)
  | _ => Raises
  end.

(** [a or b] *)
Definition py_or (a b : json) : json := if truthy a then a else b.

(** What both [process_] methods read out of [webhook_data] before they
    turn to the host; [entity] is ['issue'] or ['pull_request'].
    [Returns None] is the early [return]. *)
Definition read_payload (entity : string) (webhook_data : json)
  : outcome (option (json * json * json * json)) :=
  action <- py_get webhook_data "action" JNull ;;
  entity_data <- py_get webhook_data entity (JObj []) ;;
  if negb (is_str "opened" action || is_str "edited" action)
  then Returns None
  else
    repository <- py_item webhook_data "repository" ;;
    repo_name <- py_item repository "full_name" ;;
    number <- py_item entity_data "number" ;;
    title <- py_item entity_data "title" ;;
    body <- py_item entity_data "body" ;;
    Returns (Some (repo_name, number, title, py_or body (JStr EmptyString))).

(** What the bot does after reading the payload. *)
Inductive bot_call : Type :=
| get_repo (repo_name : json)
| get_issue (repo_name number : json)
| get_pull (repo_name number : json)
| classify_and_label_issue (repo_name number title body : json)
| classify_and_label_pr (repo_name number title body : json).

(** Whether the host finds the repository, the issue, the pull request;
    a call that does not find raises. *)
Record bot_host : Type := {
  repo_found : json -> bool;
  issue_found : json -> json -> bool;
  pull_found : json -> json -> bool
}.

(** [SmartIssueBot.process_issue]: the calls made; every exception ends in
    the [except] clause, which prints. *)
Definition process_issue (host : bot_host) (webhook_data : json)
  : list bot_call :=
  match read_payload "issue" webhook_data with
  | Returns (Some (repo_name, issue_number, title, body)) =>
      get_repo repo_name
        :: (if repo_found host repo_name
            then get_issue repo_name issue_number
                   :: (if issue_found host repo_name issue_number
                       then [classify_and_label_issue
                               repo_name issue_number title body]
                       else [])
            else [])
  | _ => []
  end.

(** [SmartIssueBot.process_pull_request] *)
Definition process_pull_request (host : bot_host) (webhook_data : json)
  : list bot_call :=
  match read_payload "pull_request" webhook_data with
  | Returns (Some (repo_name, pr_number, title, body)) =>
      get_repo repo_name
        :: (if repo_found host repo_name
            then get_pull repo_name pr_number
                   :: (if pull_found host repo_name pr_number
                       then [classify_and_label_pr
                               repo_name pr_number title body]
                       else [])
            else [])
  | _ => []
  end.

(** The [mock_webhook] of [analyze_issue_manually]. *)
Definition mock_webhook (repo_name issue_number : json) : json :=
  JObj [ ("action", JStr "opened");
         ("repository", JObj [("full_name", repo_name)]);
         ("issue", JObj [("number", issue_number)]) ].

(** [analyze_issue_manually] of app.py, on the outcome of
    [request.get_json()]: the HTTP status and the calls made. *)
Definition analyze_issue_manually (host : bot_host) (get_json : outcome json)
  : nat * list bot_call :=
  try_except
    (data <- get_json ;;
     if negb (truthy data) then Returns (400, [])
     else
       has_repo_name <- py_in "repo_name" data ;;
       if negb has_repo_name then Returns (400, [])
       else
         has_issue_number <- py_in "issue_number" data ;;
         if negb has_issue_number then Returns (400, [])
         else
           repo_name <- py_item data "repo_name" ;;
           issue_number <- py_item data "issue_number" ;;
           Returns (200,
                    process_issue host (mock_webhook repo_name issue_number)))
    (500, []).

(** [request.get_json()] as [webhook()] looks at it. *)
Definition json_outcome_of (get_json : outcome json) : App.json_outcome json :=
  match get_json with
  | Raises => App.JsonRaises json
  | Returns v => if truthy v then App.JsonPayload json v else App.JsonFalsy json
  end.

(** The calls of the bot that one delivery to [/webhook] leads to. *)
Definition webhook_calls (hmac_sha256_hexdigest : string -> string -> string)
           (secret : option string) (host : bot_host)
           (req : App.request json) : list bot_call :=
  flat_map (fun call =>
              match call with
              | App.process_issue _ p => process_issue host p
              | App.process_pull_request _ p => process_pull_request host p
              end)
           (snd (App.webhook hmac_sha256_hexdigest json secret req)).

End Pipeline.

(* ===================================================================== *)
(** ** analytics.py: commit activity, label statistics, months *)
(* ===================================================================== *)

Module Activity.
Import RepositoryAnalyzer.

(** A commit as [get_commit_activity] reads it: [day] is
    [commit.commit.author.date.date().isoformat()]. *)
Record commit : Type := {
  sha : string;
  message : string;
  author : string;
  day : string
}.

(** One entry of [commit_details] (without the date and line counts). *)
Record commit_detail : Type := {
  detail_sha : string;
  detail_message : string;
  detail_author : string
}.

(** [s.split('\n')[0]]: the text before the first line feed. *)
Fixpoint first_line (s : string) : string :=
  match s with
  | EmptyString => EmptyString
  | String c rest =>
      if Ascii.eqb c (ascii_of_nat 10) then EmptyString
      else String c (first_line rest)
  end.

(** [counter[key] += 1] for every key, in order. *)
Definition count_keys (keys : list string) : list (string * nat) :=
  fold_left (fun counter key => increment key counter) keys [].

(** The sum of all counts of a counter. *)
Definition total_count (counter : list (string * nat)) : nat :=
  list_sum (map snd counter).

(** How often [key] stands in [keys]. *)
Definition occurrences (key : string) (keys : list string) : nat :=
  List.length (filter (String.eqb key) keys).

(** [a] may stand before [b] in a ranking by falling count. *)
Definition falling (a b : string * nat) : Prop := snd b <= snd a.

(** One step of a stable sort by falling count: [x] goes in front of the
    first entry whose count does not exceed its own. *)
Fixpoint insert_desc (x : string * nat) (sorted : list (string * nat))
  : list (string * nat) :=
  match sorted with
  | [] => [x]
  | y :: rest =>
      if snd y <=? snd x then x :: y :: rest
      else y :: insert_desc x rest
  end.

(** [sorted(items, key=lambda x: x[1], reverse=True)]: by falling count,
    entries of equal count in their original order. *)
Definition sorted_desc (items : list (string * nat)) : list (string * nat) :=
  fold_right insert_desc [] items.

(** [dict(sorted(...)[:n])] and [Counter.most_common(n)] *)
Definition top (n : nat) (counter : list (string * nat))
  : list (string * nat) :=
  firstn n (sorted_desc counter).

Record commit_report : Type := {
  report_total_commits : nat;
  daily_commits : list (string * nat);
  top_contributors : list (string * nat);
  commit_details : list commit_detail
}.

(** The [try] body of [get_commit_activity] on the commits of the window. *)
Definition commit_activity_of (commits : list commit) : commit_report :=
  {| report_total_commits := List.length commits;
     daily_commits := count_keys (map day commits);
     top_contributors := top 10 (count_keys (map author commits));
     commit_details :=
       firstn 50
         (map (fun c =>
                 {| detail_sha := substring 0 7 (sha c);
                    detail_message :=
                      substring 0 100 (first_line (message c));
                    detail_author := author c |})
              commits) |}.

(** [n] for a priority label, 0 for any other. *)
Definition priority_share (name : string) (n : nat) : nat :=
  if PyStr.starts_with "priority:" name then n else 0.

(** The label loop of [get_issue_analytics], on the label names of each
    issue: [label_counts] and [priority_counts]. *)
Fixpoint label_loop (issues : list (list string))
         (label_counts priority_counts : list (string * nat))
  : list (string * nat) * list (string * nat) :=
  match issues with
  | [] => (label_counts, priority_counts)
  | labels :: rest =>
      let '(lc, pc) :=
        fold_left
          (fun '(lc, pc) name =>
             (increment name lc,
              if PyStr.starts_with "priority:" name
              then increment name pc else pc))
          labels (label_counts, priority_counts) in
      label_loop rest lc pc
  end.

(** The entries [label_distribution] and [priority_distribution] of the
    issue report, on the label names of each issue:
    [dict(label_counts.most_common(10))] and [dict(priority_counts)]. *)
Definition label_report (issues : list (list string))
  : list (string * nat) * list (string * nat) :=
  let '(label_counts, priority_counts) := label_loop issues [] [] in
  (top 10 label_counts, priority_counts).

Section Months.
(** [t.strftime('%Y-%m')] *)
Variable month_of : Z -> string.

(** [monthly_counts[key][field] += 1], the entry starting at
    [{'opened': 0, 'closed': 0}]. *)
Fixpoint bump (key : string) (f : nat * nat -> nat * nat)
         (d : list (string * (nat * nat))) : list (string * (nat * nat)) :=
  match d with
  | [] => [(key, f (0, 0))]
  | (k, v) :: rest =>
      if String.eqb k key then (k, f v) :: rest
      else (k, v) :: bump key f rest
  end.

Definition add_opened (v : nat * nat) : nat * nat := (S (fst v), snd v).
Definition add_closed (v : nat * nat) : nat * nat := (fst v, S (snd v)).

(** [RepositoryAnalyzer._group_issues_by_month] *)
Fixpoint group_loop (issues : list issue) (d : list (string * (nat * nat)))
  : list (string * (nat * nat)) :=
  match issues with
  | [] => d
  | i :: rest =>
      let d1 := bump (month_of (created_at i)) add_opened d in
      let d2 :=
        match closed_at i with
        | Some closed => bump (month_of closed) add_closed d1
        | None => d1
        end in
      group_loop rest d2
  end.

Definition _group_issues_by_month (issues : list issue)
  : list (string * (nat * nat)) :=
  group_loop issues [].

(** Whether an issue was opened, closed, in the month [m]. *)
Definition opened_in (m : string) (i : issue) : bool :=
  String.eqb (month_of (created_at i)) m.

Definition closed_in (m : string) (i : issue) : bool :=
  match closed_at i with
  | Some closed => String.eqb (month_of closed) m
  | None => false
  end.

Definition ever_closed (i : issue) : bool :=
  match closed_at i with
  | Some _ => true
  | None => false
  end.

(** The opened counts, the closed counts, added over all months. *)
Definition opened_total (d : list (string * (nat * nat))) : nat :=
  list_sum (map (fun e => fst (snd e)) d).

Definition closed_total (d : list (string * (nat * nat))) : nat :=
  list_sum (map (fun e => snd (snd e)) d).

(** [monthly_counts.get(key)], an absent month counting as no issue. *)
Fixpoint month_entry (key : string) (d : list (string * (nat * nat)))
  : nat * nat :=
  match d with
  | [] => (0, 0)
  | (k, v) :: rest => if String.eqb k key then v else month_entry key rest
  end.
End Months.

End Activity.

(* ===================================================================== *)
(** ** The order of the health signals *)
(* ===================================================================== *)

Module HealthOrder.
Import RepositoryAnalyzer.

(** [x <= y] on Python floats, [float('inf')] being the largest. *)
Definition pyfloat_le (x y : pyfloat) : Prop :=
  match x, y with
  | Finite a, Finite b => (a <= b)%Q
  | _, Infinity => True
  | Infinity, Finite _ => False
  end.

End HealthOrder.

(* ===================================================================== *)
(** ** config_github_app.py and github_auth.py: which credentials are used *)
(* ===================================================================== *)

Module Auth.

(** The settings [Config] reads; [private_key_exists] is
    [os.path.exists(GITHUB_APP_PRIVATE_KEY_PATH)]. *)
Record config : Type := {
  GITHUB_APP_ID : option string;
  private_key_exists : bool;
  GITHUB_APP_INSTALLATION_ID : option string;
  GITHUB_TOKEN : option string
}.

(** The truth value of a setting: unset and empty are false. *)
Definition is_set (v : option string) : bool :=
  match v with
  | Some (String _ _) => true
  | _ => false
  end.

Inductive auth_method : Type :=
| github_app
| personal_token.

(** [Config.is_github_app_configured] *)
Definition is_github_app_configured (c : config) : bool :=
  is_set (GITHUB_APP_ID c) && private_key_exists c
  && is_set (GITHUB_APP_INSTALLATION_ID c).

(** [Config.get_auth_method]; [None] as in the source. *)
Definition get_auth_method (c : config) : option auth_method :=
  if is_github_app_configured c then Some github_app
  else if is_set (GITHUB_TOKEN c) then Some personal_token
  else None.

Section Client.
(** An authenticated client. *)
Variable client : Type.
(** [_get_app_client()] and [_get_token_client()]: the client, unless the
    key file, the token exchange or the library raises; both re-raise. *)
Variable app_login : outcome client.
Variable token_login : outcome client.

Inductive login_call : Type :=
| call_app_login
| call_token_login.

(** [GitHubAuthManager.get_github_client], on the method fixed by
    [__init__] and the cached [_github_client]: the cache afterwards, the
    result, and the logins attempted. *)
Definition get_github_client (method : option auth_method)
           (cached : option client)
  : option client * outcome client * list login_call :=
  match cached with
  | Some c => (cached, Returns c, [])
  | None =>
      match method with
      | Some github_app =>
          match app_login with
          | Returns c => (Some c, Returns c, [call_app_login])
          | Raises => (None, Raises, [call_app_login])
          end
      | Some personal_token =>
          match token_login with
          | Returns c => (Some c, Returns c, [call_token_login])
          | Raises => (None, Raises, [call_token_login])
          end
      | None => (None, Raises, [])
      end
  end.
End Client.

End Auth.

(* ===================================================================== *)
(** ** PyGithub.py: standard labels and issue templates *)
(* ===================================================================== *)

Module RepoSetup.

(** What a call to the host does: return, raise [GithubException], or
    raise something else. *)
Inductive host_result (A : Type) : Type :=
| Ok (value : A)
| GithubError
| OtherError.

Arguments Ok {A} value.
Arguments GithubError {A}.
Arguments OtherError {A}.

(** [GitHubUtils.get_repository_safely]: [None] for a [GithubException],
    which is the only exception it catches. *)
Definition get_repository_safely {repo : Type} (lookup : host_result repo)
  : outcome (option repo) :=
  match lookup with
  | Ok r => Returns (Some r)
  | GithubError => Returns None
  | OtherError => Raises
  end.

(** The names of [standard_labels], in order. *)
Definition standard_labels : list string :=
  [ "bug"; "enhancement"; "documentation"; "question"; "good first issue";
    "help wanted"; "priority:high"; "priority:medium"; "priority:low";
    "size:small"; "size:medium"; "size:large" ].

(** The loop of [setup_repository_labels]: the labels whose creation was
    attempted, and whether the loop ran to its end. *)
Fixpoint create_missing (existing_labels : list string)
         (create_label : string -> host_result unit) (labels : list string)
  : list string * outcome unit :=
  match labels with
  | [] => ([], Returns tt)
  | name :: rest =>
      if existsb (String.eqb name) existing_labels
      then create_missing existing_labels create_label rest
      else
        match create_label name with
        | OtherError => ([name], Raises)
        | _ =>
            let '(attempted, result) :=
              create_missing existing_labels create_label rest in
            (name :: attempted, result)
        end
  end.

(** [GitHubUtils.setup_repository_labels]: its result and the labels whose
    creation it attempted. *)
Definition setup_repository_labels (lookup : host_result unit)
           (get_labels : host_result (list string))
           (create_label : string -> host_result unit)
  : bool * list string :=
  match get_repository_safely lookup with
  | Returns (Some _) =>
      match get_labels with
      | Ok existing_labels =>
          match create_missing existing_labels create_label standard_labels
          with
          | (attempted, Returns _) => (true, attempted)
          | (attempted, Raises) => (false, attempted)
          end
      | _ => (false, [])
      end
  | _ => (false, [])
  end.

(** The file names of [templates], by template type. *)
Definition templates : list (string * string) :=
  [ ("bug_report", "bug_report.md");
    ("feature_request", "feature_request.md") ].

Inductive file_call : Type :=
| get_contents (path : string)
| create_file (path : string).

(** [GitHubUtils.create_issue_template]: its result and the file calls it
    made. *)
Definition create_issue_template (lookup : host_result unit)
           (template_type : string)
           (contents : string -> host_result unit)
           (create : string -> host_result unit)
  : bool * list file_call :=
  match get_repository_safely lookup with
  | Returns (Some _) =>
      match Labeling.dict_get template_type templates EmptyString with
      | EmptyString => (false, [])
      | filename =>
          let path := (".github/ISSUE_TEMPLATE/" ++ filename)%string in
          match contents path with
          | Ok _ => (true, [get_contents path])
          | GithubError =>
              match create path with
              | Ok _ => (true, [get_contents path; create_file path])
              | _ => (false, [get_contents path; create_file path])
              end
          | OtherError => (false, [get_contents path])
          end
      end
  | _ => (false, [])
  end.

End RepoSetup.

(* ===================================================================== *)
(** ** dashboard.py and dashboard_components.py: what is displayed *)
(* ===================================================================== *)

Module Dashboard.
Import RepositoryAnalyzer.

(** The status word of [display_health_score]. *)
Definition display_status (score : Q) : string :=
  if Qle_bool 90 score then "Excellent"
  else if Qle_bool 75 score then "Good"
  else if Qle_bool 60 score then "Fair"
  else "Poor".

(** [c.upper()] on an ASCII character. *)
Definition upper_char (c : ascii) : ascii :=
  let n := nat_of_ascii c in
  if (97 <=? n) && (n <=? 122) then ascii_of_nat (n - 32) else c.

(** [s.capitalize()] for a string that begins with an ASCII character,
    as the status words do. *)
Definition capitalize (s : string) : string :=
  match s with
  | EmptyString => EmptyString
  | String c rest => String (upper_char c) (PyStr.lower rest)
  end.

(** The [metrics] of [create_repository_health_radar], in order, from the
    sub-reports of the report and the number of contributors in it. *)
Definition radar_metrics (activity : option commit_activity)
           (issues : option issue_stats) (prs : option pr_stats)
           (contributors : nat) : list (string * Q) :=
  [ ("Activity",
     Qmin 100 (inject_Z (Z.of_nat (sig_commits activity * 5))));
    ("Issue Management", sig_close_rate issues);
    ("PR Management", sig_merge_rate prs);
    ("Documentation", 70%Q);
    ("Community", Qmin 100 (inject_Z (Z.of_nat (contributors * 10))));
    ("Code Quality", 80%Q) ].

End Dashboard.

(* ===================================================================== *)
(** ** analytics.py: contributor activity *)
(* ===================================================================== *)

Module Contributors.
Import Activity.

(** One value of [contributor_stats]. *)
Record tally : Type := {
  commits_made : nat;
  issues_opened : nat;
  issues_commented : nat;
  prs_opened : nat;
  prs_reviewed : nat;
  lines_added : Z;
  lines_deleted : Z
}.

(** The value the [defaultdict] makes for a new name. *)
Definition empty_tally : tally :=
  {| commits_made := 0; issues_opened := 0; issues_commented := 0;
     prs_opened := 0; prs_reviewed := 0;
     lines_added := 0; lines_deleted := 0 |}.

(** [contributor_stats[name][field] += ...]: the entry of [name] is made
    if it is not there, and changed in place. *)
Fixpoint update (name : string) (f : tally -> tally)
         (stats : list (string * tally)) : list (string * tally) :=
  match stats with
  | [] => [(name, f empty_tally)]
  | (k, t) :: rest =>
      if String.eqb k name then (k, f t) :: rest
      else (k, t) :: update name f rest
  end.

(** The entry of [name] in the report, the fresh value if there is
    none. *)
Fixpoint tally_of (name : string) (stats : list (string * tally)) : tally :=
  match stats with
  | [] => empty_tally
  | (k, t) :: rest => if String.eqb k name then t else tally_of name rest
  end.

Definition count_commit (t : tally) : tally :=
  {| commits_made := S (commits_made t); issues_opened := issues_opened t;
     issues_commented := issues_commented t; prs_opened := prs_opened t;
     prs_reviewed := prs_reviewed t;
     lines_added := lines_added t; lines_deleted := lines_deleted t |}.

Definition count_lines (added deleted : Z) (t : tally) : tally :=
  {| commits_made := commits_made t; issues_opened := issues_opened t;
     issues_commented := issues_commented t; prs_opened := prs_opened t;
     prs_reviewed := prs_reviewed t;
     lines_added := lines_added t + added;
     lines_deleted := lines_deleted t + deleted |}.

Definition count_issue (t : tally) : tally :=
  {| commits_made := commits_made t; issues_opened := S (issues_opened t);
     issues_commented := issues_commented t; prs_opened := prs_opened t;
     prs_reviewed := prs_reviewed t;
     lines_added := lines_added t; lines_deleted := lines_deleted t |}.

Definition count_comment (t : tally) : tally :=
  {| commits_made := commits_made t; issues_opened := issues_opened t;
     issues_commented := S (issues_commented t); prs_opened := prs_opened t;
     prs_reviewed := prs_reviewed t;
     lines_added := lines_added t; lines_deleted := lines_deleted t |}.

Definition count_pr (t : tally) : tally :=
  {| commits_made := commits_made t; issues_opened := issues_opened t;
     issues_commented := issues_commented t; prs_opened := S (prs_opened t);
     prs_reviewed := prs_reviewed t;
     lines_added := lines_added t; lines_deleted := lines_deleted t |}.

Definition count_review (t : tally) : tally :=
  {| commits_made := commits_made t; issues_opened := issues_opened t;
     issues_commented := issues_commented t; prs_opened := prs_opened t;
     prs_reviewed := S (prs_reviewed t);
     lines_added := lines_added t; lines_deleted := lines_deleted t |}.

(** A commit as [get_contributor_activity] reads it: the author name and
    [commit.stats], whose fetch may raise and which may be missing. *)
Record authored_commit : Type := {
  commit_author : string;
  commit_stats : outcome (option (Z * Z))
}.

(** An issue or a pull request: its [user] and the users of its comments
    or reviews, whose fetch may raise. *)
Record discussion : Type := {
  user : option string;
  replies : outcome (list (option string))
}.

(** [x.user.login if x.user else 'Unknown'] *)
Definition login (u : option string) : string :=
  match u with
  | Some name => name
  | None => "Unknown"
  end.

(** The loop over the commits. *)
Fixpoint tally_commits (commits : list authored_commit)
         (stats : list (string * tally)) : outcome (list (string * tally)) :=
  match commits with
  | [] => Returns stats
  | c :: rest =>
      let stats := update (commit_author c) count_commit stats in
      s <- commit_stats c ;;
      match s with
      | Some (added, deleted) =>
          tally_commits rest
            (update (commit_author c) (count_lines added deleted) stats)
      | None => tally_commits rest stats
      end
  end.

(** The inner loops: one count per comment or review. *)
Definition tally_replies (count : tally -> tally)
           (users : list (option string)) (stats : list (string * tally))
  : list (string * tally) :=
  fold_left (fun stats u => update (login u) count stats) users stats.

(** The loops over the issues and over the pull requests: [opened] counts
    the author, [replied] every comment or review. *)
Fixpoint tally_discussions (opened replied : tally -> tally)
         (items : list discussion) (stats : list (string * tally))
  : outcome (list (string * tally)) :=
  match items with
  | [] => Returns stats
  | d :: rest =>
      let stats := update (login (user d)) opened stats in
      users <- replies d ;;
      tally_discussions opened replied rest
                        (tally_replies replied users stats)
  end.

(** The [try] body of [get_contributor_activity] after the three lists are
    read. *)
Definition contributor_activity_of (commits : list authored_commit)
           (issues pulls : list discussion)
  : outcome (list (string * tally)) :=
  stats <- tally_commits commits [] ;;
  stats <- tally_discussions count_issue count_comment issues stats ;;
  tally_discussions count_pr count_review pulls stats.

(** [get_contributor_activity]: the empty dict when anything raised. *)
Definition get_contributor_activity
           (commits_fetch : outcome (list authored_commit))
           (issues_fetch pulls_fetch : outcome (list discussion))
  : list (string * tally) :=
  try_except
    (commits <- commits_fetch ;;
     issues <- issues_fetch ;;
     pulls <- pulls_fetch ;;
     contributor_activity_of commits issues pulls)
    [].

(** The users of all comments or reviews that could be read. *)
Definition repliers (items : list discussion) : list string :=
  flat_map (fun d =>
              match replies d with
              | Returns users => map login users
              | Raises => []
              end)
           items.

(** The lines of the commits of [name] that carry statistics: added and
    deleted. *)
Fixpoint lines_of (name : string) (commits : list authored_commit)
  : Z * Z :=
  match commits with
  | [] => (0, 0)%Z
  | c :: rest =>
      let '(a, d) := lines_of name rest in
      match commit_stats c with
      | Returns (Some (added, deleted)) =>
          if String.eqb (commit_author c) name
          then (added + a, deleted + d)%Z
          else (a, d)
      | _ => (a, d)
      end
  end.

(** Every fetch inside the loops returned. *)
Definition all_read (commits : list authored_commit)
           (issues pulls : list discussion) : bool :=
  forallb (fun c => match commit_stats c with
                    | Returns _ => true
                    | Raises => false
                    end) commits
  && forallb (fun d => match replies d with
                       | Returns _ => true
                       | Raises => false
                       end) (issues ++ pulls).

End Contributors.

(* ===================================================================== *)
(** ** Sample deliveries, hosts and settings *)
(* ===================================================================== *)

Module Scenarios.
Import Labeling Pipeline Activity Auth RepoSetup.

(** An [issues] delivery for a newly opened issue without a body. *)
Definition opened_issue_payload : json :=
  JObj [ ("action", JStr "opened");
         ("issue", JObj [ ("number", JNum 7);
                          ("title", JStr "Crash on login");
                          ("body", JNull) ]);
         ("repository", JObj [("full_name", JStr "octo/demo")]) ].

(** A [pull_request] delivery for an edited pull request. *)
Definition edited_pr_payload : json :=
  JObj [ ("action", JStr "edited");
         ("pull_request", JObj [ ("number", JNum 12);
                                 ("title", JStr "Fix the login crash");
                                 ("body", JStr "Closes #7") ]);
         ("repository", JObj [("full_name", JStr "octo/demo")]) ].

(** A host that finds every repository, issue and pull request. *)
Definition finding_host : bot_host :=
  {| repo_found := fun _ => true;
     issue_found := fun _ _ => true;
     pull_found := fun _ _ => true |}.

(** A repository that has the label "bug" and no other. *)
Definition bug_only_host : label_host :=
  {| get_label_ok := String.eqb "bug"; set_labels_ok := true |}.

(** A stand-in for the keyed digest. *)
Definition sample_digest (key msg : string) : string := (key ++ msg)%string.

(** The delivery of [opened_issue_payload], signed for the secret "abc". *)
Definition signed_delivery : App.request json :=
  {| App.data := "{}";
     App.x_hub_signature_256 := Some "sha256=abc{}";
     App.x_github_event := Some "issues";
     App.get_json := App.JsonPayload json opened_issue_payload |}.

(** Three commits of two authors on two days; the message of the first
    has a second line. *)
Definition sample_commits : list commit :=
  [ {| sha := "0123456789abcdef";
       message := ("Fix login" ++ Labeling.newline ++ "Details")%string;
       author := "ada"; day := "2024-05-01" |};
    {| sha := "89abcdef01234567"; message := "Add tests";
       author := "bob"; day := "2024-05-01" |};
    {| sha := "fedcba9876543210"; message := "Update docs";
       author := "ada"; day := "2024-05-02" |} ].

(** No setting at all, and a token as the only setting. *)
Definition no_settings : config :=
  {| GITHUB_APP_ID := None; private_key_exists := false;
     GITHUB_APP_INSTALLATION_ID := None; GITHUB_TOKEN := None |}.

Definition token_only : config :=
  {| GITHUB_APP_ID := None; private_key_exists := false;
     GITHUB_APP_INSTALLATION_ID := None; GITHUB_TOKEN := Some "ghp_x" |}.

(** A host on which every creation is refused with a [GithubException]. *)
Definition refusing (name : string) : host_result unit := GithubError.

(** A repository without any file, on which creations succeed. *)
Definition no_file (path : string) : host_result unit := GithubError.

Definition accepting (path : string) : host_result unit := Ok tt.

(** Two commits of one author, the second without statistics; an issue
    answered by that author and by a deleted user; a pull request without
    user, reviewed by the author of the issue. *)
Definition sample_authored : list Contributors.authored_commit :=
  [ {| Contributors.commit_author := "ada";
       Contributors.commit_stats := Returns (Some (10, 2)%Z) |};
    {| Contributors.commit_author := "ada";
       Contributors.commit_stats := Returns None |} ].

Definition sample_issues : list Contributors.discussion :=
  [ {| Contributors.user := Some "bob";
       Contributors.replies := Returns [Some "ada"; None] |} ].

Definition sample_pulls : list Contributors.discussion :=
  [ {| Contributors.user := None;
       Contributors.replies := Returns [Some "bob"] |} ].

(** A pull request whose reviews the host fails to deliver. *)
Definition unread_pull : Contributors.discussion :=
  {| Contributors.user := Some "bob"; Contributors.replies := Raises |}.

(** Ten labels that two issues carry each, and one priority label on a
    third issue. *)
Definition crowded_labels : list (list string) :=
  [ ["a"; "b"; "c"; "d"; "e"; "f"; "g"; "h"; "i"; "j"];
    ["priority:high"];
    ["a"; "b"; "c"; "d"; "e"; "f"; "g"; "h"; "i"; "j"] ].

End Scenarios.

(* ===================================================================== *)
(** * Properties *)
(* ===================================================================== *)

(** ** Strings *)

Section StringFacts.
Import PyStr.

Lemma starts_with_iff p s :
  starts_with p s = true <-> exists rest, s = (p ++ rest)%string.
Proof.
  revert s. induction p as [|a p IH]; intros s; simpl.
  - split; [intros _; now exists s | reflexivity].
  - destruct s as [|b s].
    + split; [discriminate | intros [r Hr]; discriminate].
    + rewrite andb_true_iff, Ascii.eqb_eq, IH. split.
      * intros [-> [r ->]]. now exists r.
      * intros [r Hr]. injection Hr as -> ->.
        split; [reflexivity | now exists r].
Qed.

Lemma contains_iff kw text :
  contains kw text = true <-> substring_of kw text.
Proof.
  unfold substring_of. induction text as [|c t IH].
  - simpl. rewrite orb_false_r, starts_with_iff. split.
    + intros [r Hr]. now exists EmptyString, r.
    + intros [[|a pre] [post H]]; [now exists post | discriminate].
  - cbn [contains]. rewrite orb_true_iff, starts_with_iff, IH. split.
    + intros [[r Hr] | [pre [post H]]].
      * exists EmptyString, r. exact Hr.
      * exists (String c pre), post. simpl. now rewrite H.
    + intros [[|a pre] [post H]].
      * left. now exists post.
      * right. simpl in H. injection H as _ H. now exists pre, post.
Qed.

Lemma lower_app a b : lower (a ++ b) = (lower a ++ lower b)%string.
Proof. induction a as [|c a IH]; simpl; [reflexivity | now rewrite IH]. Qed.

Lemma lower_split t : forall a' b',
  lower t = (a' ++ b')%string ->
  exists a b, t = (a ++ b)%string /\ lower a = a' /\ lower b = b'.
Proof.
  induction t as [|c t IH]; intros a' b' H.
  - destruct a'; [|discriminate]. simpl in H. subst b'.
    now exists EmptyString, EmptyString.
  - destruct a' as [|x a'].
    + simpl in H. subst b'. now exists EmptyString, (String c t).
    + simpl in H. injection H as Hx Ht.
      destruct (IH _ _ Ht) as (a & b & -> & Ha & Hb).
      exists (String c a), b. simpl. now rewrite Hx, Ha, Hb.
Qed.

(** Looking for [kw] in the lower-cased text is looking for it in the
    text itself with letter case ignored. *)
Lemma contains_lower_iff kw text :
  contains kw (lower text) = true <-> occurs_ignoring_case kw text.
Proof.
  rewrite contains_iff. unfold substring_of, occurs_ignoring_case. split.
  - intros (pre' & post' & H).
    destruct (lower_split _ _ _ H) as (pre & rest & -> & Hpre & Hrest).
    destruct (lower_split _ _ _ Hrest) as (mid & post & -> & Hmid & Hpost).
    now exists pre, mid, post.
  - intros (pre & mid & post & -> & Hmid).
    exists (lower pre), (lower post). now rewrite !lower_app, Hmid.
Qed.
End StringFacts.

(** ** Type classification and priority *)

Section ClassifierFacts.
Import PyStr IssueClassifier.

Lemma keyword_score_filter text kws :
  keyword_score text kws
  = List.length (filter (fun kw => contains kw text) kws).
Proof.
  induction kws as [|kw kws IH]; simpl; [reflexivity|].
  rewrite IH. now destruct (contains kw text).
Qed.

Lemma keyword_score_zero text kws :
  keyword_score text kws = 0 <->
  forall kw, In kw kws -> contains kw text = false.
Proof.
  induction kws as [|kw kws IH]; simpl.
  - split; [intros _ ? [] | reflexivity].
  - destruct (contains kw text) eqn:E; simpl.
    + split; [discriminate|]. intros H. specialize (H kw (or_introl eq_refl)).
      congruence.
    + rewrite IH. split.
      * intros H k [<-|Hk]; auto.
      * intros H k Hk. apply H. now right.
Qed.

(** [max] returns the first entry whose value is not exceeded. *)
Lemma py_max_by_value_first rest : forall best,
  exists pre e post,
    best :: rest = pre ++ e :: post
    /\ py_max_by_value best rest = fst e
    /\ Forall (fun x => snd x < snd e) pre
    /\ Forall (fun x => snd x <= snd e) post.
Proof.
  induction rest as [|cand rest IH]; intros best; simpl.
  - exists [], best, []. repeat split; constructor.
  - destruct (Nat.ltb_spec (snd best) (snd cand)) as [Hlt|Hge].
    + destruct (IH cand) as (pre & e & post & Hd & Hr & Hpre & Hpost).
      exists (best :: pre), e, post. rewrite Hr. repeat split; auto.
      * simpl. now rewrite Hd.
      * constructor; [|exact Hpre].
        destruct pre as [|x pre]; simpl in Hd; injection Hd as <- _.
        -- exact Hlt.
        -- inversion Hpre; subst. lia.
    + destruct (IH best) as (pre & e & post & Hd & Hr & Hpre & Hpost).
      rewrite Hr. destruct pre as [|x pre]; simpl in Hd; injection Hd as <- Hd.
      * exists [], best, (cand :: post). subst rest.
        repeat split; auto.
      * exists (best :: cand :: pre), e, post. subst rest.
        inversion Hpre; subst. repeat split; auto.
        constructor; [assumption|]. constructor; [lia | assumption].
Qed.

Lemma build_scores_nil text labels :
  build_scores text labels = [] <->
  Forall (fun e => keyword_score text (snd e) = 0) labels.
Proof.
  induction labels as [|[l kws] labels IH]; simpl.
  - split; constructor.
  - destruct (Nat.ltb_spec 0 (keyword_score text kws)) as [H|H].
    + split; [discriminate|]. intros F. inversion F; subst. simpl in *. lia.
    + rewrite IH. split.
      * intros F. constructor; [simpl; lia | exact F].
      * intros F. now inversion F.
Qed.

(** A position in [scores] comes from a position in the taxonomy. *)
Lemma build_scores_split text labels : forall pre' c n post',
  build_scores text labels = pre' ++ (c, n) :: post' ->
  exists pre kws post,
    labels = pre ++ (c, kws) :: post
    /\ n = keyword_score text kws /\ 0 < n
    /\ build_scores text pre = pre'
    /\ build_scores text post = post'.
Proof.
  induction labels as [|[l kws] labels IH]; intros pre' c n post' H.
  - destruct pre'; discriminate.
  - simpl in H.
    destruct (Nat.ltb_spec 0 (keyword_score text kws)) as [Hpos|Hz].
    + destruct pre' as [|x pre'].
      * simpl in H. injection H as <- <- H.
        exists [], kws, labels. simpl. repeat split; auto.
      * simpl in H. injection H as <- H.
        destruct (IH _ _ _ _ H) as (pre & k & post & -> & Hn & Hp & H1 & H2).
        exists ((l, kws) :: pre), k, post. simpl.
        apply Nat.ltb_lt in Hpos. rewrite Hpos, H1. repeat split; auto.
    + destruct (IH _ _ _ _ H) as (pre & k & post & -> & Hn & Hp & H1 & H2).
      exists ((l, kws) :: pre), k, post. simpl.
      apply Nat.ltb_ge in Hz. rewrite Hz. repeat split; auto.
Qed.

Lemma build_scores_bound text (R : nat -> nat -> Prop) m labels :
  R 0 m ->
  Forall (fun x => R (snd x) m) (build_scores text labels) ->
  Forall (fun e => R (keyword_score text (snd e)) m) labels.
Proof.
  intros H0. induction labels as [|[l kws] labels IH]; simpl; intros F.
  - constructor.
  - destruct (Nat.ltb_spec 0 (keyword_score text kws)) as [Hpos|Hz].
    + inversion F; subst. constructor; auto.
    + constructor; [|auto]. simpl.
      replace (keyword_score text kws) with 0 by lia. exact H0.
Qed.

(** The classifier over any ordered taxonomy. *)
Lemma classify_with_spec labels title body :
  let score := fun e : string * list string =>
                 keyword_score (combined_text title body) (snd e) in
  (Forall (fun e => score e = 0) labels ->
   classify_with labels title body = "general")
  /\ (Exists (fun e => score e <> 0) labels ->
      exists pre e post,
        labels = pre ++ e :: post
        /\ classify_with labels title body = fst e
        /\ 0 < score e
        /\ Forall (fun x => score x < score e) pre
        /\ Forall (fun x => score x <= score e) post).
Proof.
  intros score. unfold classify_with. split.
  - intros F. apply build_scores_nil in F. now rewrite F.
  - intros E.
    destruct (build_scores (combined_text title body) labels)
      as [|first rest] eqn:Hb.
    + apply build_scores_nil in Hb. apply Exists_exists in E.
      destruct E as (e & He & Hne). rewrite Forall_forall in Hb.
      now specialize (Hb e He).
    + destruct (py_max_by_value_first rest first)
        as (pre' & [c n] & post' & Hd & Hr & Hpre & Hpost).
      rewrite Hd in Hb.
      destruct (build_scores_split _ _ _ _ _ _ Hb)
        as (pre & kws & post & -> & Hn & Hp & H1 & H2).
      exists pre, (c, kws), post. unfold score. simpl in *. subst n.
      repeat split; auto.
      * apply (build_scores_bound _ lt); [exact Hp | now rewrite H1].
      * apply (build_scores_bound _ le); [lia | now rewrite H2].
Qed.
End ClassifierFacts.

(** ** Lower-casing and case-insensitive comparison *)

Section CaseFacts.
Import PyStr IssueClassifier.

Lemma nat_of_ascii_eqb a b :
  Ascii.eqb a b = (nat_of_ascii a =? nat_of_ascii b).
Proof.
  destruct (Ascii.eqb_spec a b) as [->|Hne].
  - now rewrite Nat.eqb_refl.
  - symmetry. apply Nat.eqb_neq. intros H. apply Hne.
    rewrite <- (ascii_nat_embedding a), <- (ascii_nat_embedding b).
    now rewrite H.
Qed.

Lemma nat_of_lower_char c :
  nat_of_ascii (lower_char c)
  = let n := nat_of_ascii c in
    if ((65 <=? n) && (n <=? 90))
       || ((192 <=? n) && (n <=? 214))
       || ((216 <=? n) && (n <=? 222))
    then n + 32 else n.
Proof.
  unfold lower_char. cbv zeta.
  destruct (((65 <=? nat_of_ascii c) && (nat_of_ascii c <=? 90))
            || ((192 <=? nat_of_ascii c) && (nat_of_ascii c <=? 214))
            || ((216 <=? nat_of_ascii c) && (nat_of_ascii c <=? 222)))
    eqn:E; [|reflexivity].
  apply nat_ascii_embedding.
  repeat rewrite orb_true_iff in E. repeat rewrite andb_true_iff in E.
  repeat rewrite Nat.leb_le in E. lia.
Qed.

Ltac tests_to_props :=
  repeat first
    [ rewrite orb_true_iff | rewrite andb_true_iff | rewrite negb_true_iff
    | rewrite orb_false_iff | rewrite andb_false_iff
    | rewrite Nat.eqb_eq | rewrite Nat.leb_le | rewrite Nat.ltb_lt
    | rewrite Nat.leb_gt | rewrite Nat.ltb_ge | rewrite Nat.eqb_neq ].

(** Against a keyword character that is no capital, comparing after
    lower-casing is comparing with letter case ignored. *)
Lemma lower_char_same_letter k t :
  Wording.plain_char k = true ->
  Ascii.eqb k (lower_char t) = Wording.same_letter k t.
Proof.
  unfold Wording.plain_char, Wording.same_letter. cbv zeta.
  rewrite nat_of_ascii_eqb, nat_of_lower_char. cbv zeta.
  pose proof (nat_ascii_bounded t) as Ht.
  remember (nat_of_ascii k) as m. remember (nat_of_ascii t) as n.
  clear Heqm Heqn. intros Hk. apply eq_true_iff_eq.
  destruct (((65 <=? n) && (n <=? 90)) || ((192 <=? n) && (n <=? 214))
            || ((216 <=? n) && (n <=? 222))) eqn:E;
    revert Hk E; tests_to_props; lia.
Qed.

Lemma starts_with_lower kw : forall text,
  Wording.plain kw = true ->
  starts_with kw (lower text) = Wording.stands_at_front kw text.
Proof.
  induction kw as [|k kw IH]; intros text Hp; [reflexivity|].
  cbn [Wording.plain] in Hp. apply andb_true_iff in Hp. destruct Hp as [Hk Hp].
  destruct text as [|t text]; [reflexivity|].
  cbn [lower starts_with Wording.stands_at_front].
  now rewrite (lower_char_same_letter k t Hk), (IH text Hp).
Qed.

Lemma contains_lower kw text :
  Wording.plain kw = true ->
  contains kw (lower text) = Wording.occurs kw text.
Proof.
  intros Hp. induction text as [|t text IH].
  - pose proof (starts_with_lower kw EmptyString Hp) as H0.
    cbn [lower] in H0. cbn [lower contains Wording.occurs].
    now rewrite H0.
  - pose proof (starts_with_lower kw (String t text) Hp) as H0.
    cbn [lower] in H0. cbn [lower contains Wording.occurs].
    now rewrite H0, IH.
Qed.

Lemma keyword_score_presence text kws :
  forallb Wording.plain kws = true ->
  keyword_score (lower text) kws = Wording.presence_score text kws.
Proof.
  unfold Wording.presence_score.
  induction kws as [|kw kws IH]; intros Hp; [reflexivity|].
  cbn [forallb] in Hp. apply andb_true_iff in Hp. destruct Hp as [Hk Hp].
  cbn [keyword_score filter]. rewrite (contains_lower kw text Hk), (IH Hp).
  now destruct (Wording.occurs kw text).
Qed.

Lemma taxonomy_is_plain c kws :
  In (c, kws) Config.ISSUE_LABELS -> forallb Wording.plain kws = true.
Proof.
  assert (H : forallb (fun e => forallb Wording.plain (snd e))
                      Config.ISSUE_LABELS = true) by reflexivity.
  rewrite forallb_forall in H. intros Hin. exact (H (c, kws) Hin).
Qed.

(** The running maximum of [max(scores, key=scores.get)] over the positive
    scores is the best category so far. *)
Lemma best_category_running text labels : forall best best_score,
  0 < best_score ->
  Wording.best_category (keyword_score text) labels best best_score
  = py_max_by_value (best, best_score) (build_scores text labels).
Proof.
  induction labels as [|[c kws] labels IH]; intros best bs Hpos;
    cbn [Wording.best_category build_scores]; [reflexivity|].
  destruct (Nat.ltb_spec 0 (keyword_score text kws)) as [Hs|Hs].
  - cbn [py_max_by_value fst snd].
    destruct (Nat.ltb_spec bs (keyword_score text kws)); now apply IH.
  - destruct (Nat.ltb_spec bs (keyword_score text kws)); [lia|].
    now apply IH.
Qed.

Lemma classify_with_best_category labels title body :
  classify_with labels title body
  = Wording.classify_by (keyword_score (combined_text title body)) labels.
Proof.
  unfold classify_with, Wording.classify_by. cbv zeta.
  induction labels as [|[c kws] labels IH];
    cbn [Wording.best_category build_scores]; [reflexivity|].
  destruct (Nat.ltb_spec 0 (keyword_score (combined_text title body) kws))
    as [Hs|Hs].
  - symmetry. now apply best_category_running.
  - exact IH.
Qed.

Lemma best_category_ext score1 score2 labels : forall best best_score,
  (forall c kws, In (c, kws) labels -> score1 kws = score2 kws) ->
  Wording.best_category score1 labels best best_score
  = Wording.best_category score2 labels best best_score.
Proof.
  induction labels as [|[c kws] labels IH]; intros best bs H;
    cbn [Wording.best_category]; [reflexivity|].
  rewrite (H c kws (or_introl eq_refl)).
  destruct (bs <? score2 kws); apply IH; intros c' kws' Hin;
    apply (H c'); now right.
Qed.
End CaseFacts.

Section ClassifierClaims.
Import PyStr IssueClassifier.

Lemma first_priority_spec text table :
  let hit := fun kws : list string =>
               exists kw, In kw kws /\ substring_of kw text in
  (forall pre p kws post,
      table = pre ++ (p, kws) :: post ->
      hit kws ->
      (forall p' k', In (p', k') pre -> ~ hit k') ->
      first_priority text table = p)
  /\ ((forall p kws, In (p, kws) table -> ~ hit kws) ->
      first_priority text table = "medium").
Proof.
  intros hit.
  assert (Hany : forall kws, any_keyword text kws = true <-> hit kws).
  { intros kws. unfold any_keyword, hit. rewrite existsb_exists.
    split; intros (kw & Hin & H); exists kw; split; auto;
      now apply contains_iff. }
  induction table as [|[q ks] table [IH1 IH2]]; split.
  - intros [|? ?] ? ? ? H; discriminate.
  - reflexivity.
  - intros pre p kws post Hd Hhit Hpre. simpl.
    destruct pre as [|x pre]; simpl in Hd; inversion Hd; subst.
    + apply Hany in Hhit. now rewrite Hhit.
    + destruct (any_keyword text ks) eqn:E.
      * apply Hany in E. exfalso. apply (Hpre q ks); [now left | exact E].
      * apply (IH1 pre p kws post eq_refl Hhit).
        intros p' k' Hin. apply (Hpre p'). now right.
  - intros Hnone. simpl. destruct (any_keyword text ks) eqn:E.
    + apply Hany in E. exfalso. apply (Hnone q ks); [now left | exact E].
    + apply IH2. intros p kws Hin. apply (Hnone p). now right.
Qed.

(** C1. Type classification. The score of a category is the number of
    its keywords that occur in [title body] with letter case ignored, each
    keyword counted once however often it occurs; this is what the sum
    over the lower-cased text computes. [classify_issue_type] answers
    ["general"] when every score is 0, and otherwise the category whose
    score is positive, not exceeded by any category, and strictly above
    the score of every category declared before it; the declaration order
    is bug, feature, documentation, question, performance, security,
    maintenance, ci/cd. It is the classifier by that score. *)
Theorem classify_issue_type_first_highest (title body : string) :
  let raw := (title ++ " " ++ body)%string in
  let score := Wording.presence_score raw in
  map fst Config.ISSUE_LABELS
  = ["bug"; "feature"; "documentation"; "question"; "performance";
     "security"; "maintenance"; "ci/cd"]
  /\ (forall c kws,
         In (c, kws) Config.ISSUE_LABELS ->
         keyword_score (lower raw) kws = score kws)
  /\ ((forall c kws, In (c, kws) Config.ISSUE_LABELS -> score kws = 0) ->
      classify_issue_type title body = "general")
  /\ ((exists c kws, In (c, kws) Config.ISSUE_LABELS /\ score kws <> 0) ->
      exists pre c kws post,
        Config.ISSUE_LABELS = pre ++ (c, kws) :: post
        /\ classify_issue_type title body = c
        /\ 0 < score kws
        /\ (forall c' kws', In (c', kws') pre -> score kws' < score kws)
        /\ (forall c' kws', In (c', kws') post -> score kws' <= score kws))
  /\ classify_issue_type title body
     = Wording.classify_by score Config.ISSUE_LABELS.
Proof.
  intros raw score.
  assert (Hs : forall c kws,
             In (c, kws) Config.ISSUE_LABELS ->
             keyword_score (lower raw) kws = score kws).
  { intros c kws Hin. apply keyword_score_presence.
    exact (taxonomy_is_plain c kws Hin). }
  destruct (classify_with_spec Config.ISSUE_LABELS title body) as [Hgen Hmax].
  fold (classify_issue_type title body) in Hgen, Hmax.
  unfold combined_text in Hgen, Hmax. fold raw in Hgen, Hmax.
  split; [reflexivity|]. split; [exact Hs|]. split; [|split].
  - intros Hnone. apply Hgen. apply Forall_forall. intros [c kws] Hin.
    cbn [snd]. rewrite (Hs c kws Hin). exact (Hnone c kws Hin).
  - intros (c & kws & Hin & Hne).
    destruct Hmax as (pre & [c0 k0] & post & Hd & Hr & Hp & Hpre & Hpost).
    { apply Exists_exists. exists (c, kws). split; [exact Hin|].
      cbn [snd]. now rewrite (Hs c kws Hin). }
    assert (Hin0 : In (c0, k0) Config.ISSUE_LABELS)
      by (rewrite Hd; apply in_or_app; right; now left).
    cbn [fst snd] in Hr, Hp, Hpre, Hpost. rewrite (Hs c0 k0 Hin0) in *.
    exists pre, c0, k0, post.
    split; [exact Hd|]. split; [exact Hr|]. split; [exact Hp|]. split.
    + intros c' kws' Hin'. rewrite Forall_forall in Hpre.
      specialize (Hpre _ Hin'). cbn [snd] in Hpre.
      rewrite (Hs c' kws') in Hpre; [exact Hpre|].
      rewrite Hd. apply in_or_app. now left.
    + intros c' kws' Hin'. rewrite Forall_forall in Hpost.
      specialize (Hpost _ Hin'). cbn [snd] in Hpost.
      rewrite (Hs c' kws') in Hpost; [exact Hpost|].
      rewrite Hd. apply in_or_app. right. now right.
  - unfold classify_issue_type. rewrite classify_with_best_category.
    unfold Wording.classify_by, combined_text. fold raw.
    apply best_category_ext. exact Hs.
Qed.

(** C1 as worded fails. Counted by occurrences, three times "crash" would
    give bug 3 points against 2 for feature; the code counts "crash" once
    and answers "feature". No two of these occurrences overlap. *)
Lemma classify_counts_each_keyword_once :
  Wording.occurrence_score "crash crash crash, new feature"
    ["bug"; "error"; "crash"; "broken"; "not working"; "fail"] = 3
  /\ Wording.occurrence_score "crash crash crash, new feature"
       ["feature"; "enhancement"; "new"; "add"; "implement"] = 2
  /\ Wording.classify_by
       (Wording.occurrence_score
          ("crash crash" ++ " " ++ "crash, new feature"))
       Config.ISSUE_LABELS = "bug"
  /\ classify_issue_type "crash crash" "crash, new feature" = "feature"
  /\ classify_issue_type "crash crash" "crash, new feature"
     <> Wording.classify_by
          (Wording.occurrence_score
             ("crash crash" ++ " " ++ "crash, new feature"))
          Config.ISSUE_LABELS.
Proof.
  repeat split; try (vm_compute; reflexivity).
  vm_compute. discriminate.
Qed.

(** C5. Priority detection. The keyword lists are scanned in the order
    critical, high, medium, low; the first list with a keyword that is a
    substring of the lower-cased text gives the priority; with no such
    list the priority is ["medium"]; a text containing ["urgent"] gets
    ["critical"] whatever else it contains. *)
Theorem determine_priority_first_list (title body : string) :
  let text := lower (title ++ " " ++ body)%string in
  let hit := fun kws : list string =>
               exists kw, In kw kws /\ substring_of kw text in
  map fst Config.PRIORITY_KEYWORDS = ["critical"; "high"; "medium"; "low"]
  /\ (forall pre p kws post,
         Config.PRIORITY_KEYWORDS = pre ++ (p, kws) :: post ->
         hit kws ->
         (forall p' kws', In (p', kws') pre -> ~ hit kws') ->
         determine_priority title body = p)
  /\ ((forall p kws, In (p, kws) Config.PRIORITY_KEYWORDS -> ~ hit kws) ->
      determine_priority title body = "medium")
  /\ (substring_of "urgent" text ->
      determine_priority title body = "critical").
Proof.
  intros text hit.
  destruct (first_priority_spec text Config.PRIORITY_KEYWORDS) as [H1 H2].
  split; [reflexivity|]. split; [exact H1|]. split; [exact H2|].
  intros Hu.
  apply (H1 [] "critical" ["critical"; "urgent"; "emergency"; "blocking"]
            (tl Config.PRIORITY_KEYWORDS)).
  - reflexivity.
  - exists "urgent". split; [simpl; tauto | exact Hu].
  - intros ? ? [].
Qed.

(** The two sample classifications of the specification, and a text
    whose only matches repeat one keyword. *)
Example classify_bug :
  classify_issue_type "Bug: crash" "it crashes on click" = "bug".
Proof. vm_compute. reflexivity. Qed.

Example classify_feature :
  classify_issue_type "Add dark mode" "please add a dark mode feature"
  = "feature".
Proof. vm_compute. reflexivity. Qed.

Example classify_tie_first_declared :
  classify_issue_type "slow" "auth" = "performance".
Proof. vm_compute. reflexivity. Qed.

(** A keyword counts once however often it occurs: three times "crash"
    is one point for bug, against two for feature. *)
Example classify_repeated_keyword_counts_once :
  keyword_score (combined_text "crash crash" "crash, new feature")
                ["bug"; "error"; "crash"; "broken"; "not working"; "fail"] = 1
  /\ classify_issue_type "crash crash" "crash, new feature" = "feature".
Proof. split; vm_compute; reflexivity. Qed.

(** A witness of C5: upper-case URGENT next to two low-priority words. *)
Lemma determine_priority_urgent_witness :
  determine_priority "Minor, nice to have" "but URGENT" = "critical".
Proof.
  apply (determine_priority_first_list "Minor, nice to have" "but URGENT").
  exists "minor, nice to have but ", "". reflexivity.
Defined.
End ClassifierClaims.

(** ** Guarded divisions *)

Section DivisionFacts.
Import RepositoryAnalyzer.

Lemma py_div_by_count (a : Q) (n : nat) :
  py_div a (inject_Z (Z.of_nat (S n)))
  = Returns (a / inject_Z (Z.of_nat (S n)))%Q.
Proof. reflexivity. Qed.

Lemma mean_or_zero_total xs :
  mean_or_zero xs
  = Returns (match xs with [] => 0%Q | _ :: _ => arithmetic_mean xs end).
Proof.
  destruct xs as [|x xs]; [reflexivity|].
  unfold mean_or_zero, np_mean, arithmetic_mean.
  cbn [List.length]. apply py_div_by_count.
Qed.

Lemma rate_percent_total part whole :
  rate_percent part whole = Returns (percentage part whole).
Proof.
  destruct whole as [|n]; [reflexivity|].
  unfold rate_percent, percentage. now rewrite py_div_by_count.
Qed.
End DivisionFacts.

(** ** Pull-request size bands *)

Section SizeFacts.
Import SmartIssueBot RepositoryAnalyzer.

Lemma lookup0_increment key key' d :
  lookup0 key (increment key' d)
  = if String.eqb key' key then S (lookup0 key d) else lookup0 key d.
Proof.
  induction d as [|[k n] d IH]; simpl.
  - reflexivity.
  - destruct (String.eqb_spec k key') as [->|Hk]; simpl.
    + destruct (String.eqb_spec key' key); reflexivity.
    + rewrite IH. destruct (String.eqb_spec k key) as [->|Hk'].
      * destruct (String.eqb_spec key' key); [congruence | reflexivity].
      * reflexivity.
Qed.

Lemma pull_loop_sizes key pulls : forall d mt,
  lookup0 key (fst (pull_loop pulls d mt))
  = lookup0 key d
    + List.length (filter (fun pr => String.eqb (size_bucket pr) key) pulls).
Proof.
  induction pulls as [|pr pulls IH]; intros d mt; simpl.
  - lia.
  - destruct (merged_at pr); rewrite IH, lookup0_increment;
      destruct (String.eqb (size_bucket pr) key); simpl; lia.
Qed.

Lemma pull_loop_times pulls : forall d mt,
  snd (pull_loop pulls d mt) = mt ++ defined_values merge_pair pulls.
Proof.
  induction pulls as [|pr pulls IH]; intros d mt; simpl.
  - now rewrite app_nil_r.
  - unfold merge_pair at 1. destruct (merged_at pr); rewrite IH.
    + now rewrite <- app_assoc.
    + reflexivity.
Qed.

Lemma eqb_app_prefix (p a b : string) :
  String.eqb (p ++ a) (p ++ b) = String.eqb a b.
Proof.
  induction p as [|c p IH]; simpl; [reflexivity|].
  now rewrite Ascii.eqb_refl.
Qed.

Lemma size_label_of_bucket pr :
  _determine_pr_size pr = ("size:" ++ size_bucket pr)%string.
Proof.
  unfold _determine_pr_size, size_bucket.
  repeat match goal with |- context [if ?b then _ else _] => destruct b end;
    reflexivity.
Qed.

(** C6. Size bands of the labelling function, on [total = additions +
    deletions]: below 20 small, from 20 below 100 medium, from 100 below
    500 large, from 500 on xl. It holds for all integers, the non-negative
    ones among them. *)
Theorem determine_pr_size_bands (pr : pull_request) :
  let total := (additions pr + deletions pr)%Z in
  ((total < 20)%Z -> _determine_pr_size pr = "size:small")
  /\ ((20 <= total < 100)%Z -> _determine_pr_size pr = "size:medium")
  /\ ((100 <= total < 500)%Z -> _determine_pr_size pr = "size:large")
  /\ ((500 <= total)%Z -> _determine_pr_size pr = "size:xl").
Proof.
  intros total. unfold _determine_pr_size. fold total.
  destruct (Z.ltb_spec total 20), (Z.ltb_spec total 100),
    (Z.ltb_spec total 500); repeat split; intros; try reflexivity; lia.
Qed.

(** C7. The size category counted by the analytics report and the label
    of the labelling function agree on every pull request, and so the
    report counts under each category the pull requests that the
    labelling function labels with it. *)
Theorem analytics_bucket_is_label_band :
  (forall pr : pull_request,
      _determine_pr_size pr = ("size:" ++ size_bucket pr)%string)
  /\ (forall (pulls : list pull_request) (band : string),
         exists stats,
           pr_analytics_of pulls = Returns stats
           /\ lookup0 band (pr_size_distribution stats)
              = List.length
                  (filter (fun pr => String.eqb (_determine_pr_size pr)
                                       ("size:" ++ band)%string) pulls)).
Proof.
  split; [exact size_label_of_bucket|].
  intros pulls band. unfold pr_analytics_of.
  pose proof (pull_loop_sizes band pulls [] []) as Hs.
  destruct (pull_loop pulls [] []) as [sizes mt].
  rewrite rate_percent_total, mean_or_zero_total. cbn [bind].
  eexists. split; [reflexivity|].
  cbn [fst pr_size_distribution lookup0 Nat.add] in *.
  rewrite Hs. f_equal. apply filter_ext. intros pr.
  now rewrite size_label_of_bucket, eqb_app_prefix.
Qed.
End SizeFacts.

(** ** Averages *)

Section AverageFacts.
Import RepositoryAnalyzer.

Lemma issue_loop_lists issues : forall ct rt,
  (forall i, In i issues -> comments i <> Raises) ->
  issue_loop issues ct rt
  = Returns (ct ++ defined_values close_pair issues,
             rt ++ defined_values response_pair issues).
Proof.
  induction issues as [|i issues IH]; intros ct rt Hc; simpl.
  - now rewrite !app_nil_r.
  - assert (Hi : comments i <> Raises) by (apply Hc; now left).
    assert (Hrest : forall j, In j issues -> comments j <> Raises)
      by (intros j Hj; apply Hc; now right).
    unfold close_pair at 1, response_pair at 1.
    destruct (comments i) as [[|first_comment more]|]; [| |congruence];
      cbn [bind]; rewrite (IH _ _ Hrest);
      destruct (closed_at i); try destruct (issue_state i =? "closed")%string;
      now rewrite <- ?app_assoc.
Qed.

Lemma issue_loop_raises issues : forall ct rt,
  (exists i, In i issues /\ comments i = Raises) ->
  issue_loop issues ct rt = Raises.
Proof.
  induction issues as [|i issues IH]; intros ct rt (j & Hj & Hnone).
  - destruct Hj.
  - simpl. destruct Hj as [->|Hj].
    + now rewrite Hnone.
    + destruct (comments i) as [[|? ?]|]; try reflexivity;
        cbn [bind]; apply IH; now exists j.
Qed.

(** C9. The three averages are total and are arithmetic means over the
    records with a defined pair of timestamps: closed issues with a
    [closed_at] for the close time, issues with a first comment for the
    response time, pull requests with a [merged_at] for the merge time;
    when no record has the pair, the average is 0. The issue report
    exists whenever the host delivers the comments of every issue. *)
Theorem averages_over_defined_pairs :
  (forall issues : list issue,
      (forall i, In i issues -> comments i <> Raises) ->
      exists stats,
        issue_analytics_of issues = Returns stats
        /\ avg_close_time_hours stats = mean_of_defined close_pair issues
        /\ avg_response_time_hours stats
           = mean_of_defined response_pair issues
        /\ (defined_values close_pair issues = [] ->
            avg_close_time_hours stats = 0%Q)
        /\ (defined_values response_pair issues = [] ->
            avg_response_time_hours stats = 0%Q))
  /\ (forall pulls : list pull_request,
         exists stats,
           pr_analytics_of pulls = Returns stats
           /\ avg_merge_time_hours stats = mean_of_defined merge_pair pulls
           /\ (defined_values merge_pair pulls = [] ->
               avg_merge_time_hours stats = 0%Q))
  /\ (forall (A : Type) (pair : A -> option Q) (records : list A),
         mean_of_defined pair records
         = match defined_values pair records with
           | [] => 0%Q
           | v :: vs =>
               (Qsum (v :: vs)
                / inject_Z (Z.of_nat (List.length (v :: vs))))%Q
           end).
Proof.
  split; [|split].
  - intros issues Hc. unfold issue_analytics_of.
    rewrite (issue_loop_lists issues [] [] Hc). cbn [app bind].
    rewrite !mean_or_zero_total, rate_percent_total. cbn [bind].
    eexists. split; [reflexivity|].
    cbn [avg_close_time_hours avg_response_time_hours].
    unfold mean_of_defined.
    repeat split; try (intros ->; reflexivity);
      match goal with |- context [defined_values ?p issues] =>
        destruct (defined_values p issues); reflexivity end.
  - intros pulls. unfold pr_analytics_of.
    pose proof (pull_loop_times pulls [] []) as Ht.
    destruct (pull_loop pulls [] []) as [sizes mt]. cbn [snd app] in Ht.
    subst mt. rewrite rate_percent_total, mean_or_zero_total. cbn [bind].
    eexists. split; [reflexivity|].
    cbn [avg_merge_time_hours]. unfold mean_of_defined.
    split; [|intros ->; reflexivity].
    destruct (defined_values merge_pair pulls); reflexivity.
  - intros A pair records. unfold mean_of_defined.
    destruct (defined_values pair records); reflexivity.
Qed.
End AverageFacts.

(** ** Health score *)

(** Case analysis on every [Qmin] and [Qmax] in sight. *)
Ltac case_min a b :=
  let H := fresh "Hmin" in
  let m := fresh "m" in
  pose proof (Q.min_spec a b) as H; set (m := Qmin a b) in *; clearbody m;
  destruct H as [[? ?]|[? ?]].

Ltac case_max a b :=
  let H := fresh "Hmax" in
  let m := fresh "m" in
  pose proof (Q.max_spec a b) as H; set (m := Qmax a b) in *; clearbody m;
  destruct H as [[? ?]|[? ?]].

Ltac split_minmax :=
  repeat match goal with
    | |- context [Qmin ?a ?b] => case_min a b
    | |- context [Qmax ?a ?b] => case_max a b
    | _ : context [Qmin ?a ?b] |- _ => case_min a b
    | _ : context [Qmax ?a ?b] |- _ => case_max a b
    end.

Section HealthFacts.
Import RepositoryAnalyzer.
Local Open Scope Q_scope.

Lemma ladder_range (x : pyfloat) (fast slow : Q) :
  0 <= (if lt_bound x fast then 10 else if lt_bound x slow then 5 else 0)
  <= 10.
Proof. destruct (lt_bound x fast), (lt_bound x slow); lra. Qed.

Lemma basic_points_range basic : 0 <= basic_points basic <= 15.
Proof.
  unfold basic_points.
  repeat match goal with |- context [if ?b then _ else _] => destruct b end;
    lra.
Qed.

Lemma commit_points_range activity : 0 <= commit_points activity <= 15.
Proof.
  unfold commit_points.
  set (n := match activity with Some a => total_commits a | None => 0%nat end).
  destruct (0 <? n)%nat; [|lra].
  assert (H : (0 <= Z.of_nat (Nat.min 15 n) <= 15)%Z) by lia.
  destruct H as [H1 H2].
  rewrite Zle_Qle in H1, H2.
  change (inject_Z 0) with 0 in H1. change (inject_Z 15) with 15 in H2.
  remember (inject_Z (Z.of_nat (Nat.min 15 n))) as points. lra.
Qed.

Lemma issue_points_le stats : issue_points stats <= 25.
Proof.
  unfold issue_points.
  match goal with |- Qmin _ _ + ?l <= _ =>
    assert (Hl : 0 <= l <= 10) by apply ladder_range; remember l as ladder
  end.
  split_minmax; lra.
Qed.

Lemma pr_points_le stats : pr_points stats <= 20.
Proof.
  unfold pr_points.
  match goal with |- Qmin _ _ + ?l <= _ =>
    assert (Hl : 0 <= l <= 10) by apply ladder_range; remember l as ladder
  end.
  split_minmax; lra.
Qed.

(** The caps add up to 75. *)
Lemma raw_score_le_75 basic activity issues prs :
  raw_score basic activity issues prs <= 75.
Proof.
  unfold raw_score.
  pose proof (basic_points_range basic).
  pose proof (commit_points_range activity).
  pose proof (issue_points_le issues).
  pose proof (pr_points_le prs).
  lra.
Qed.

Lemma clamp_score_range score : 0 <= clamp_score score <= 100.
Proof. unfold clamp_score. split_minmax; lra. Qed.

Lemma clamp_score_below score :
  score <= 100 -> clamp_score score == Qmax 0 score.
Proof. intros H. unfold clamp_score. split_minmax; lra. Qed.

Lemma clamp_score_le score bound :
  0 <= bound -> score <= bound -> clamp_score score <= bound.
Proof. intros H0 H. unfold clamp_score. split_minmax; lra. Qed.

Lemma clamp_swap score : clamp_score score == Qmax 0 (Qmin 100 score).
Proof. unfold clamp_score. split_minmax; lra. Qed.

Lemma clamp_score_compat a b : a == b -> clamp_score a == clamp_score b.
Proof. intros H. unfold clamp_score. now rewrite H. Qed.

Lemma commit_points_min activity :
  commit_points activity
  = inject_Z (Z.of_nat (Nat.min (sig_commits activity) 15)).
Proof.
  unfold commit_points, sig_commits.
  destruct (match activity with Some a => total_commits a | None => 0%nat end)
    as [|n]; [reflexivity|].
  cbn [Nat.ltb Nat.leb]. now rewrite Nat.min_comm.
Qed.

(** The code's running sum is the sum of the table's contributions. *)
Lemma raw_score_table basic activity issues prs :
  clamp_score (raw_score basic activity issues prs)
  == table_score (sig_description basic) (sig_stars basic) (sig_forks basic)
                 (sig_commits activity) (sig_close_rate issues)
                 (sig_response_time issues) (sig_merge_rate prs)
                 (sig_merge_time prs).
Proof.
  unfold table_score. rewrite clamp_swap.
  apply Q.max_compat; [reflexivity|]. apply Q.min_compat; [reflexivity|].
  unfold raw_score, basic_points, issue_points, pr_points, Qsum.
  rewrite commit_points_min. cbn [fold_right].
  rewrite !Z.gtb_ltb.
  fold (sig_description basic) (sig_stars basic) (sig_forks basic)
       (sig_close_rate issues) (sig_response_time issues)
       (sig_merge_rate prs) (sig_merge_time prs).
  ring.
Qed.
End HealthFacts.

Section HealthClaims.
Import RepositoryAnalyzer Samples.
Local Open Scope Q_scope.

(** C2, what the code computes. The score is the clamped sum of the eight
    capped contributions of the table, read from the four reports with
    the defaults of the code; it lies in [0, 100]; it is 0 at the worst
    case; and at the best case (description, more than 10 stars, more than
    5 forks, at least 15 recent commits, close rate and merge rate 100,
    response below 24 hours, merge below 48 hours) it is 75, short of the
    100 points that the comments of the code budget. *)
Theorem health_score_is_table_sum :
  (forall basic activity issues prs,
      clamp_score (raw_score basic activity issues prs)
      == table_score (sig_description basic) (sig_stars basic)
                     (sig_forks basic) (sig_commits activity)
                     (sig_close_rate issues) (sig_response_time issues)
                     (sig_merge_rate prs) (sig_merge_time prs))
  /\ (forall h : host,
         calculate_health_score h
         == table_score (sig_description (get_basic_stats h))
                        (sig_stars (get_basic_stats h))
                        (sig_forks (get_basic_stats h))
                        (sig_commits (get_commit_activity h))
                        (sig_close_rate (get_issue_analytics h))
                        (sig_response_time (get_issue_analytics h))
                        (sig_merge_rate (get_pull_request_analytics h))
                        (sig_merge_time (get_pull_request_analytics h)))
  /\ (forall d s f c cr rt mr mt,
         0 <= table_score d s f c cr rt mr mt <= 100)
  /\ table_score false 0 0 0 0 Infinity 0 Infinity == 0
  /\ (forall (stars forks : Z) (commits : nat) (rt mt : pyfloat),
         (10 < stars)%Z -> (5 < forks)%Z -> (15 <= commits)%nat ->
         lt_bound rt 24 = true -> lt_bound mt 48 = true ->
         table_score true stars forks commits 100 rt 100 mt == 75).
Proof.
  split; [exact raw_score_table|].
  split; [intros h; apply raw_score_table|].
  split; [intros; unfold table_score; split_minmax; lra|].
  split; [vm_compute; reflexivity|].
  intros stars forks commits rt mt Hs Hf Hc Hrt Hmt.
  unfold table_score, Qsum. cbn [fold_right].
  rewrite !Z.gtb_ltb.
  apply Z.ltb_lt in Hs, Hf. rewrite Hs, Hf, Hrt, Hmt.
  replace (Nat.min commits 15) with 15%nat by lia.
  change (inject_Z (Z.of_nat 15)) with 15.
  setoid_replace (Qmin 15 (100 * (15 # 100))) with 15
    by (vm_compute; reflexivity).
  setoid_replace (Qmin 10 (100 * (1 # 10))) with 10
    by (vm_compute; reflexivity).
  vm_compute. reflexivity.
Qed.

(** At the best case the code answers 75, where its own budget (30, 25,
    25 and 20 points in the comments of the four blocks, [max_score = 100],
    the branches at 90) and C2 expect 100: the first block awards at most
    15 of its 30 points and the second at most 15 of its 25. *)
Lemma health_score_best_case_is_not_100 :
  calculate_health_score best_host == 75
  /\ ~ calculate_health_score best_host == 100.
Proof.
  split; [vm_compute; reflexivity|].
  intros H. vm_compute in H. discriminate H.
Qed.

(** C3. The [try] body of [calculate_health_score] returns for every answer
    of the host, so the score is defined and the [except] branch is never
    taken; the score lies in [0, 100]; it is the clamped sum of the four
    blocks; and a block whose fetch fails (for issues: the list fetch, or
    the comment fetch of any issue) adds 0. *)
Theorem health_score_total_under_failures (h : host) :
  health_score_body h = Returns (calculate_health_score h)
  /\ 0 <= calculate_health_score h <= 100
  /\ calculate_health_score h
     == clamp_score (basic_points (get_basic_stats h)
                     + commit_points (get_commit_activity h)
                     + issue_points (get_issue_analytics h)
                     + pr_points (get_pull_request_analytics h))
  /\ (repo_fetch h = Raises -> basic_points (get_basic_stats h) == 0)
  /\ (commits_fetch h = Raises ->
      commit_points (get_commit_activity h) == 0)
  /\ (issues_fetch h = Raises
      \/ (exists issues i,
             issues_fetch h = Returns issues /\ In i issues
             /\ comments i = Raises) ->
      issue_points (get_issue_analytics h) == 0)
  /\ (pulls_fetch h = Raises ->
      pr_points (get_pull_request_analytics h) == 0).
Proof.
  split; [reflexivity|].
  split; [apply clamp_score_range|].
  split.
  { unfold calculate_health_score, health_score_body, raw_score.
    cbn [try_except]. apply clamp_score_compat. ring. }
  split; [|split; [|split]].
  - intros H. unfold get_basic_stats. rewrite H. vm_compute. reflexivity.
  - intros H. unfold get_commit_activity. rewrite H. vm_compute. reflexivity.
  - intros H.
    assert (E : get_issue_analytics h = None).
    { unfold get_issue_analytics.
      destruct H as [->|(issues & i & -> & Hin & Hnone)]; [reflexivity|].
      unfold issue_analytics_of. cbn [bind].
      rewrite (issue_loop_raises issues [] []); [reflexivity|].
      now exists i. }
    rewrite E. vm_compute. reflexivity.
  - intros H. unfold get_pull_request_analytics. rewrite H.
    vm_compute. reflexivity.
Qed.

(** C10. Whatever the four reports hold, the running sum is at most 75,
    so the score is at most 75, the upper clamp at 100 changes nothing,
    and the [/health] endpoint never answers ["excellent"]. *)
Theorem health_score_at_most_75 :
  (forall basic activity issues prs,
      raw_score basic activity issues prs <= 75)
  /\ (forall h : host, calculate_health_score h <= 75)
  /\ (forall h : host,
         calculate_health_score h
         == Qmax 0 (raw_score (get_basic_stats h) (get_commit_activity h)
                              (get_issue_analytics h)
                              (get_pull_request_analytics h)))
  /\ (forall h : host, snd (App.health h) <> "excellent").
Proof.
  split; [exact raw_score_le_75|].
  assert (Hle : forall h : host, calculate_health_score h <= 75).
  { intros h. apply clamp_score_le; [lra | apply raw_score_le_75]. }
  split; [exact Hle|]. split.
  - intros h. apply clamp_score_below.
    pose proof (raw_score_le_75 (get_basic_stats h) (get_commit_activity h)
                  (get_issue_analytics h) (get_pull_request_analytics h)).
    lra.
  - intros h. unfold App.health, App.health_status. cbn [snd].
    destruct (Qle_bool 90 (calculate_health_score h)) eqn:E.
    + apply Qle_bool_iff in E. specialize (Hle h). lra.
    + repeat match goal with
               | |- context [if ?b then _ else _] => destruct b
               end; discriminate.
Qed.

(** With every fetch failing the score is 0; a repository that exists but
    has no commits, issues or pull requests still gets the 20 points of
    the two time ladders, its averages being 0 hours. *)
Example health_score_worst_cases :
  calculate_health_score unreachable_host == 0
  /\ calculate_health_score
       {| repo_fetch :=
            Returns {| description := None; stargazers_count := 0;
                       forks_count := 0 |};
          commits_fetch := Returns []; issues_fetch := Returns [];
          pulls_fetch := Returns [] |} == 20.
Proof. split; vm_compute; reflexivity. Qed.

(** The bound of C10 is reached. *)
Example health_score_75_reached :
  calculate_health_score best_host == 75
  /\ snd (App.health best_host) = "good".
Proof. split; vm_compute; reflexivity. Qed.
End HealthClaims.

(** ** Component extraction *)

Section RegexFacts.
Import PyStr PyRe.

Lemma string_app_assoc (a b c : string) :
  ((a ++ b) ++ c = a ++ (b ++ c))%string.
Proof. induction a as [|x a IH]; simpl; [reflexivity | now rewrite IH]. Qed.

Lemma string_length_app (a b : string) :
  String.length (a ++ b) = String.length a + String.length b.
Proof. induction a as [|x a IH]; simpl; [reflexivity | now rewrite IH]. Qed.

Lemma substring_prefix (m rest : string) :
  substring 0 (String.length m) (m ++ rest) = m.
Proof.
  induction m as [|x m IH]; simpl.
  - now destruct rest.
  - now rewrite IH.
Qed.

Lemma consumed_prefix (m rest : string) :
  substring 0 (String.length (m ++ rest) - String.length rest) (m ++ rest)
  = m.
Proof.
  rewrite string_length_app, Nat.add_sub. apply substring_prefix.
Qed.

Lemma eat_literal_sound lit : forall s rest,
  eat_literal lit s = Some rest ->
  exists m, s = (m ++ rest)%string /\ lower m = lower lit.
Proof.
  induction lit as [|a lit IH]; intros s rest H; simpl in H.
  - injection H as <-. now exists EmptyString.
  - destruct s as [|b s]; [discriminate|].
    destruct (Ascii.eqb_spec (lower_char a) (lower_char b)) as [E|];
      [|discriminate].
    destruct (IH _ _ H) as (m & -> & Hm).
    exists (String b m). simpl. now rewrite Hm, E.
Qed.

Section Engine.
Context {R : Type}.

Lemma zero_or_more_sound cs s : forall (k : string -> option R) res,
  zero_or_more cs s k = Some res ->
  exists w rest,
    s = (w ++ rest)%string /\ all_in cs w = true /\ k rest = Some res.
Proof.
  induction s as [|c s IH]; intros k res H; simpl in H.
  - now exists EmptyString, EmptyString.
  - destruct (in_charset cs c) eqn:Ec.
    + destruct (zero_or_more cs s k) as [r|] eqn:Ez.
      * injection H as <-.
        destruct (IH _ _ Ez) as (w & rest & -> & Hw & Hk).
        exists (String c w), rest. simpl. now rewrite Ec, Hw.
      * now exists EmptyString, (String c s).
    + now exists EmptyString, (String c s).
Qed.

Lemma one_or_more_sound cs s (k : string -> option R) res :
  one_or_more cs s k = Some res ->
  exists w rest,
    s = (w ++ rest)%string /\ w <> EmptyString
    /\ all_in cs w = true /\ k rest = Some res.
Proof.
  unfold one_or_more. destruct s as [|c s]; [discriminate|].
  destruct (in_charset cs c) eqn:Ec; [|discriminate]. intros H.
  destruct (zero_or_more_sound _ _ _ _ H) as (w & rest & -> & Hw & Hk).
  exists (String c w), rest. simpl. rewrite Ec, Hw.
  repeat split; auto. discriminate.
Qed.

(** Whatever the engine finds is a match of the pattern. *)
Lemma run_sound r : forall s cap (k : string -> string -> option R) res,
  run r s cap k = Some res ->
  exists m rest cap',
    s = (m ++ rest)%string /\ matches r m cap cap'
    /\ k rest cap' = Some res.
Proof.
  induction r as [lit|cs|r1 IH1 r2 IH2|r1 IH1]; intros s cap k res H;
    simpl in H.
  - destruct (eat_literal lit s) as [rest|] eqn:E; [|discriminate].
    destruct (eat_literal_sound _ _ _ E) as (m & -> & Hm).
    exists m, rest, cap. repeat split; auto. now constructor.
  - destruct (one_or_more_sound _ _ _ _ H) as (w & rest & -> & Hne & Hw & Hk).
    exists w, rest, cap. repeat split; auto. now constructor.
  - destruct (IH1 _ _ _ _ H) as (m1 & rest1 & cap1 & -> & M1 & H1).
    destruct (IH2 _ _ _ _ H1) as (m2 & rest2 & cap2 & -> & M2 & H2).
    exists (m1 ++ m2)%string, rest2, cap2.
    rewrite string_app_assoc. repeat split; auto.
    econstructor; eassumption.
  - destruct (IH1 _ _ _ _ H) as (m & rest & cap1 & -> & M1 & H1).
    rewrite consumed_prefix in H1.
    exists m, rest, m. repeat split; auto.
    econstructor; eassumption.
Qed.
End Engine.

Lemma match_here_sound r t x rest :
  match_here r t = Some (x, rest) ->
  exists m, t = (m ++ rest)%string /\ matches r m EmptyString x.
Proof.
  unfold match_here. intros H.
  destruct (run_sound _ _ _ _ _ H) as (m & rest' & cap' & -> & M & E).
  injection E as -> ->. now exists m.
Qed.

Lemma findall_skip_sound r s : forall skip x,
  In x (findall_skip r skip s) ->
  exists pre m post,
    s = (pre ++ m ++ post)%string /\ matches r m EmptyString x.
Proof.
  induction s as [|c s IH]; intros skip x H; simpl in H; [destruct H|].
  assert (Hlater : forall n, In x (findall_skip r n s) ->
            exists pre m post,
              String c s = (pre ++ m ++ post)%string
              /\ matches r m EmptyString x).
  { intros n Hn. destruct (IH _ _ Hn) as (pre & m & post & -> & M).
    now exists (String c pre), m, post. }
  destruct skip as [|n]; [|now apply (Hlater n)].
  destruct (match_here r (String c s)) as [[cap rest]|] eqn:E;
    [|now apply (Hlater 0)].
  destruct H as [<-|H]; [|now apply (Hlater _ H)].
  destruct (match_here_sound _ _ _ _ E) as (m & Hm & M).
  exists EmptyString, m, rest. now split.
Qed.
End RegexFacts.

Section ComponentClaims.
Import PyStr PyRe Components.

Lemma components_found_iff body x :
  In x (components_found body)
  <-> exists pattern, In pattern patterns /\ In x (findall pattern body).
Proof. unfold components_found. apply in_flat_map. Qed.

Lemma in_firstn {A : Type} (n : nat) (l : list A) (x : A) :
  In x (firstn n l) -> In x l.
Proof.
  intros H. rewrite <- (firstn_skipn n l). apply in_or_app. now left.
Qed.

Lemma lower_char_backtick c : lower_char c = "`"%char -> c = "`"%char.
Proof.
  destruct c as [[] [] [] [] [] [] [] []]; vm_compute; intros H;
    try discriminate H; reflexivity.
Qed.

Lemma lower_is_backtick m : lower m = "`" -> m = "`".
Proof.
  destruct m as [|c [|? ?]]; simpl; try discriminate.
  intros [= H]. now rewrite (lower_char_backtick c H).
Qed.

Ltac invert_matches :=
  repeat match goal with
    | H : matches (Then _ _) _ _ _ |- _ => inversion H; subst; clear H
    | H : matches (Chars _) _ _ _ |- _ => inversion H; subst; clear H
    | H : matches (Capture _) _ _ _ |- _ => inversion H; subst; clear H
    | H : matches (OneOrMore _) _ _ _ |- _ => inversion H; subst; clear H
    end.

Lemma lower_length s : String.length (lower s) = String.length s.
Proof. induction s as [|c s IH]; simpl; [reflexivity | now rewrite IH]. Qed.

Lemma eat_literal_complete lit : forall m rest,
  lower m = lower lit -> eat_literal lit (m ++ rest) = Some rest.
Proof.
  induction lit as [|a lit IH]; intros m rest H.
  - destruct m; [reflexivity | discriminate H].
  - destruct m as [|b m]; [discriminate H|].
    cbn [lower] in H. injection H as Hc Hm.
    cbn [append eat_literal]. rewrite Hc, Ascii.eqb_refl. now apply IH.
Qed.

Section EngineComplete.
Context {R : Type}.

Lemma zero_or_more_complete cs s : forall (k : string -> option R),
  zero_or_more cs s k = None ->
  forall w rest,
    s = (w ++ rest)%string -> all_in cs w = true -> k rest = None.
Proof.
  induction s as [|c s IH]; intros k H w rest Hs Hw.
  - destruct w; [|discriminate Hs]. cbn in Hs. subst rest. exact H.
  - cbn [zero_or_more] in H. destruct w as [|a w].
    + cbn in Hs. subst rest.
      destruct (in_charset cs c); [|exact H].
      now destruct (zero_or_more cs s k).
    + cbn in Hs. injection Hs as <- ->. cbn [all_in] in Hw.
      apply andb_true_iff in Hw. destruct Hw as [Hc Hw]. rewrite Hc in H.
      destruct (zero_or_more cs (w ++ rest) k) eqn:E; [discriminate H|].
      exact (IH _ E w rest eq_refl Hw).
Qed.

Lemma one_or_more_complete cs s (k : string -> option R) :
  one_or_more cs s k = None ->
  forall w rest,
    s = (w ++ rest)%string -> w <> EmptyString -> all_in cs w = true ->
    k rest = None.
Proof.
  intros H w rest Hs Hne Hw. destruct w as [|a w]; [congruence|].
  cbn in Hs. subst s. cbn [one_or_more] in H. cbn [all_in] in Hw.
  apply andb_true_iff in Hw. destruct Hw as [Hc Hw]. rewrite Hc in H.
  exact (zero_or_more_complete _ _ _ H w rest eq_refl Hw).
Qed.

(** The engine tries every way the pattern can match. *)
Lemma run_complete r : forall s cap (k : string -> string -> option R),
  run r s cap k = None ->
  forall m rest cap',
    s = (m ++ rest)%string -> matches r m cap cap' -> k rest cap' = None.
Proof.
  induction r as [lit|cs|r1 IH1 r2 IH2|r1 IH1]; intros s cap k H m rest cap' Hs M;
    cbn [run] in H; inversion M; subst.
  - rewrite (eat_literal_complete lit m rest) in H by assumption. exact H.
  - exact (one_or_more_complete _ _ _ H m rest eq_refl ltac:(assumption)
             ltac:(assumption)).
  - rewrite string_app_assoc in H.
    pose proof (IH1 _ _ _ H _ _ _ eq_refl ltac:(eassumption)) as Hk1.
    cbn beta in Hk1.
    exact (IH2 _ _ _ Hk1 _ _ _ eq_refl ltac:(eassumption)).
  - pose proof (IH1 _ _ _ H _ _ _ eq_refl ltac:(eassumption)) as Hk1.
    cbn beta in Hk1. now rewrite consumed_prefix in Hk1.
Qed.
End EngineComplete.

Lemma match_here_none r s :
  match_here r s = None ->
  forall m rest x, s = (m ++ rest)%string -> ~ matches r m EmptyString x.
Proof.
  unfold match_here. intros H m rest x Hs M.
  pose proof (run_complete r s EmptyString _ H m rest x Hs M) as E.
  discriminate E.
Qed.

Lemma app_same_length (a b r r' : string) :
  (a ++ r = b ++ r')%string -> String.length a = String.length b ->
  a = b /\ r = r'.
Proof.
  revert b. induction a as [|x a IH]; intros [|y b] H L;
    try discriminate L.
  - now split.
  - cbn in H. injection H as -> H. injection L as L.
    destruct (IH b H L) as [-> ->]. now split.
Qed.

Lemma lower_same_length a b :
  lower a = lower b -> String.length a = String.length b.
Proof. intros H. now rewrite <- (lower_length a), H, lower_length. Qed.

(** A run of characters of a set ends where the first character outside
    the set stands. *)
Lemma run_unique cs w1 : forall w2 c1 t1 c2 t2,
  all_in cs w1 = true -> all_in cs w2 = true ->
  in_charset cs c1 = false -> in_charset cs c2 = false ->
  (w1 ++ String c1 t1 = w2 ++ String c2 t2)%string ->
  w1 = w2 /\ String c1 t1 = String c2 t2.
Proof.
  induction w1 as [|a w1 IH]; intros [|b w2] c1 t1 c2 t2 H1 H2 N1 N2 E;
    cbn in E.
  - now split.
  - injection E as -> _. cbn [all_in] in H2. rewrite N1 in H2.
    discriminate H2.
  - injection E as -> _. cbn [all_in] in H1. rewrite N2 in H1.
    discriminate H1.
  - injection E as -> E. cbn [all_in] in H1, H2.
    apply andb_true_iff in H1, H2.
    destruct (IH w2 c1 t1 c2 t2 (proj2 H1) (proj2 H2) N1 N2 E) as [-> Ht].
    now split.
Qed.

Lemma all_in_app cs a b :
  all_in cs (a ++ b) = all_in cs a && all_in cs b.
Proof.
  induction a as [|c a IH]; cbn [append all_in]; [reflexivity|].
  now rewrite IH, andb_assoc.
Qed.

Lemma lower_char_backtick_iff c :
  Ascii.eqb (lower_char c) "`" = Ascii.eqb c "`".
Proof.
  destruct c as [[] [] [] [] [] [] [] []]; vm_compute; reflexivity.
Qed.

Lemma not_backtick_lower e :
  all_in NotBacktick (lower e) = all_in NotBacktick e.
Proof.
  induction e as [|c e IH]; cbn [lower all_in in_charset]; [reflexivity|].
  now rewrite lower_char_backtick_iff, IH.
Qed.

Lemma space_is_no_word_char c :
  lower_char c = " "%char -> is_word_char c = false.
Proof.
  destruct c as [[] [] [] [] [] [] [] []]; vm_compute; intros H;
    try discriminate H; reflexivity.
Qed.

(** What a match of a backticked file pattern looks like. *)
Lemma backticked_inv ext m cap x :
  In ext [".py"; ".js"; ".html"] ->
  matches (backticked ext) m cap x ->
  m = ("`" ++ x ++ "`")%string /\ all_in NotBacktick x = true
  /\ exists w e,
      x = (w ++ e)%string /\ w <> EmptyString /\ lower e = lower ext.
Proof.
  intros Hext M. unfold backticked in M. invert_matches.
  repeat match goal with
    | H : lower _ = lower "`" |- _ => apply lower_is_backtick in H; subst
    end.
  match goal with
  | Hw : all_in NotBacktick ?w = true, He : lower ?e = lower ext |- _ =>
      split; [reflexivity|]; split;
      [ rewrite all_in_app, Hw, <- not_backtick_lower, He;
        destruct Hext as [<-|[<-|[<-|[]]]]; reflexivity
      | exists w, e; repeat split; assumption ]
  end.
Qed.

(** What a match of a word pattern looks like: a word, then the literal,
    which begins with a space. *)
Lemma word_then_literal_inv lit m cap x :
  matches (Then (Capture (OneOrMore WordChar)) (Chars lit)) m cap x ->
  exists r,
    m = (x ++ r)%string /\ x <> EmptyString /\ all_in WordChar x = true
    /\ lower r = lower lit.
Proof.
  intros M. invert_matches.
  match goal with
  | Hr : lower ?r = lower lit |- _ => exists r; repeat split; assumption
  end.
Qed.

Lemma literal_begins_with_space r lit :
  lower r = lower (String " " lit) ->
  exists c r', r = String c r' /\ in_charset WordChar c = false.
Proof.
  destruct r as [|c r']; [discriminate|]. cbn [lower]. intros H.
  injection H as Hc _. exists c, r'. split; [reflexivity|].
  now apply space_is_no_word_char.
Qed.

Lemma word_then_literal_unique lit m1 rest1 x1 m2 rest2 x2 cap1 cap2 :
  (m1 ++ rest1 = m2 ++ rest2)%string ->
  matches (Then (Capture (OneOrMore WordChar)) (Chars (String " " lit)))
          m1 cap1 x1 ->
  matches (Then (Capture (OneOrMore WordChar)) (Chars (String " " lit)))
          m2 cap2 x2 ->
  m1 = m2 /\ x1 = x2.
Proof.
  intros E M1 M2.
  destruct (word_then_literal_inv _ _ _ _ M1) as (r1 & -> & _ & W1 & L1).
  destruct (word_then_literal_inv _ _ _ _ M2) as (r2 & -> & _ & W2 & L2).
  destruct (literal_begins_with_space _ _ L1) as (c1 & t1 & -> & N1).
  destruct (literal_begins_with_space _ _ L2) as (c2 & t2 & -> & N2).
  rewrite !string_app_assoc in E. cbn [append] in E.
  destruct (run_unique _ _ _ _ _ _ _ W1 W2 N1 N2 E) as [-> Et].
  change (String c1 (t1 ++ rest1)) with (String c1 t1 ++ rest1)%string in Et.
  change (String c2 (t2 ++ rest2)) with (String c2 t2 ++ rest2)%string in Et.
  destruct (app_same_length _ _ _ _ Et) as [-> _].
  - apply lower_same_length. now rewrite L1, L2.
  - now split.
Qed.

(** At one offset each of the five patterns matches in at most one way. *)
Lemma patterns_deterministic r m1 rest1 x1 m2 rest2 x2 :
  In r patterns ->
  (m1 ++ rest1 = m2 ++ rest2)%string ->
  matches r m1 EmptyString x1 -> matches r m2 EmptyString x2 ->
  m1 = m2 /\ x1 = x2.
Proof.
  assert (Hfile : forall ext,
             In ext [".py"; ".js"; ".html"] ->
             (m1 ++ rest1 = m2 ++ rest2)%string ->
             matches (backticked ext) m1 EmptyString x1 ->
             matches (backticked ext) m2 EmptyString x2 ->
             m1 = m2 /\ x1 = x2).
  { intros ext Hext E M1 M2.
    destruct (backticked_inv _ _ _ _ Hext M1) as (-> & B1 & _).
    destruct (backticked_inv _ _ _ _ Hext M2) as (-> & B2 & _).
    cbn [append] in E. injection E as E. rewrite !string_app_assoc in E.
    cbn [append] in E.
    destruct (run_unique NotBacktick x1 x2 "`"%char rest1 "`"%char rest2
                B1 B2 eq_refl eq_refl E) as [-> _].
    now split. }
  intros [<-|[<-|[<-|[<-|[<-|[]]]]]] E M1 M2.
  - apply (Hfile ".py"); simpl; auto.
  - apply (Hfile ".js"); simpl; auto.
  - apply (Hfile ".html"); simpl; auto.
  - inversion M1 as [| |? ? l1 n1 ? c1 ? L1 N1|]; subst.
    inversion M2 as [| |? ? l2 n2 ? c2 ? L2 N2|]; subst.
    inversion L1; subst. inversion L2; subst.
    rewrite !string_app_assoc in E.
    destruct (app_same_length _ _ _ _ E) as [-> E'].
    { apply lower_same_length. congruence. }
    destruct (word_then_literal_unique _ _ _ _ _ _ _ _ _ E' N1 N2)
      as [-> ->].
    now split.
  - exact (word_then_literal_unique _ _ _ _ _ _ _ _ _ E M1 M2).
Qed.

Lemma patterns_match_text r m cap x :
  In r patterns -> matches r m cap x -> m <> EmptyString.
Proof.
  intros [<-|[<-|[<-|[<-|[<-|[]]]]]] M.
  - destruct (backticked_inv ".py" _ _ _ ltac:(simpl; auto) M) as (-> & _).
    discriminate.
  - destruct (backticked_inv ".js" _ _ _ ltac:(simpl; auto) M) as (-> & _).
    discriminate.
  - destruct (backticked_inv ".html" _ _ _ ltac:(simpl; auto) M) as (-> & _).
    discriminate.
  - inversion M as [| |? ? l n ? c ? L N|]; subst. inversion L; subst.
    destruct l; [discriminate|discriminate].
  - destruct (word_then_literal_inv _ _ _ _ M) as (r & -> & Hne & _).
    destruct x; [congruence | discriminate].
Qed.

Lemma findall_skip_over r pre : forall s,
  findall_skip r (String.length pre) (pre ++ s) = findall_skip r 0 s.
Proof.
  induction pre as [|c pre IH]; intros s; [reflexivity|].
  cbn [String.length append findall_skip]. apply IH.
Qed.

(** The scan of the engine is the scan of the documentation. *)
Lemma findall_scans r :
  In r patterns -> forall n s, String.length s <= n -> scan r s (findall r s).
Proof.
  intros Hr. unfold findall.
  induction n as [|n IH]; intros s Hn.
  - destruct s; [constructor | cbn in Hn; lia].
  - destruct s as [|c s]; [constructor|].
    cbn [findall_skip].
    destruct (match_here r (String c s)) as [[cap rest]|] eqn:E.
    + destruct (match_here_sound _ _ _ _ E) as (m & Hm & M).
      pose proof (patterns_match_text _ _ _ _ Hr M) as Hne.
      destruct m as [|c' m]; [congruence|].
      cbn [append] in Hm. injection Hm as <- ->.
      replace (String.length (String c (m ++ rest)) - String.length rest - 1)
        with (String.length m)
        by (cbn [String.length]; rewrite string_length_app; lia).
      rewrite findall_skip_over.
      apply (scan_match r (String c m) rest cap); [discriminate | exact M|].
      apply IH. cbn [String.length] in Hn.
      rewrite string_length_app in Hn. lia.
    + apply scan_skip.
      * exact (match_here_none _ _ E).
      * apply IH. cbn [String.length] in Hn. lia.
Qed.

Lemma scan_functional r :
  In r patterns ->
  forall s xs, scan r s xs -> forall ys, scan r s ys -> xs = ys.
Proof.
  intros Hr s xs H1.
  induction H1 as [|c s xs Hno H1 IH|m rest x xs Hne M H1 IH]; intros ys H2.
  - inversion H2 as [| |m2 rest2 x2 ys2 Hne2 M2 H2' Heq]; [reflexivity|].
    destruct m2; [congruence | discriminate Heq].
  - inversion H2 as [|c' s' ys' Hno2 H2'|m2 rest2 x2 ys2 Hne2 M2 H2' Heq];
      subst.
    + now apply IH.
    + exfalso. exact (Hno m2 rest2 x2 (eq_sym Heq) M2).
  - remember (m ++ rest)%string as s eqn:Es.
    destruct H2 as [|c' s' ys' Hno2 H2'|m2 rest2 x2 ys2 Hne2 M2 H2'].
    + destruct m; [congruence | discriminate Es].
    + exfalso. exact (Hno2 m rest x Es M).
    + destruct (patterns_deterministic r m2 rest2 x2 m rest x Hr Es M2 M)
        as [-> ->].
      destruct (app_same_length _ _ _ _ Es eq_refl) as [_ ->].
      f_equal. now apply IH.
Qed.

(** For each of the five patterns, [findall] returns what the
    documentation describes, and nothing else fits the description. *)
Lemma findall_is_the_scan r body xs :
  In r patterns -> (scan r body xs <-> xs = findall r body).
Proof.
  intros Hr. split.
  - intros H. apply (scan_functional r Hr body); [exact H|].
    now apply (findall_scans r Hr (String.length body)).
  - intros ->. now apply (findall_scans r Hr (String.length body)).
Qed.

(** A scan that finds nothing has passed over every offset. *)
Lemma scan_nothing r s xs :
  In r patterns -> scan r s xs -> xs = [] ->
  forall pre m post x,
    s = (pre ++ m ++ post)%string -> ~ matches r m EmptyString x.
Proof.
  intros Hr H. induction H as [|c s xs Hno H IH|m0 rest x0 xs Hne M H IH];
    intros Hxs pre m post x Hs Mx; [| |discriminate Hxs].
  - pose proof (patterns_match_text _ _ _ _ Hr Mx) as Hne.
    destruct pre; [|discriminate Hs]. destruct m; [congruence|discriminate Hs].
  - destruct pre as [|c' pre].
    + exact (Hno m post x Hs Mx).
    + cbn [append] in Hs. injection Hs as _ Hs.
      exact (IH Hxs pre m post x Hs Mx).
Qed.

Lemma shape_backticked body ext pre m post x :
  In ext [".py"; ".js"; ".html"] ->
  body = (pre ++ m ++ post)%string ->
  matches (backticked ext) m EmptyString x ->
  component_shape body x.
Proof.
  intros Hext -> M. unfold backticked in M. invert_matches.
  repeat match goal with
    | H : lower _ = lower "`" |- _ => apply lower_is_backtick in H; subst
    end.
  left. exists ext.
  match goal with
  | Hw : all_in NotBacktick ?w = true, He : lower ?e = lower ext |- _ =>
      exists w, e; repeat split; auto;
      [ rewrite He; destruct Hext as [<-|[<-|[<-|[]]]]; reflexivity
      | exists pre, post; now rewrite !string_app_assoc ]
  end.
Qed.

Lemma shape_word body pre m post x :
  body = (pre ++ m ++ post)%string ->
  matches (Then (Chars "in ")
                (Then (Capture (OneOrMore WordChar)) (Chars " module")))
          m EmptyString x
  \/ matches (Then (Capture (OneOrMore WordChar)) (Chars " component"))
             m EmptyString x ->
  component_shape body x.
Proof.
  intros -> [M|M]; invert_matches; right; [left|right];
    repeat split; auto.
  - match goal with
    | Hl : lower ?l = lower "in ", Hr : lower ?r = lower " module" |- _ =>
        exists l, r; repeat split; auto;
        exists pre, post; now rewrite !string_app_assoc
    end.
  - match goal with
    | Hr : lower ?r = lower " component" |- _ =>
        exists r; split; auto;
        exists pre, post; now rewrite !string_app_assoc
    end.
Qed.

Lemma component_labels_length components :
  List.length (component_labels components) <= 3.
Proof.
  unfold component_labels. rewrite length_map. apply firstn_le_length.
Qed.

(** C8, as the code has it. [extract_components] returns on every body.
    For each of the five patterns there is exactly one list of captures
    that fits the description of [re.findall]: the non-overlapping matches
    found scanning from the left, letter case ignored in the literals.
    What is returned holds every string of these five lists exactly once,
    strings being compared as they are, and nothing else; it is empty
    exactly when no slice of the body matches any pattern; every entry is
    a backtick-delimited [.py], [.js] or [.html] name, a word between
    ["in "] and [" module"], or a word before [" component"]; the caller
    labels the first three entries of the returned list, so at most
    three. *)
Theorem extract_components_exact_dedup (body : string) :
  (exists res, extract_components body res)
  /\ (forall pattern,
         In pattern patterns ->
         exists found,
           scan pattern body found
           /\ forall found', scan pattern body found' -> found' = found)
  /\ (forall res,
         extract_components body res ->
         NoDup res
         /\ (forall x,
                In x res <->
                exists pattern found,
                  In pattern patterns /\ scan pattern body found
                  /\ In x found)
         /\ (res = [] <->
             forall pattern pre m post x,
               In pattern patterns ->
               body = (pre ++ m ++ post)%string ->
               ~ matches pattern m EmptyString x)
         /\ (forall x, In x res -> component_shape body x)
         /\ component_labels res
            = map (fun c => ("component:" ++ c)%string) (firstn 3 res)
         /\ List.length (component_labels res) <= 3
         /\ (forall l,
                In l (component_labels res) ->
                exists x, In x res /\ l = ("component:" ++ x)%string)).
Proof.
  split.
  { exists (nodup string_dec (components_found body)). split.
    - apply NoDup_nodup.
    - intros x. apply nodup_In. }
  split.
  { intros pattern Hp. exists (findall pattern body). split.
    - now apply findall_is_the_scan.
    - intros found' H. now apply findall_is_the_scan in H. }
  intros res [Hnd Hin].
  assert (Hmem : forall x,
             In x res <->
             exists pattern found,
               In pattern patterns /\ scan pattern body found /\ In x found).
  { intros x. rewrite Hin, components_found_iff. split.
    - intros (pattern & Hp & Hx). exists pattern, (findall pattern body).
      split; [exact Hp|]. split; [|exact Hx]. now apply findall_is_the_scan.
    - intros (pattern & found & Hp & Hs & Hx). exists pattern.
      split; [exact Hp|]. apply findall_is_the_scan in Hs; [|exact Hp].
      now rewrite <- Hs. }
  split; [exact Hnd|]. split; [exact Hmem|]. split.
  { split.
    - intros -> pattern pre m post x Hp Hb M.
      assert (Hs : scan pattern body (findall pattern body))
        by now apply findall_is_the_scan.
      assert (Hnil : findall pattern body = []).
      { destruct (findall pattern body) as [|y ys] eqn:E; [reflexivity|].
        exfalso. apply (proj2 (Hmem y)).
        exists pattern, (y :: ys).
        split; [exact Hp|]. split; [exact Hs | now left]. }
      exact (scan_nothing pattern body _ Hp Hs Hnil pre m post x Hb M).
    - intros Hno. destruct res as [|y res]; [reflexivity|]. exfalso.
      pose proof (proj1 (Hin y) (or_introl eq_refl)) as Hy.
      apply components_found_iff in Hy. destruct Hy as (pattern & Hp & Hf).
      destruct (findall_skip_sound _ _ _ _ Hf) as (pre & m & post & E & M).
      exact (Hno pattern pre m post y Hp E M). }
  split.
  { intros x Hx. apply Hin, components_found_iff in Hx.
    destruct Hx as (pattern & Hp & Hf).
    destruct (findall_skip_sound _ _ _ _ Hf) as (pre & m & post & E & M).
    destruct Hp as [<-|[<-|[<-|[<-|[<-|[]]]]]].
    - apply (shape_backticked body ".py" pre m post); simpl; auto.
    - apply (shape_backticked body ".js" pre m post); simpl; auto.
    - apply (shape_backticked body ".html" pre m post); simpl; auto.
    - apply (shape_word body pre m post); auto.
    - apply (shape_word body pre m post); auto. }
  split; [reflexivity|]. split; [apply component_labels_length|].
  intros l Hl. unfold component_labels in Hl. apply in_map_iff in Hl.
  destruct Hl as (x & <- & Hx). exists x. split; [|reflexivity].
  revert Hx. apply in_firstn.
Qed.

(** A word with a letter outside ASCII is a word: here U+00E9. *)
Example components_found_latin_word :
  components_found ("in caf" ++ String (ascii_of_nat 233) " module")
  = [("caf" ++ String (ascii_of_nat 233) "")%string].
Proof. vm_compute. reflexivity. Qed.

(** C8 as worded fails. Two spellings of one file name that differ in
    letter case are both returned, whatever the order; and the list with
    the later match first is among the values the call may return. *)
Lemma extract_components_keeps_case_variants :
  components_found "see `Main.py` and `main.py`" = ["Main.py"; "main.py"]
  /\ lower "Main.py" = lower "main.py"
  /\ (forall res,
         extract_components "see `Main.py` and `main.py`" res ->
         In "Main.py" res /\ In "main.py" res /\ List.length res = 2
         /\ List.length (component_labels res) = 2)
  /\ extract_components "see `Main.py` and `main.py`" ["main.py"; "Main.py"].
Proof.
  assert (E : components_found "see `Main.py` and `main.py`"
              = ["Main.py"; "main.py"]) by (vm_compute; reflexivity).
  split; [exact E|]. split; [reflexivity|]. split.
  - intros res [Hnd Hin]. rewrite E in Hin.
    assert (H1 : In "Main.py" res) by (apply Hin; simpl; auto).
    assert (H2 : In "main.py" res) by (apply Hin; simpl; auto).
    assert (Hlen : List.length res = 2).
    { apply Nat.le_antisymm.
      - change 2 with (List.length ["Main.py"; "main.py"]).
        apply (NoDup_incl_length Hnd). intros x Hx. now apply Hin.
      - change 2 with (List.length ["Main.py"; "main.py"]).
        apply NoDup_incl_length.
        + repeat constructor; simpl; intuition discriminate.
        + intros x Hx. now apply Hin. }
    repeat split; auto.
    unfold component_labels. rewrite length_map, firstn_all2; lia.
  - split.
    + repeat constructor; simpl; intuition discriminate.
    + intros x. rewrite E. simpl. tauto.
Qed.

(** C8 on a body with one capture per pattern and a repeat; a file name
    with its extension in capital letters; a word with the letter
    U+00E9. *)
Lemma extract_components_witness :
  extract_components
    ("`App.PY` `ui.js` `index.html` `App.PY` in caf"
     ++ String (ascii_of_nat 233) " module, ui component")
    ["App.PY"; "ui.js"; "index.html";
     ("caf" ++ String (ascii_of_nat 233) "")%string; "ui"]
  /\ NoDup ["App.PY"; "ui.js"; "index.html";
            ("caf" ++ String (ascii_of_nat 233) "")%string; "ui"]
  /\ component_shape
       ("`App.PY` `ui.js` `index.html` `App.PY` in caf"
        ++ String (ascii_of_nat 233) " module, ui component")
       ("caf" ++ String (ascii_of_nat 233) "")
  /\ List.length
       (component_labels
          ["App.PY"; "ui.js"; "index.html";
           ("caf" ++ String (ascii_of_nat 233) "")%string; "ui"])
     <= 3.
Proof.
  assert (Hres : extract_components
            ("`App.PY` `ui.js` `index.html` `App.PY` in caf"
             ++ String (ascii_of_nat 233) " module, ui component")
            ["App.PY"; "ui.js"; "index.html";
             ("caf" ++ String (ascii_of_nat 233) "")%string; "ui"]).
  { split.
    - repeat constructor; simpl; intuition discriminate.
    - intros x. vm_compute. tauto. }
  destruct (proj2 (proj2 (extract_components_exact_dedup
              ("`App.PY` `ui.js` `index.html` `App.PY` in caf"
               ++ String (ascii_of_nat 233) " module, ui component")))
              _ Hres) as (Hnd & _ & _ & Hshape & _ & Hlen & _).
  split; [exact Hres|]. split; [exact Hnd|]. split; [|exact Hlen].
  apply Hshape. simpl. tauto.
Defined.
End ComponentClaims.

(** ** Webhook signature *)

Section WebhookClaims.
Import PyStr App.

Lemma is_ascii_expected digest :
  is_ascii ("sha256=" ++ digest) = is_ascii digest.
Proof. reflexivity. Qed.

Lemma verify_with_secret hmac (c : ascii) (key body h : string) :
  h <> EmptyString ->
  verify_webhook_signature hmac (Some (String c key)) body (Some h)
  = compare_digest ("sha256=" ++ hmac (String c key) body) h.
Proof. destruct h; [congruence | reflexivity]. Qed.

(** C4. With a non-empty secret, verification succeeds exactly when the
    signature header is ["sha256="] followed by the hex HMAC-SHA256 of the
    raw body under the secret (a hex digest being ASCII); with no secret
    (unset or empty) it always succeeds; a request that is not verified
    never reaches the classification pipeline; a verification that
    answers [False] is answered 401. A wrong signature header is answered
    401 when it is missing, empty or ASCII, and 500 when it holds a
    character that is not ASCII. *)
Theorem webhook_signature_gate
        (hmac_sha256_hexdigest : string -> string -> string)
        (payload : Type) :
  (forall (key body : string) (header : option string),
      key <> EmptyString ->
      verify_webhook_signature hmac_sha256_hexdigest (Some key) body header
      = Returns true
      <-> header
          = Some ("sha256=" ++ hmac_sha256_hexdigest key body)%string
          /\ is_ascii (hmac_sha256_hexdigest key body) = true)
  /\ (forall (secret : option string) (body : string)
             (header : option string),
         secret = None \/ secret = Some EmptyString ->
         verify_webhook_signature hmac_sha256_hexdigest secret body header
         = Returns true)
  /\ (forall (secret : option string) (req : request payload),
         verify_webhook_signature hmac_sha256_hexdigest secret
           (data payload req) (x_hub_signature_256 payload req)
         <> Returns true ->
         snd (webhook hmac_sha256_hexdigest payload secret req) = [])
  /\ (forall (secret : option string) (req : request payload),
         verify_webhook_signature hmac_sha256_hexdigest secret
           (data payload req) (x_hub_signature_256 payload req)
         = Returns false ->
         webhook hmac_sha256_hexdigest payload secret req = (401, []))
  /\ (forall (key : string) (req : request payload),
         key <> EmptyString ->
         is_ascii (hmac_sha256_hexdigest key (data payload req)) = true ->
         x_hub_signature_256 payload req
         <> Some ("sha256="
                  ++ hmac_sha256_hexdigest key (data payload req))%string ->
         webhook hmac_sha256_hexdigest payload (Some key) req
         = match x_hub_signature_256 payload req with
           | Some header =>
               if is_ascii header then (401, []) else (500, [])
           | None => (401, [])
           end).
Proof.
  split.
  { intros key body header Hkey.
    destruct key as [|c key]; [congruence|].
    destruct header as [h|]; [|split; [discriminate | intros [H _]; discriminate H]].
    destruct (string_dec h EmptyString) as [->|Hh].
    { split; [discriminate | intros [[= H] _]; discriminate H]. }
    rewrite (verify_with_secret _ _ _ _ _ Hh). unfold compare_digest.
    rewrite is_ascii_expected.
    destruct (is_ascii (hmac_sha256_hexdigest (String c key) body)) eqn:Ed;
      cbn [andb].
    - destruct (is_ascii h) eqn:Eh.
      + split.
        * intros H.
          assert (E : String.eqb
                        ("sha256="
                         ++ hmac_sha256_hexdigest (String c key) body) h
                      = true) by congruence.
          apply String.eqb_eq in E. now rewrite E.
        * intros [H _]. injection H as ->. f_equal.
          apply String.eqb_eq. reflexivity.
      + split; [discriminate|]. intros [H _]. injection H as ->.
        change (is_ascii (hmac_sha256_hexdigest (String c key) body) = false)
          in Eh.
        congruence.
    - split; [discriminate | intros [_ H]; discriminate H]. }
  split.
  { intros secret body header [-> | ->]; reflexivity. }
  split.
  { intros secret req Hv. unfold webhook.
    destruct (verify_webhook_signature hmac_sha256_hexdigest secret
                (data payload req) (x_hub_signature_256 payload req))
      as [[|]|]; [congruence | reflexivity | reflexivity]. }
  split.
  { intros secret req Hv. unfold webhook. now rewrite Hv. }
  intros key req Hkey Hd Hne. unfold webhook.
  destruct key as [|c key]; [congruence|].
  destruct (x_hub_signature_256 payload req) as [h|] eqn:Eh;
    [|reflexivity].
  destruct (string_dec h EmptyString) as [->|Hh]; [reflexivity|].
  rewrite (verify_with_secret _ _ _ _ _ Hh). unfold compare_digest.
  rewrite is_ascii_expected, Hd.
  cbn [andb]. destruct (is_ascii h); [|reflexivity].
  destruct (String.eqb_spec
              ("sha256=" ++ hmac_sha256_hexdigest (String c key)
                              (data payload req)) h) as [E|_];
    [|reflexivity].
  exfalso. apply Hne. now rewrite E.
Qed.

(** C4 with a stand-in digest and the secret ["abc"], on an [issues]
    event: a forged ASCII signature is answered 401, and a signature with
    the character U+00E9 is answered 500. *)
Lemma webhook_forged_signature_witness :
  webhook (fun key msg => (key ++ msg)%string) nat (Some "abc")
          {| data := "{}"; x_hub_signature_256 := Some "sha256=forged";
             x_github_event := Some "issues"; get_json := JsonPayload nat 7 |}
  = (401, [])
  /\ webhook (fun key msg => (key ++ msg)%string) nat (Some "abc")
             {| data := "{}";
                x_hub_signature_256 :=
                  Some ("sha256=" ++ String (ascii_of_nat 233) "abc{}")%string;
                x_github_event := Some "issues";
                get_json := JsonPayload nat 7 |}
     = (500, []).
Proof.
  destruct (webhook_signature_gate (fun key msg => (key ++ msg)%string) nat)
    as (_ & _ & _ & _ & H).
  split.
  - apply (H "abc"
             {| data := "{}"; x_hub_signature_256 := Some "sha256=forged";
                x_github_event := Some "issues";
                get_json := JsonPayload nat 7 |});
      [discriminate | reflexivity | cbn; discriminate].
  - apply (H "abc"
             {| data := "{}";
                x_hub_signature_256 :=
                  Some ("sha256=" ++ String (ascii_of_nat 233) "abc{}")%string;
                x_github_event := Some "issues";
                get_json := JsonPayload nat 7 |});
      [discriminate | reflexivity | cbn; discriminate].
Defined.

(** The same request with the right signature reaches the pipeline. *)
Example webhook_signed_request_processed :
  webhook (fun key msg => (key ++ msg)%string) nat (Some "abc")
          {| data := "{}"; x_hub_signature_256 := Some "sha256=abc{}";
             x_github_event := Some "issues"; get_json := JsonPayload nat 7 |}
  = (200, [process_issue nat 7]).
Proof. reflexivity. Qed.
End WebhookClaims.

(** ** Witnesses on sample data *)

Section Witnesses.
Import PyStr IssueClassifier SmartIssueBot RepositoryAnalyzer Samples.

(** C1 on a text in capital letters with three keywords of bug: some
    score is positive, and the answer is bug. *)
Lemma classify_issue_type_witness :
  (exists c kws,
      In (c, kws) Config.ISSUE_LABELS
      /\ Wording.presence_score ("BUG: Crash" ++ " " ++ "It FAILS on start")
                                kws <> 0)
  /\ classify_issue_type "BUG: Crash" "It FAILS on start" = "bug".
Proof.
  assert (Hpos : exists c kws,
             In (c, kws) Config.ISSUE_LABELS
             /\ Wording.presence_score
                  ("BUG: Crash" ++ " " ++ "It FAILS on start") kws <> 0).
  { exists "bug", ["bug"; "error"; "crash"; "broken"; "not working"; "fail"].
    split; [simpl; tauto | vm_compute; discriminate]. }
  split; [exact Hpos|].
  destruct (classify_issue_type_first_highest "BUG: Crash" "It FAILS on start")
    as (_ & _ & _ & Hmax & Heq).
  destruct (Hmax Hpos) as (pre & c & kws & post & _ & Hc & _).
  rewrite Heq. vm_compute. reflexivity.
Defined.

(** C6 at the six boundary totals. *)
Lemma determine_pr_size_boundaries :
  _determine_pr_size (pr_of_size 12 7) = "size:small"
  /\ _determine_pr_size (pr_of_size 12 8) = "size:medium"
  /\ _determine_pr_size (pr_of_size 90 9) = "size:medium"
  /\ _determine_pr_size (pr_of_size 90 10) = "size:large"
  /\ _determine_pr_size (pr_of_size 400 99) = "size:large"
  /\ _determine_pr_size (pr_of_size 400 100) = "size:xl".
Proof.
  refine (conj _ (conj _ (conj _ (conj _ (conj _ _))))).
  - apply (determine_pr_size_bands (pr_of_size 12 7)). simpl. lia.
  - apply (determine_pr_size_bands (pr_of_size 12 8)). simpl. lia.
  - apply (determine_pr_size_bands (pr_of_size 90 9)). simpl. lia.
  - apply (determine_pr_size_bands (pr_of_size 90 10)). simpl. lia.
  - apply (determine_pr_size_bands (pr_of_size 400 99)). simpl. lia.
  - apply (determine_pr_size_bands (pr_of_size 400 100)). simpl. lia.
Defined.

(** C7 on a population of four pull requests, two of them large. *)
Lemma analytics_bucket_witness :
  exists stats,
    pr_analytics_of [pr_of_size 1 2; pr_of_size 100 0; pr_of_size 600 1;
                     pr_of_size 250 249] = Returns stats
    /\ lookup0 "large" (pr_size_distribution stats) = 2.
Proof.
  destruct (proj2 analytics_bucket_is_label_band
              [pr_of_size 1 2; pr_of_size 100 0; pr_of_size 600 1;
               pr_of_size 250 249] "large") as (stats & Hs & Hl).
  exists stats. split; [exact Hs | exact Hl].
Defined.

(** C9 on an answered closed issue next to a silent open one, and on no
    issues at all. *)
Lemma averages_witness :
  (exists stats,
      issue_analytics_of [closed_issue; silent_issue] = Returns stats
      /\ (avg_close_time_hours stats == 2)%Q
      /\ (avg_response_time_hours stats == 1 # 2)%Q)
  /\ (exists stats,
         issue_analytics_of [] = Returns stats
         /\ avg_close_time_hours stats = 0%Q
         /\ avg_response_time_hours stats = 0%Q).
Proof.
  split.
  - destruct (proj1 averages_over_defined_pairs [closed_issue; silent_issue])
      as (stats & Hs & Hc & Hr & _).
    + intros i [<-|[<-|[]]]; discriminate.
    + exists stats. rewrite Hc, Hr. split; [exact Hs|].
      split; vm_compute; reflexivity.
  - destruct (proj1 averages_over_defined_pairs [])
      as (stats & Hs & _ & _ & Hc & Hr).
    + intros i [].
    + exists stats. split; [exact Hs|]. split; [now apply Hc | now apply Hr].
Defined.

(** C2 on the sample repository that is best on every signal. *)
Lemma health_score_best_case_witness :
  (table_score true 5000 800 20 100 (Finite (1 # 2)) 100 (Finite 1) == 75)%Q.
Proof.
  apply health_score_is_table_sum; try lia; reflexivity.
Defined.

(** C3 on a host whose commit fetch and one comment fetch fail. *)
Lemma health_score_failures_witness :
  (commit_points (get_commit_activity half_failed_host) == 0)%Q
  /\ (issue_points (get_issue_analytics half_failed_host) == 0)%Q
  /\ (calculate_health_score half_failed_host == 35)%Q.
Proof.
  destruct (health_score_total_under_failures half_failed_host)
    as (_ & _ & Hsum & _ & Hc & Hi & _).
  split; [apply Hc; reflexivity|]. split.
  - apply Hi. right. exists [closed_issue; unreadable_issue], unreadable_issue.
    repeat split. simpl. tauto.
  - rewrite Hsum. vm_compute. reflexivity.
Defined.
End Witnesses.

(** ** Pull-request type, sentiment and labels *)

Section LabelingFacts.
Import PyStr IssueClassifier Components SmartIssueBot Labeling.

Lemma substring_of_trans a b t :
  substring_of a b -> substring_of b t -> substring_of a t.
Proof.
  intros (p1 & q1 & ->) (p2 & q2 & ->).
  exists (p2 ++ p1)%string, (q1 ++ q2)%string.
  now rewrite !string_app_assoc.
Qed.

Lemma contains_longer a b t :
  substring_of a b -> contains b t = true -> contains a t = true.
Proof.
  intros Hab Hb. apply contains_iff. apply contains_iff in Hb.
  now apply (substring_of_trans a b t).
Qed.

Lemma any_keyword_iff text kws :
  any_keyword text kws = true
  <-> exists kw, In kw kws /\ substring_of kw text.
Proof.
  unfold any_keyword. rewrite existsb_exists.
  split; intros (kw & Hin & H); exists kw; split; auto; now apply contains_iff.
Qed.

Lemma py_max_by_value_in rest : forall best,
  In (py_max_by_value best rest) (map fst (best :: rest)).
Proof.
  induction rest as [|cand rest IH]; intros best; simpl.
  - now left.
  - destruct (snd best <? snd cand).
    + right. apply (IH cand).
    + destruct (IH best) as [H|H]; [now left | right; now right].
Qed.

Lemma build_scores_keys text labels :
  incl (map fst (build_scores text labels)) (map fst labels).
Proof.
  induction labels as [|[l kws] labels IH]; simpl; [easy|].
  destruct (0 <? keyword_score text kws); simpl.
  - intros x [<-|Hx]; [now left | right; now apply IH].
  - intros x Hx. right. now apply IH.
Qed.

Lemma classify_with_range labels title body :
  In (classify_with labels title body) ("general" :: map fst labels).
Proof.
  unfold classify_with.
  destruct (build_scores (combined_text title body) labels)
    as [|first rest] eqn:E; [now left|].
  right. apply (build_scores_keys (combined_text title body)).
  rewrite E. apply py_max_by_value_in.
Qed.

Lemma first_priority_range text table :
  In (first_priority text table) ("medium" :: map fst table).
Proof.
  induction table as [|[p kws] table IH]; simpl; [now left|].
  destruct (any_keyword text kws); [right; now left|].
  destruct IH as [H|H]; [now left | right; now right].
Qed.

(** The type label is one of nine words. *)
Lemma classify_issue_type_range title body :
  In (classify_issue_type title body)
     ["general"; "bug"; "feature"; "documentation"; "question";
      "performance"; "security"; "maintenance"; "ci/cd"].
Proof. apply (classify_with_range Config.ISSUE_LABELS). Qed.

Lemma determine_priority_range title body :
  In (determine_priority title body) ["critical"; "high"; "medium"; "low"].
Proof.
  destruct (first_priority_range (combined_text title body)
              Config.PRIORITY_KEYWORDS) as [H|H].
  - right. right. left. exact H.
  - simpl in H. unfold determine_priority. simpl. tauto.
Qed.

(** X1. A pull request is typed by the first of five keyword lists that
    hits the lower-cased title and body: the type is one of six words; it
    is "bugfix" exactly when "fix", "bug", "error" or "issue" occurs,
    whatever else the text says; and the keywords "feature",
    "documentation" and "testing" never decide, each containing a shorter
    keyword of its own list. *)
Theorem classify_pr_type_chain (title body : string) :
  let text := lower (title ++ " " ++ body)%string in
  In (_classify_pr_type title body)
     ["bugfix"; "feature"; "documentation"; "refactor"; "test";
      "enhancement"]
  /\ (_classify_pr_type title body = "bugfix"
      <-> exists w, In w ["fix"; "bug"; "error"; "issue"]
                    /\ substring_of w text)
  /\ _classify_pr_type title body = pr_type_short_lists title body.
Proof.
  intros text. unfold _classify_pr_type, pr_type_short_lists. fold text.
  split; [|split].
  - repeat match goal with
           | |- context [if ?b then _ else _] => destruct b
           end; simpl; tauto.
  - rewrite <- any_keyword_iff.
    destruct (any_keyword text ["fix"; "bug"; "error"; "issue"]).
    + split; reflexivity.
    + split; [|discriminate].
      repeat match goal with
             | |- context [if ?b then _ else _] => destruct b
             end; discriminate.
  - assert (Hfeat : contains "feature" text = true ->
                    contains "feat" text = true)
      by (apply contains_longer; exists "", "ure"; reflexivity).
    assert (Hdoc : contains "documentation" text = true ->
                   contains "doc" text = true)
      by (apply contains_longer; exists "", "umentation"; reflexivity).
    assert (Htest : contains "testing" text = true ->
                    contains "test" text = true)
      by (apply contains_longer; exists "", "ing"; reflexivity).
    unfold any_keyword. cbn [existsb].
    destruct (contains "feat" text), (contains "feature" text),
      (contains "doc" text), (contains "documentation" text),
      (contains "test" text), (contains "testing" text);
      try reflexivity;
      try (specialize (Hfeat eq_refl); discriminate Hfeat);
      try (specialize (Hdoc eq_refl); discriminate Hdoc);
      try (specialize (Htest eq_refl); discriminate Htest).
Qed.
End LabelingFacts.

Section LabelClaims.
Import PyStr IssueClassifier Components SmartIssueBot Labeling.

Lemma component_label_prefix components l :
  In l (component_labels components) ->
  exists x, l = ("component:" ++ x)%string.
Proof.
  unfold component_labels. intros H. apply in_map_iff in H.
  destruct H as (x & <- & _). now exists x.
Qed.

Lemma analyze_sentiment_negative polarity text :
  analyze_sentiment polarity text = "negative"
  <-> (polarity text < - (3 # 10))%Q.
Proof.
  unfold analyze_sentiment.
  destruct (Qle_bool (- (3 # 10)) (polarity text)) eqn:E; simpl.
  - apply Qle_bool_iff in E. split.
    + destruct (negb (Qle_bool (polarity text) (3 # 10))); discriminate.
    + intros H. lra.
  - split; [|reflexivity]. intros _.
    apply Qnot_le_lt. intros H. apply Qle_bool_iff in H. congruence.
Qed.

(** X2. The labels put on an issue: the type label comes first; there are
    between one and six labels; "needs-attention" is among them exactly
    when the polarity of the text is below -0.3; "priority:medium" is never
    applied, and the priority label is applied exactly when the priority
    is not "medium". *)
Theorem issue_labels_shape (polarity : string -> Q)
        (title body : string) (components : list string) :
  let labels := issue_labels_to_add polarity title body components in
  hd_error labels = Some (classify_issue_type title body)
  /\ 1 <= List.length labels <= 6
  /\ (In "needs-attention" labels
      <-> (polarity (title ++ " " ++ body)%string < - (3 # 10))%Q)
  /\ ~ In "priority:medium" labels
  /\ (In ("priority:" ++ determine_priority title body)%string labels
      <-> determine_priority title body <> "medium").
Proof.
  intros labels. subst labels. unfold issue_labels_to_add.
  pose proof (classify_issue_type_range title body) as Ht.
  pose proof (determine_priority_range title body) as Hp.
  pose proof (component_labels_length components) as Hc.
  pose proof (component_label_prefix components) as Hpre.
  pose proof (analyze_sentiment_negative polarity
                (title ++ " " ++ body)%string) as Hs.
  set (t := classify_issue_type title body) in *.
  set (p := determine_priority title body) in *.
  set (s := analyze_sentiment polarity (title ++ " " ++ body)%string) in *.
  set (cl := component_labels components) in *.
  clearbody t p s cl.
  assert (Hcl : forall l, In l cl ->
            l <> "needs-attention" /\ l <> "priority:medium"
            /\ l <> ("priority:" ++ p)%string).
  { intros l Hl. destruct (Hpre l Hl) as [x ->].
    repeat split; discriminate. }
  assert (Htn : t <> "needs-attention" /\ t <> "priority:medium"
                /\ t <> ("priority:" ++ p)%string).
  { simpl in Ht. repeat destruct Ht as [Ht|Ht]; try destruct Ht;
      repeat split; discriminate. }
  destruct Htn as (Ht1 & Ht2 & Ht3).
  assert (Hsneg : (s =? "negative")%string = true
                  <-> (polarity (title ++ " " ++ body)%string
                       < - (3 # 10))%Q)
    by (rewrite String.eqb_eq; exact Hs).
  split; [reflexivity|]. split.
  { rewrite !length_app. cbn [List.length].
    destruct (p =? "medium")%string, (s =? "negative")%string;
      cbn [List.length]; lia. }
  assert (Hin : forall x,
             In x ([t] ++ (if (p =? "medium")%string then []
                           else [("priority:" ++ p)%string])
                       ++ (if (s =? "negative")%string
                           then ["needs-attention"] else []) ++ cl)
             <-> x = t
                 \/ ((p =? "medium")%string = false
                     /\ x = ("priority:" ++ p)%string)
                 \/ ((s =? "negative")%string = true
                     /\ x = "needs-attention")
                 \/ In x cl).
  { intros x. rewrite !in_app_iff.
    destruct (p =? "medium")%string, (s =? "negative")%string; simpl;
      intuition (try discriminate; auto). }
  split; [|split].
  - rewrite Hin, <- Hsneg. split.
    + intros [H|[[_ H]|[[H _]|H]]].
      * now symmetry in H.
      * discriminate H.
      * exact H.
      * exfalso. destruct (Hcl _ H) as (N1 & _ & _). now apply N1.
    + intros E. right. right. left. now split.
  - rewrite Hin. intros [H|[[E H]|[[_ H]|H]]].
    + now symmetry in H.
    + apply String.eqb_neq in E. apply E.
      simpl in H. now injection H.
    + discriminate H.
    + destruct (Hcl _ H) as (_ & N2 & _). now apply N2.
  - rewrite Hin. split.
    + intros [H|[[E _]|[[_ H]|H]]].
      * now symmetry in H.
      * now apply String.eqb_neq.
      * discriminate H.
      * exfalso. destruct (Hcl _ H) as (_ & _ & N3). now apply N3.
    + intros E. apply String.eqb_neq in E. right. left. now split.
Qed.

(** X3. A pull request always gets exactly two labels: its type, one of
    six words, and then its size label, one of four. *)
Theorem pr_labels_exactly_two (title body : string) (pr : pull_request) :
  pr_labels_to_add title body pr
  = [_classify_pr_type title body; _determine_pr_size pr]
  /\ In (_classify_pr_type title body)
        ["bugfix"; "feature"; "documentation"; "refactor"; "test";
         "enhancement"]
  /\ In (_determine_pr_size pr)
        ["size:small"; "size:medium"; "size:large"; "size:xl"].
Proof.
  split; [|split].
  - unfold pr_labels_to_add, _determine_pr_size.
    repeat match goal with
           | |- context [(?a <? ?b)%Z] => destruct (a <? b)%Z
           end; reflexivity.
  - unfold _classify_pr_type.
    repeat match goal with
           | |- context [if ?b then _ else _] => destruct b
           end; simpl; tauto.
  - unfold _determine_pr_size.
    repeat match goal with
           | |- context [if ?b then _ else _] => destruct b
           end; simpl; tauto.
Qed.

Lemma before_colon_without_colon s :
  contains ":" s = false -> before_colon s = s.
Proof.
  induction s as [|c s IH]; [reflexivity|].
  cbn [contains starts_with before_colon].
  rewrite Ascii.eqb_sym. destruct (Ascii.eqb c ":"%char); simpl.
  - destruct s; discriminate.
  - intros H. rewrite IH; [reflexivity|].
    destruct s; simpl in *; exact H.
Qed.

Lemma label_color_lookup (label_name : string) :
  label_color label_name = dict_get label_name color_map "7057ff".
Proof.
  unfold label_color.
  destruct (contains ":" label_name) eqn:E; [reflexivity|].
  now rewrite (before_colon_without_colon label_name E).
Qed.

(** X4. The colour of a new label is the entry of the colour table under
    the whole label name, else the fallback "7057ff": the lookup under the
    part before the colon never decides. So every component label gets the
    fallback colour. *)
Theorem label_color_by_full_name :
  (forall label_name : string,
      label_color label_name = dict_get label_name color_map "7057ff")
  /\ (forall component : string,
         label_color ("component:" ++ component) = "7057ff").
Proof.
  split; [exact label_color_lookup|].
  intros c. rewrite label_color_lookup. reflexivity.
Qed.

Lemma create_if_missing_calls host n call :
  In call (_create_label_if_not_exists host n) ->
  call = get_label n
  \/ (get_label_ok host n = false
      /\ call = create_label n (dict_get n color_map "7057ff")).
Proof.
  unfold _create_label_if_not_exists. rewrite label_color_lookup.
  destruct (get_label_ok host n); simpl; intuition auto.
Qed.

Lemma create_if_missing_shape host n :
  _create_label_if_not_exists host n
  = get_label n
      :: (if get_label_ok host n then []
          else [create_label n (dict_get n color_map "7057ff")]).
Proof.
  unfold _create_label_if_not_exists. rewrite label_color_lookup.
  now destruct (get_label_ok host n).
Qed.

Lemma lookups_begin_with_a_lookup host labels :
  flat_map (_create_label_if_not_exists host) labels = []
  \/ exists n rest,
      flat_map (_create_label_if_not_exists host) labels
      = get_label n :: rest.
Proof.
  destruct labels as [|l ls]; [now left|]. right.
  cbn [flat_map]. rewrite create_if_missing_shape. cbn [app]. eauto.
Qed.

Lemma looked_up_lookups host labels :
  looked_up (flat_map (_create_label_if_not_exists host) labels) = labels.
Proof.
  unfold looked_up. induction labels as [|l ls IH]; [reflexivity|].
  cbn [flat_map]. rewrite flat_map_app, IH, create_if_missing_shape.
  now destruct (get_label_ok host l).
Qed.

Lemma after_a_lookup host labels : forall pre n post,
  flat_map (_create_label_if_not_exists host) labels
  = pre ++ get_label n :: post ->
  if get_label_ok host n
  then post = [] \/ exists n' post', post = get_label n' :: post'
  else exists post',
      post = create_label n (dict_get n color_map "7057ff") :: post'.
Proof.
  induction labels as [|l ls IH]; intros pre n post H.
  - destruct pre; discriminate H.
  - cbn [flat_map] in H. rewrite create_if_missing_shape in H.
    destruct pre as [|x pre]; cbn [app] in H.
    + injection H as -> H.
      destruct (get_label_ok host n); cbn [app] in H.
      * subst post. apply lookups_begin_with_a_lookup.
      * eauto.
    + injection H as _ H.
      destruct (get_label_ok host l); cbn [app] in H.
      * exact (IH _ _ _ H).
      * destruct pre as [|y pre]; cbn [app] in H; [discriminate H|].
        injection H as _ H. exact (IH _ _ _ H).
Qed.

Lemma before_a_creation host labels : forall pre n c post,
  flat_map (_create_label_if_not_exists host) labels
  = pre ++ create_label n c :: post ->
  get_label_ok host n = false
  /\ c = dict_get n color_map "7057ff"
  /\ exists pre', pre = pre' ++ [get_label n].
Proof.
  induction labels as [|l ls IH]; intros pre n c post H.
  - destruct pre; discriminate H.
  - cbn [flat_map] in H. rewrite create_if_missing_shape in H.
    destruct pre as [|x pre]; cbn [app] in H; [discriminate H|].
    injection H as <- H.
    destruct (get_label_ok host l) eqn:Eok; cbn [app] in H.
    + destruct (IH _ _ _ _ H) as (Hn & Hc & pre' & ->).
      split; [exact Hn|]. split; [exact Hc|]. now exists (get_label l :: pre').
    + destruct pre as [|y pre]; cbn [app] in H.
      * injection H as <- <- _. split; [exact Eok|]. split; [reflexivity|].
        now exists [].
      * injection H as <- H.
        destruct (IH _ _ _ _ H) as (Hn & Hc & pre' & ->).
        split; [exact Hn|]. split; [exact Hc|].
        now exists (get_label l
                      :: create_label l (dict_get l color_map "7057ff")
                      :: pre').
Qed.

Lemma split_in_front {A : Type} (x : A) (back : list A) :
  ~ In x back ->
  forall pre front post,
    front ++ back = pre ++ x :: post ->
    exists post', front = pre ++ x :: post' /\ post = post' ++ back.
Proof.
  intros Hx. induction pre as [|p pre IH]; intros [|y front] post H;
    cbn [app] in H.
  - exfalso. apply Hx. rewrite H. now left.
  - injection H as -> <-. now exists front.
  - exfalso. apply Hx. rewrite H. right. apply in_elt.
  - injection H as -> H. destruct (IH _ _ H) as (post' & -> & ->).
    now exists post'.
Qed.

(** X5. Applying the labels of an issue. The calls are, in this order:
    the lookups and creations, [set_labels] once with the whole list
    (whatever happened to the creations), and last the comment, which is
    posted exactly when [set_labels] returned. The labels are looked up
    one after the other in the order of the list, each once; a lookup
    that fails is followed at once by the creation of that label with the
    colour of the table, and a lookup that succeeds by the next lookup or
    by [set_labels]; there is no creation but right after the failed
    lookup of its label. *)
Theorem apply_issue_labels_calls (host : label_host)
        (labels : list string) (issue_type priority : string)
        (components : list string) :
  let calls :=
    apply_issue_labels host labels issue_type priority components in
  (exists lookups,
      calls
      = lookups
          ++ set_labels labels
          :: (if set_labels_ok host
              then [create_comment
                      (_generate_auto_label_comment issue_type priority
                                                    components)]
              else [])
      /\ forall call,
          In call lookups ->
          exists n,
            In n labels
            /\ (call = get_label n
                \/ call = create_label n (dict_get n color_map "7057ff")))
  /\ looked_up calls = labels
  /\ (forall pre n post,
         calls = pre ++ get_label n :: post ->
         if get_label_ok host n
         then exists call post',
             post = call :: post'
             /\ (call = set_labels labels \/ exists n', call = get_label n')
         else exists post',
             post = create_label n (dict_get n color_map "7057ff") :: post')
  /\ (forall pre n c post,
         calls = pre ++ create_label n c :: post ->
         get_label_ok host n = false
         /\ c = dict_get n color_map "7057ff"
         /\ exists pre', pre = pre' ++ [get_label n]).
Proof.
  intros calls. subst calls. unfold apply_issue_labels.
  set (lookups := flat_map (_create_label_if_not_exists host) labels).
  set (back := [set_labels labels]
               ++ (if set_labels_ok host
                   then [create_comment
                           (_generate_auto_label_comment
                              issue_type priority components)]
                   else [])).
  assert (Hback : forall call,
             In call back ->
             call = set_labels labels \/ exists text, call = create_comment text).
  { subst back. intros call [<-|H]; [now left|].
    destruct (set_labels_ok host); [|destruct H].
    destruct H as [<-|[]]. right. eauto. }
  split; [|split; [|split]].
  - exists lookups. split; [reflexivity|].
    intros call H. apply in_flat_map in H. destruct H as (n & Hn & H).
    exists n. split; [exact Hn|].
    apply create_if_missing_calls in H. tauto.
  - unfold looked_up. rewrite flat_map_app.
    fold (looked_up lookups). subst lookups. rewrite looked_up_lookups.
    subst back. destruct (set_labels_ok host); apply app_nil_r.
  - intros pre n post H.
    assert (Hnot : ~ In (get_label n) back).
    { intros Hin. destruct (Hback _ Hin) as [E|[text E]]; discriminate E. }
    destruct (split_in_front _ back Hnot pre lookups post H)
      as (post' & Hl & ->).
    pose proof (after_a_lookup host labels pre n post' Hl) as Hnext.
    destruct (get_label_ok host n).
    + destruct Hnext as [->|(n' & p & ->)].
      * exists (set_labels labels). subst back. cbn [app]. eauto.
      * exists (get_label n'). cbn [app]. eauto.
    + destruct Hnext as (p & ->). cbn [app]. eauto.
  - intros pre n c post H.
    assert (Hnot : ~ In (create_label n c) back).
    { intros Hin. destruct (Hback _ Hin) as [E|[text E]]; discriminate E. }
    destruct (split_in_front _ back Hnot pre lookups post H)
      as (post' & Hl & ->).
    exact (before_a_creation host labels pre n c post' Hl).
Qed.

Lemma substring_of_app_r x l m :
  substring_of x m -> substring_of x (l ++ m).
Proof.
  intros (a & b & ->). exists (l ++ a)%string, b.
  now rewrite string_app_assoc.
Qed.

Lemma substring_of_app_l x m r :
  substring_of x m -> substring_of x (m ++ r).
Proof.
  intros (a & b & ->). exists a, (b ++ r)%string.
  now rewrite !string_app_assoc.
Qed.

Lemma substring_of_refl x : substring_of x x.
Proof.
  exists EmptyString, EmptyString. simpl.
  induction x as [|c x IH]; simpl; [reflexivity | now rewrite <- IH].
Qed.

Lemma join_comma_mentions items x :
  In x items -> substring_of x (join_comma items).
Proof.
  induction items as [|y items IH]; intros H; [destruct H|].
  destruct items as [|z items].
  - destruct H as [->|[]]. apply substring_of_refl.
  - cbn [join_comma]. destruct H as [->|H].
    + apply substring_of_app_l, substring_of_refl.
    + apply substring_of_app_r, substring_of_app_r. now apply IH.
Qed.

(** X6. The comment posted on an issue names its type, its priority and
    every extracted component, also those beyond the three that are
    turned into labels. *)
Theorem comment_mentions_everything (issue_type priority : string)
        (components : list string) :
  let comment :=
    _generate_auto_label_comment issue_type priority components in
  substring_of ("- **Type**: " ++ issue_type) comment
  /\ substring_of ("- **Priority**: " ++ priority) comment
  /\ (forall component,
         In component components -> substring_of component comment)
  /\ (components <> [] ->
      substring_of ("- **Components**: " ++ join_comma components) comment).
Proof.
  intros comment. subst comment. unfold _generate_auto_label_comment.
  split; [|split; [|split]].
  - do 4 apply substring_of_app_r.
    rewrite <- string_app_assoc. apply substring_of_app_l, substring_of_refl.
  - do 7 apply substring_of_app_r.
    rewrite <- string_app_assoc. apply substring_of_app_l, substring_of_refl.
  - intros c Hc. destruct components as [|y ys]; [destruct Hc|].
    do 10 apply substring_of_app_r. apply substring_of_app_l.
    apply substring_of_app_r, substring_of_app_l.
    now apply join_comma_mentions.
  - intros Hne. destruct components as [|y ys]; [congruence|].
    do 10 apply substring_of_app_r. apply substring_of_app_l.
    rewrite <- string_app_assoc. apply substring_of_app_l, substring_of_refl.
Qed.
End LabelClaims.

(** ** From a payload to the classification *)

Section PipelineFacts.
Import PyStr Pipeline.

Lemma is_str_iff s v : is_str s v = true <-> v = JStr s.
Proof.
  destruct v; simpl; try (split; [discriminate | intros H; discriminate H]).
  rewrite String.eqb_eq. split; [now intros -> | now intros [= ->]].
Qed.

(** What a payload must hold for the bot to go on. *)
Lemma read_payload_some entity data repo_name number title body :
  read_payload entity data = Returns (Some (repo_name, number, title, body)) ->
  exists fields action entity_data repository body0,
    data = JObj fields
    /\ lookup_field "action" fields = Some (JStr action)
    /\ (action = "opened" \/ action = "edited")
    /\ lookup_field entity fields = Some entity_data
    /\ lookup_field "repository" fields = Some repository
    /\ py_item repository "full_name" = Returns repo_name
    /\ py_item entity_data "number" = Returns number
    /\ py_item entity_data "title" = Returns title
    /\ py_item entity_data "body" = Returns body0
    /\ body = py_or body0 (JStr EmptyString).
Proof.
  unfold read_payload. destruct data as [| | | | |fields]; try discriminate.
  cbn [py_get bind].
  destruct (lookup_field "action" fields) as [action|] eqn:Ea; cbn [bind];
    [|destruct (lookup_field entity fields); discriminate].
  assert (Hact : is_str "opened" action || is_str "edited" action = true ->
                 exists a, action = JStr a /\ (a = "opened" \/ a = "edited")).
  { rewrite orb_true_iff, !is_str_iff. intros [->| ->]; eauto. }
  destruct (is_str "opened" action || is_str "edited" action);
    [|destruct (lookup_field entity fields); discriminate].
  destruct (Hact eq_refl) as (a & -> & Ha).
  destruct (lookup_field entity fields) as [entity_data|] eqn:Ee;
    cbn [bind negb py_item].
  - destruct (lookup_field "repository" fields) as [repository|] eqn:Er;
      cbn [bind]; [|discriminate].
    destruct (py_item repository "full_name") as [r|] eqn:E1; cbn [bind];
      [|discriminate].
    destruct (py_item entity_data "number") as [n|] eqn:E2; cbn [bind];
      [|discriminate].
    destruct (py_item entity_data "title") as [t|] eqn:E3; cbn [bind];
      [|discriminate].
    destruct (py_item entity_data "body") as [b|] eqn:E4; cbn [bind];
      [|discriminate].
    intros [= <- <- <- <-].
    exists fields, a, entity_data, repository, b. repeat split; auto.
  - destruct (lookup_field "repository" fields) as [repository|];
      cbn [bind]; [|discriminate].
    destruct (py_item repository "full_name"); cbn [bind]; discriminate.
Qed.

Lemma py_or_never_null body0 :
  truthy (py_or body0 (JStr EmptyString)) = true
  \/ py_or body0 (JStr EmptyString) = JStr EmptyString.
Proof. unfold py_or. destruct (truthy body0) eqn:E; auto. Qed.

(** X7. [process_issue] turns to the host only for a payload that is an
    object with the action "opened" or "edited", a repository with a full
    name, and an issue with number, title and body; the calls are then a
    prefix of: repository lookup, issue lookup, classification; the
    classification is reached only when both lookups found their object,
    and its body is never a false value other than the empty string. *)
Theorem process_issue_needs_full_payload (host : bot_host) (data : json) :
  (process_issue host data <> [] ->
   exists fields action issue_data repository repo_name number title body,
     data = JObj fields
     /\ lookup_field "action" fields = Some (JStr action)
     /\ (action = "opened" \/ action = "edited")
     /\ lookup_field "issue" fields = Some issue_data
     /\ lookup_field "repository" fields = Some repository
     /\ py_item repository "full_name" = Returns repo_name
     /\ py_item issue_data "number" = Returns number
     /\ py_item issue_data "title" = Returns title
     /\ py_item issue_data "body" = Returns body
     /\ exists rest,
         [get_repo repo_name; get_issue repo_name number;
          classify_and_label_issue repo_name number title
                                   (py_or body (JStr EmptyString))]
         = process_issue host data ++ rest)
  /\ (forall r n t b,
         In (classify_and_label_issue r n t b) (process_issue host data) ->
         repo_found host r = true /\ issue_found host r n = true
         /\ (truthy b = true \/ b = JStr EmptyString)).
Proof.
  unfold process_issue.
  destruct (read_payload "issue" data) as [[[[[r n] t] b]|]|] eqn:E;
    try (split; [congruence | intros ? ? ? ? []]).
  destruct (read_payload_some _ _ _ _ _ _ E)
    as (fields & a & idata & repo & b0 & -> & Ha & Hact & Hi & Hr
        & H1 & H2 & H3 & H4 & ->).
  split.
  - intros _. exists fields, a, idata, repo, r, n, t, b0.
    repeat split; auto.
    destruct (repo_found host r); [|eexists; reflexivity].
    destruct (issue_found host r n); eexists; reflexivity.
  - intros r' n' t' b' H.
    destruct H as [H|H]; [discriminate H|].
    destruct (repo_found host r) eqn:Er; [|destruct H].
    destruct H as [H|H]; [discriminate H|].
    destruct (issue_found host r n) eqn:Ei; [|destruct H].
    destruct H as [H|[]]. injection H as <- <- <- <-.
    repeat split; auto. apply py_or_never_null.
Qed.

(** X8. The same for [process_pull_request], with the pull request in the
    place of the issue. *)
Theorem process_pull_request_needs_full_payload
        (host : bot_host) (data : json) :
  (process_pull_request host data <> [] ->
   exists fields action pr_data repository repo_name number title body,
     data = JObj fields
     /\ lookup_field "action" fields = Some (JStr action)
     /\ (action = "opened" \/ action = "edited")
     /\ lookup_field "pull_request" fields = Some pr_data
     /\ lookup_field "repository" fields = Some repository
     /\ py_item repository "full_name" = Returns repo_name
     /\ py_item pr_data "number" = Returns number
     /\ py_item pr_data "title" = Returns title
     /\ py_item pr_data "body" = Returns body
     /\ exists rest,
         [get_repo repo_name; get_pull repo_name number;
          classify_and_label_pr repo_name number title
                                (py_or body (JStr EmptyString))]
         = process_pull_request host data ++ rest)
  /\ (forall r n t b,
         In (classify_and_label_pr r n t b)
            (process_pull_request host data) ->
         repo_found host r = true /\ pull_found host r n = true
         /\ (truthy b = true \/ b = JStr EmptyString)).
Proof.
  unfold process_pull_request.
  destruct (read_payload "pull_request" data) as [[[[[r n] t] b]|]|] eqn:E;
    try (split; [congruence | intros ? ? ? ? []]).
  destruct (read_payload_some _ _ _ _ _ _ E)
    as (fields & a & idata & repo & b0 & -> & Ha & Hact & Hi & Hr
        & H1 & H2 & H3 & H4 & ->).
  split.
  - intros _. exists fields, a, idata, repo, r, n, t, b0.
    repeat split; auto.
    destruct (repo_found host r); [|eexists; reflexivity].
    destruct (pull_found host r n); eexists; reflexivity.
  - intros r' n' t' b' H.
    destruct H as [H|H]; [discriminate H|].
    destruct (repo_found host r) eqn:Er; [|destruct H].
    destruct H as [H|H]; [discriminate H|].
    destruct (pull_found host r n) eqn:Ei; [|destruct H].
    destruct H as [H|[]]. injection H as <- <- <- <-.
    repeat split; auto. apply py_or_never_null.
Qed.

Lemma mock_webhook_goes_nowhere host repo_name issue_number :
  process_issue host (mock_webhook repo_name issue_number) = [].
Proof. reflexivity. Qed.

(** X9. The manual analysis endpoint never reaches the host and never
    classifies anything, whatever it is sent: its synthetic payload has no
    title, so [process_issue] stops before the first call. The answer is
    still 200 when the posted object has both required fields. *)
Theorem analyze_issue_manually_reaches_nothing
        (host : bot_host) (get_json : outcome json) :
  snd (analyze_issue_manually host get_json) = []
  /\ (forall fields repo_name issue_number,
         get_json = Returns (JObj fields) ->
         lookup_field "repo_name" fields = Some repo_name ->
         lookup_field "issue_number" fields = Some issue_number ->
         analyze_issue_manually host get_json = (200, [])).
Proof.
  split.
  - unfold analyze_issue_manually.
    destruct get_json as [data|]; [|reflexivity]. cbn [bind].
    destruct (truthy data); [|reflexivity]. cbn [negb].
    destruct (py_in "repo_name" data) as [[|]|]; try reflexivity.
    cbn [bind negb].
    destruct (py_in "issue_number" data) as [[|]|]; try reflexivity.
    cbn [bind negb].
    destruct (py_item data "repo_name") as [r|]; [|reflexivity].
    cbn [bind].
    destruct (py_item data "issue_number") as [n|]; reflexivity.
  - intros fields r n -> Hr Hn. unfold analyze_issue_manually.
    cbn [bind py_in py_item]. rewrite Hr, Hn.
    destruct fields as [|f fields]; [discriminate Hr|]. reflexivity.
Qed.
End PipelineFacts.

Section WebhookPipeline.
Import PyStr Pipeline.

(** The event names of [webhook()] are compared as whole strings. *)
Lemma webhook_dispatch (event : string) (p : json) :
  match event with
  | "issues" => (200, [App.process_issue json p])
  | "pull_request" => (200, [App.process_pull_request json p])
  | "ping" => (200, [])
  | _ => (200, [])
  end
  = (200,
     if String.eqb event "issues" then [App.process_issue json p]
     else if String.eqb event "pull_request"
          then [App.process_pull_request json p]
          else []).
Proof.
  repeat match goal with
         | e : string |- _ =>
             destruct e as [|[b0 b1 b2 b3 b4 b5 b6 b7] e]; [reflexivity|];
             destruct b0; try reflexivity; destruct b1; try reflexivity;
             destruct b2; try reflexivity; destruct b3; try reflexivity;
             destruct b4; try reflexivity; destruct b5; try reflexivity;
             destruct b6; try reflexivity; destruct b7; try reflexivity
         end.
Qed.

Lemma webhook_verified hmac secret (req : App.request json) (p : json) :
  App.verify_webhook_signature hmac secret (App.data json req)
    (App.x_hub_signature_256 json req) = Returns true ->
  App.get_json json req = App.JsonPayload json p ->
  App.webhook hmac json secret req
  = (200,
     match App.x_github_event json req with
     | Some event =>
         if String.eqb event "issues" then [App.process_issue json p]
         else if String.eqb event "pull_request"
              then [App.process_pull_request json p]
              else []
     | None => []
     end).
Proof.
  intros Hv Hj. unfold App.webhook. rewrite Hv, Hj.
  destruct (App.x_github_event json req) as [event|];
    [exact (webhook_dispatch event p) | reflexivity].
Qed.

(** X10. One delivery to [/webhook] and the bot: a delivery that fails
    the signature check leads to no call at all; calls are made only for a
    verified delivery with a payload whose event is exactly "issues" or
    "pull_request", and they are those of the matching [process_] method;
    and a verified delivery with a payload is answered 200 whatever the
    bot could do with it. *)
Theorem webhook_calls_gate
        (hmac_sha256_hexdigest : string -> string -> string)
        (secret : option string) (host : bot_host)
        (req : App.request json) :
  let verified :=
    App.verify_webhook_signature hmac_sha256_hexdigest secret
      (App.data json req) (App.x_hub_signature_256 json req) in
  let calls := webhook_calls hmac_sha256_hexdigest secret host req in
  (verified <> Returns true -> calls = [])
  /\ (calls <> [] ->
      verified = Returns true
      /\ exists p,
          App.get_json json req = App.JsonPayload json p
          /\ ((App.x_github_event json req = Some "issues"
               /\ calls = process_issue host p)
              \/ (App.x_github_event json req = Some "pull_request"
                  /\ calls = process_pull_request host p)))
  /\ (forall p,
         verified = Returns true ->
         App.get_json json req = App.JsonPayload json p ->
         fst (App.webhook hmac_sha256_hexdigest json secret req) = 200).
Proof.
  intros verified calls. subst verified calls. unfold webhook_calls.
  destruct (App.verify_webhook_signature hmac_sha256_hexdigest secret
              (App.data json req) (App.x_hub_signature_256 json req))
    as [[|]|] eqn:Hv.
  - split; [congruence|]. split.
    + destruct (App.get_json json req) as [| |p] eqn:Hj.
      * unfold App.webhook. rewrite Hv, Hj. simpl. congruence.
      * unfold App.webhook. rewrite Hv, Hj. simpl. congruence.
      * rewrite (webhook_verified _ _ _ p Hv Hj). cbn [snd].
        intros Hne. split; [reflexivity|]. exists p. split; [reflexivity|].
        destruct (App.x_github_event json req) as [event|];
          [|now contradiction Hne].
        destruct (String.eqb_spec event "issues") as [E|E].
        { left. rewrite E. split; [reflexivity|].
          cbn [flat_map]. apply app_nil_r. }
        destruct (String.eqb_spec event "pull_request") as [E'|E'].
        { right. rewrite E'. split; [reflexivity|].
          cbn [flat_map]. apply app_nil_r. }
        now contradiction Hne.
    + intros p _ Hj. now rewrite (webhook_verified _ _ _ p Hv Hj).
  - split.
    + intros _. unfold App.webhook. now rewrite Hv.
    + split; [|discriminate].
      unfold App.webhook. rewrite Hv. simpl. congruence.
  - split.
    + intros _. unfold App.webhook. now rewrite Hv.
    + split; [|discriminate].
      unfold App.webhook. rewrite Hv. simpl. congruence.
Qed.
End WebhookPipeline.

(** ** Counters and rankings *)

Section CounterFacts.
Import RepositoryAnalyzer Activity.

Lemma total_count_increment key counter :
  total_count (increment key counter) = S (total_count counter).
Proof.
  unfold total_count. induction counter as [|[k n] counter IH]; simpl.
  - reflexivity.
  - destruct (String.eqb k key); simpl; [reflexivity|]. rewrite IH. lia.
Qed.

Lemma keys_increment key counter :
  map fst (increment key counter)
  = if existsb (String.eqb key) (map fst counter) then map fst counter
    else map fst counter ++ [key].
Proof.
  induction counter as [|[k n] counter IH]; simpl; [reflexivity|].
  rewrite (String.eqb_sym key k).
  destruct (String.eqb k key); simpl; [reflexivity|].
  rewrite IH. now destruct (existsb (String.eqb key) (map fst counter)).
Qed.

Lemma NoDup_increment key counter :
  NoDup (map fst counter) -> NoDup (map fst (increment key counter)).
Proof.
  intros H. rewrite keys_increment.
  destruct (existsb (String.eqb key) (map fst counter)) eqn:E; [exact H|].
  apply NoDup_app; [exact H | repeat constructor; intros [] |].
  intros x Hx [<-|[]].
  assert (existsb (String.eqb key) (map fst counter) = true)
    by (apply existsb_exists; exists key; split; auto; apply String.eqb_refl).
  congruence.
Qed.

Lemma positive_increment key counter :
  Forall (fun e => 0 < snd e) counter ->
  Forall (fun e => 0 < snd e) (increment key counter).
Proof.
  induction counter as [|[k n] counter IH]; simpl; intros F.
  - repeat constructor.
  - inversion F; subst. destruct (String.eqb k key).
    + constructor; [simpl; lia | assumption].
    + constructor; auto.
Qed.

Lemma count_fold keys : forall counter,
  let result := fold_left (fun c key => increment key c) keys counter in
  total_count result = total_count counter + List.length keys
  /\ (forall key, lookup0 key result
                  = lookup0 key counter + occurrences key keys)
  /\ (NoDup (map fst counter) -> NoDup (map fst result))
  /\ (Forall (fun e => 0 < snd e) counter ->
      Forall (fun e => 0 < snd e) result).
Proof.
  induction keys as [|k keys IH]; intros counter; cbn [fold_left].
  - repeat split; auto; unfold occurrences; simpl; lia.
  - destruct (IH (increment k counter)) as (H1 & H2 & H3 & H4).
    repeat split.
    + rewrite H1, total_count_increment. simpl. lia.
    + intros key. rewrite H2, lookup0_increment. unfold occurrences. simpl.
      rewrite (String.eqb_sym key k). destruct (String.eqb k key); simpl; lia.
    + intros Hn. apply H3. now apply NoDup_increment.
    + intros Hp. apply H4. now apply positive_increment.
Qed.

Lemma lookup0_of_entry key n counter :
  NoDup (map fst counter) -> In (key, n) counter -> lookup0 key counter = n.
Proof.
  induction counter as [|[k m] counter IH]; simpl; intros Hn Hin; [easy|].
  inversion Hn; subst. destruct Hin as [[= -> ->]|Hin].
  - now rewrite String.eqb_refl.
  - destruct (String.eqb_spec k key) as [->|_]; [|auto].
    exfalso. apply H1. apply in_map_iff. now exists (key, n).
Qed.

(** The counting loop: a key's count is its number of occurrences. *)
Lemma count_keys_spec keys :
  total_count (count_keys keys) = List.length keys
  /\ (forall key, lookup0 key (count_keys keys) = occurrences key keys)
  /\ NoDup (map fst (count_keys keys))
  /\ (forall key n, In (key, n) (count_keys keys) ->
                    n = occurrences key keys /\ 0 < n).
Proof.
  destruct (count_fold keys []) as (H1 & H2 & H3 & H4).
  fold (count_keys keys) in H1, H2, H3, H4.
  assert (Hn : NoDup (map fst (count_keys keys))) by (apply H3; constructor).
  assert (Hl : forall key, lookup0 key (count_keys keys)
                           = occurrences key keys)
    by (intros key; rewrite H2; reflexivity).
  split; [exact H1|]. split; [exact Hl|]. split; [exact Hn|].
  intros key n H. split.
  - rewrite <- Hl. symmetry. now apply lookup0_of_entry.
  - specialize (H4 (Forall_nil _)). rewrite Forall_forall in H4.
    apply (H4 (key, n) H).
Qed.

Lemma insert_desc_perm x sorted : Permutation (insert_desc x sorted) (x :: sorted).
Proof.
  induction sorted as [|y rest IH]; simpl; [reflexivity|].
  destruct (snd y <=? snd x); [reflexivity|].
  rewrite IH. apply perm_swap.
Qed.

Lemma sorted_desc_perm items : Permutation (sorted_desc items) items.
Proof.
  induction items as [|x items IH]; simpl; [reflexivity|].
  rewrite insert_desc_perm. now constructor.
Qed.

Lemma insert_desc_sorted x sorted :
  StronglySorted falling sorted -> StronglySorted falling (insert_desc x sorted).
Proof.
  induction sorted as [|y rest IH]; simpl; intros S.
  - repeat constructor.
  - inversion S as [|? ? Srest Fy]; subst.
    destruct (Nat.leb_spec (snd y) (snd x)) as [Hle|Hgt].
    + constructor; [exact S|]. constructor; [exact Hle|].
      eapply Forall_impl; [|exact Fy]. unfold falling. intros; lia.
    + constructor; [now apply IH|].
      eapply Permutation_Forall; [symmetry; apply insert_desc_perm|].
      constructor; [unfold falling; lia | exact Fy].
Qed.

Lemma sorted_desc_sorted items : StronglySorted falling (sorted_desc items).
Proof.
  induction items as [|x items IH]; simpl; [constructor|].
  now apply insert_desc_sorted.
Qed.

Lemma firstn_sorted {A : Type} (R : A -> A -> Prop) n l :
  StronglySorted R l -> StronglySorted R (firstn n l).
Proof.
  revert l. induction n as [|n IH]; intros l S; [constructor|].
  destruct l as [|x l]; [constructor|].
  inversion S; subst. cbn [firstn]. constructor; [now apply IH|].
  rewrite Forall_forall in *. intros y Hy. apply H2.
  now apply (in_firstn n).
Qed.

Lemma firstn_dominates {A : Type} (R : A -> A -> Prop) n l a b :
  StronglySorted R l -> In a (firstn n l) -> In b (skipn n l) -> R a b.
Proof.
  revert l. induction n as [|n IH]; intros l S Ha Hb; [destruct Ha|].
  destruct l as [|x l]; [destruct Ha|].
  inversion S; subst. cbn [firstn skipn] in *. destruct Ha as [->|Ha].
  - rewrite Forall_forall in H2. apply H2.
    rewrite <- (firstn_skipn n l). apply in_or_app. now right.
  - now apply (IH l).
Qed.
End CounterFacts.

Section ActivityClaims.
Import PyStr RepositoryAnalyzer Activity.

Lemma substring_length n : forall s, String.length (substring 0 n s) <= n.
Proof.
  induction n as [|n IH]; intros [|c s]; simpl; try lia.
  specialize (IH s). lia.
Qed.

Lemma substring_chars n : forall s c,
  In c (list_ascii_of_string (substring 0 n s)) ->
  In c (list_ascii_of_string s).
Proof.
  induction n as [|n IH]; intros [|x s] c; simpl; try tauto.
  intros [->|H]; [now left | right; now apply IH].
Qed.

Lemma first_line_chars s c :
  In c (list_ascii_of_string (first_line s)) -> c <> ascii_of_nat 10.
Proof.
  induction s as [|x s IH]; simpl; [tauto|].
  destruct (Ascii.eqb_spec x (ascii_of_nat 10)) as [->|Hx]; simpl; [tauto|].
  intros [<-|H]; [exact Hx | now apply IH].
Qed.

Lemma chars_of_app a b :
  list_ascii_of_string (a ++ b)
  = list_ascii_of_string a ++ list_ascii_of_string b.
Proof. induction a as [|x a IH]; simpl; [reflexivity | now rewrite IH]. Qed.

(** X11. The commit report counts every commit once: the total is the
    number of commits, the per-day counts add up to it, a day's count is
    the number of commits of that day and no day is listed twice; at most
    50 commits are detailed, each with at most 7 characters of its hash
    and at most 100 characters of the first line of its message. *)
Theorem commit_activity_counts (commits : list commit) :
  let report := commit_activity_of commits in
  report_total_commits report = List.length commits
  /\ total_count (daily_commits report) = List.length commits
  /\ (forall d, lookup0 d (daily_commits report)
                = occurrences d (map day commits))
  /\ NoDup (map fst (daily_commits report))
  /\ List.length (commit_details report) <= 50
  /\ (forall detail,
         In detail (commit_details report) ->
         String.length (detail_sha detail) <= 7
         /\ String.length (detail_message detail) <= 100
         /\ ~ substring_of Labeling.newline (detail_message detail)
         /\ exists c, In c commits
                      /\ detail_author detail = author c
                      /\ substring_of (detail_sha detail) (sha c)).
Proof.
  intros report. subst report. unfold commit_activity_of.
  cbn [report_total_commits daily_commits commit_details].
  destruct (count_keys_spec (map day commits)) as (H1 & H2 & H3 & _).
  rewrite length_map in H1.
  split; [reflexivity|]. split; [exact H1|]. split; [exact H2|].
  split; [exact H3|]. split; [apply firstn_le_length|].
  intros detail Hd. apply in_firstn in Hd. apply in_map_iff in Hd.
  destruct Hd as (c & <- & Hc). cbn [detail_sha detail_message detail_author].
  split; [apply substring_length|]. split; [apply substring_length|].
  split.
  - intros (a & b & E).
    assert (Hin : In (ascii_of_nat 10)
                     (list_ascii_of_string
                        (substring 0 100 (first_line (message c))))).
    { rewrite E, !chars_of_app. apply in_or_app. right.
      apply in_or_app. left. now left. }
    apply substring_chars in Hin. now apply first_line_chars in Hin.
  - exists c. split; [exact Hc|]. split; [reflexivity|].
    exists EmptyString. cbn [append].
    clear. generalize (sha c) 7. intros s n. revert s.
    induction n as [|n IH]; intros [|x s]; simpl.
    + now exists EmptyString.
    + now exists (String x s).
    + now exists EmptyString.
    + destruct (IH s) as [r Hr]. exists r. now rewrite <- Hr.
Qed.

Lemma lookup0_positive_entry key counter :
  0 < lookup0 key counter -> In (key, lookup0 key counter) counter.
Proof.
  induction counter as [|[k n] counter IH]; simpl; [lia|].
  destruct (String.eqb_spec k key) as [->|_]; [now left|].
  intros H. right. now apply IH.
Qed.

Lemma occurrences_positive key keys : In key keys -> 0 < occurrences key keys.
Proof.
  unfold occurrences. induction keys as [|k keys IH]; simpl; [tauto|].
  intros [->|H].
  - rewrite String.eqb_refl. simpl. lia.
  - destruct (String.eqb key k); simpl; [lia | now apply IH].
Qed.

Lemma NoDup_firstn {A : Type} n (l : list A) : NoDup l -> NoDup (firstn n l).
Proof.
  intros H. rewrite <- (firstn_skipn n l) in H.
  now apply NoDup_app_remove_r in H.
Qed.

(** X12. A ranking of the [n] most frequent keys ([top_contributors] with
    10 authors, [most_common(10)] for labels): it has at most [n] entries,
    in falling order of count, no key twice; the count of a listed key is
    its number of occurrences; a key that occurs but is not listed occurs
    no more often than any listed key; and nothing is left out when there
    are at most [n] different keys. *)
Theorem top_ranking (n : nat) (keys : list string) :
  let ranking := top n (count_keys keys) in
  List.length ranking <= n
  /\ StronglySorted falling ranking
  /\ NoDup (map fst ranking)
  /\ (forall key count,
         In (key, count) ranking ->
         count = occurrences key keys /\ 0 < count)
  /\ (forall key,
         In key keys -> ~ In key (map fst ranking) ->
         forall k count, In (k, count) ranking ->
                         occurrences key keys <= count)
  /\ (List.length (count_keys keys) <= n ->
      Permutation ranking (count_keys keys)).
Proof.
  intros ranking. subst ranking. unfold top.
  destruct (count_keys_spec keys) as (_ & Hl & Hn & He).
  pose proof (sorted_desc_perm (count_keys keys)) as Hp.
  pose proof (sorted_desc_sorted (count_keys keys)) as Hs.
  split; [apply firstn_le_length|].
  split; [now apply firstn_sorted|].
  split.
  { rewrite <- firstn_map. apply NoDup_firstn.
    eapply Permutation_NoDup; [|exact Hn].
    apply Permutation_map. now symmetry. }
  split.
  { intros key count H. apply in_firstn in H. apply He.
    eapply Permutation_in; [exact Hp | exact H]. }
  split.
  - intros key Hk Hout k count Hin.
    assert (Hpos : 0 < lookup0 key (count_keys keys))
      by (rewrite Hl; now apply occurrences_positive).
    apply lookup0_positive_entry in Hpos. rewrite Hl in Hpos.
    apply (Permutation_in _ (Permutation_sym Hp)) in Hpos.
    rewrite <- (firstn_skipn n (sorted_desc (count_keys keys))) in Hpos.
    apply in_app_or in Hpos. destruct Hpos as [Hpos|Hpos].
    + exfalso. apply Hout. apply in_map_iff.
      now exists (key, occurrences key keys).
    + apply (firstn_dominates falling n _ (k, count)
               (key, occurrences key keys) Hs Hin Hpos).
  - intros Hlen. rewrite firstn_all2; [exact Hp|].
    now rewrite (Permutation_length Hp).
Qed.
End ActivityClaims.

Section LabelStatistics.
Import PyStr RepositoryAnalyzer Activity.

Lemma label_fold labels : forall lc pc name,
  let '(lc', pc') :=
    fold_left
      (fun '(lc, pc) label =>
         (increment label lc,
          if starts_with "priority:" label then increment label pc else pc))
      labels (lc, pc) in
  lookup0 name lc' = lookup0 name lc + occurrences name labels
  /\ lookup0 name pc'
     = lookup0 name pc + priority_share name (occurrences name labels).
Proof.
  unfold priority_share, occurrences.
  induction labels as [|l labels IH]; intros lc pc name; cbn [fold_left].
  - cbn [filter List.length]. destruct (starts_with "priority:" name); lia.
  - specialize (IH (increment l lc)
                   (if starts_with "priority:" l then increment l pc else pc)
                   name).
    destruct (fold_left _ labels _) as [lc' pc'].
    destruct IH as [H1 H2]. rewrite H1, H2, lookup0_increment.
    cbn [filter]. rewrite (String.eqb_sym name l).
    destruct (String.eqb_spec l name) as [->|Hne]; cbn [List.length].
    + destruct (starts_with "priority:" name);
        rewrite ?lookup0_increment, ?String.eqb_refl; lia.
    + split; [lia|]. destruct (starts_with "priority:" l).
      * rewrite lookup0_increment.
        destruct (String.eqb_spec l name); [congruence | lia].
      * lia.
Qed.

Lemma label_loop_counts issues : forall lc pc name,
  let '(lc', pc') := label_loop issues lc pc in
  lookup0 name lc' = lookup0 name lc + occurrences name (List.concat issues)
  /\ lookup0 name pc'
     = lookup0 name pc
       + priority_share name (occurrences name (List.concat issues)).
Proof.
  induction issues as [|labels issues IH]; intros lc pc name;
    cbn [label_loop List.concat].
  - unfold priority_share, occurrences. cbn [filter List.length].
    destruct (starts_with "priority:" name); lia.
  - pose proof (label_fold labels lc pc name) as Hf.
    destruct (fold_left _ labels (lc, pc)) as [lc1 pc1].
    specialize (IH lc1 pc1 name).
    destruct (label_loop issues lc1 pc1) as [lc' pc'].
    destruct Hf as [F1 F2]. destruct IH as [H1 H2].
    rewrite H1, H2, F1, F2. unfold priority_share, occurrences.
    rewrite filter_app, length_app.
    destruct (starts_with "priority:" name); lia.
Qed.

Lemma label_fold_counts labels : forall lc pc,
  fst (fold_left
         (fun '(lc, pc) label =>
            (increment label lc,
             if starts_with "priority:" label then increment label pc
             else pc))
         labels (lc, pc))
  = fold_left (fun c key => increment key c) labels lc.
Proof.
  induction labels as [|l labels IH]; intros lc pc; cbn [fold_left];
    [reflexivity|].
  apply IH.
Qed.

Lemma label_loop_label_counts issues : forall lc pc,
  fst (label_loop issues lc pc)
  = fold_left (fun c key => increment key c) (List.concat issues) lc.
Proof.
  induction issues as [|labels issues IH]; intros lc pc;
    cbn [label_loop List.concat]; [reflexivity|].
  rewrite fold_left_app, <- (label_fold_counts labels lc pc).
  destruct (fold_left _ labels (lc, pc)) as [lc1 pc1]. cbn [fst].
  apply IH.
Qed.

(** X13. Label statistics of the issue report. The priority distribution
    counts a label that begins with "priority:" as often as issues carry
    it, and no other label. The label distribution lists at most ten
    labels, none twice, each with the number of times issues carry it; a
    priority label that is listed has the same count in both; a label
    that is carried but not listed, be it counted in the priority
    distribution, stands behind ten listed labels that are carried at
    least as often. *)
Theorem priority_counts_restrict_label_counts
        (issues : list (list string)) (name : string) :
  let '(label_distribution, priority_distribution) := label_report issues in
  let count := occurrences name (List.concat issues) in
  lookup0 name priority_distribution
  = (if starts_with "priority:" name then count else 0)
  /\ List.length label_distribution <= 10
  /\ NoDup (map fst label_distribution)
  /\ (forall n, In (name, n) label_distribution -> n = count /\ 0 < n)
  /\ (In name (map fst label_distribution) ->
      starts_with "priority:" name = true ->
      lookup0 name priority_distribution
      = lookup0 name label_distribution)
  /\ (0 < count -> ~ In name (map fst label_distribution) ->
      List.length label_distribution = 10
      /\ forall k n, In (k, n) label_distribution -> count <= n).
Proof.
  unfold label_report.
  pose proof (label_loop_counts issues [] [] name) as Hc.
  pose proof (label_loop_label_counts issues [] []) as Hl.
  destruct (label_loop issues [] []) as [lc pc]. cbn [fst] in Hl.
  fold (count_keys (List.concat issues)) in Hl. subst lc.
  destruct Hc as [_ Hpc]. unfold priority_share in Hpc.
  cbn [lookup0 Nat.add] in Hpc. cbv zeta.
  set (keys := List.concat issues) in *.
  destruct (count_keys_spec keys) as (_ & Hlk & Hn & He).
  pose proof (sorted_desc_perm (count_keys keys)) as Hp.
  pose proof (sorted_desc_sorted (count_keys keys)) as Hs.
  assert (Hnd : NoDup (map fst (top 10 (count_keys keys)))).
  { unfold top. rewrite <- firstn_map. apply NoDup_firstn.
    eapply Permutation_NoDup; [|exact Hn].
    apply Permutation_map. now symmetry. }
  assert (Hentry : forall n,
             In (name, n) (top 10 (count_keys keys)) ->
             n = occurrences name keys /\ 0 < n).
  { intros n H. unfold top in H. apply in_firstn in H. apply He.
    eapply Permutation_in; [exact Hp | exact H]. }
  split; [exact Hpc|]. split; [apply firstn_le_length|].
  split; [exact Hnd|]. split; [exact Hentry|]. split.
  - intros Hin Hprio. rewrite Hpc, Hprio.
    apply in_map_iff in Hin. destruct Hin as ([k n] & Hk & Hin).
    cbn [fst] in Hk. subst k.
    rewrite (lookup0_of_entry name n _ Hnd Hin).
    symmetry. now apply Hentry.
  - intros Hpos Hout.
    assert (Hin : In (name, occurrences name keys) (count_keys keys)).
    { rewrite <- Hlk in Hpos. apply lookup0_positive_entry in Hpos.
      now rewrite Hlk in Hpos. }
    apply (Permutation_in _ (Permutation_sym Hp)) in Hin.
    rewrite <- (firstn_skipn 10 (sorted_desc (count_keys keys))) in Hin.
    apply in_app_or in Hin. destruct Hin as [Hin|Hin].
    { exfalso. apply Hout. apply in_map_iff.
      now exists (name, occurrences name keys). }
    split.
    + unfold top. apply firstn_length_le.
      destruct (Nat.le_gt_cases 10
                  (List.length (sorted_desc (count_keys keys))))
        as [H|H]; [exact H|].
      rewrite skipn_all2 in Hin by lia. destruct Hin.
    + intros k n Hk.
      apply (firstn_dominates falling 10 _ (k, n)
               (name, occurrences name keys) Hs Hk Hin).
Qed.

End LabelStatistics.

Section MonthFacts.
Import RepositoryAnalyzer Activity.
Variable month_of : Z -> string.

Lemma month_entry_bump m key f d :
  month_entry m (bump key f d)
  = if String.eqb key m then f (month_entry m d) else month_entry m d.
Proof.
  induction d as [|[k v] d IH]; simpl.
  - destruct (String.eqb key m); reflexivity.
  - destruct (String.eqb_spec k key) as [->|Hk]; simpl.
    + destruct (String.eqb key m); reflexivity.
    + rewrite IH. destruct (String.eqb_spec k m) as [->|Hm]; [|reflexivity].
      destruct (String.eqb_spec key m); [congruence | reflexivity].
Qed.

Lemma totals_bump_opened key d :
  opened_total (bump key add_opened d) = S (opened_total d)
  /\ closed_total (bump key add_opened d) = closed_total d.
Proof.
  unfold opened_total, closed_total.
  induction d as [|[k [o c]] d [IH1 IH2]]; simpl; [auto|].
  destruct (String.eqb k key); simpl; [auto|]. rewrite IH1, IH2. lia.
Qed.

Lemma totals_bump_closed key d :
  opened_total (bump key add_closed d) = opened_total d
  /\ closed_total (bump key add_closed d) = S (closed_total d).
Proof.
  unfold opened_total, closed_total.
  induction d as [|[k [o c]] d [IH1 IH2]]; simpl; [auto|].
  destruct (String.eqb k key); simpl; [auto|]. rewrite IH1, IH2. lia.
Qed.

Lemma group_loop_counts issues : forall d m,
  let result := group_loop month_of issues d in
  fst (month_entry m result)
  = fst (month_entry m d)
    + List.length (filter (opened_in month_of m) issues)
  /\ snd (month_entry m result)
     = snd (month_entry m d)
       + List.length (filter (closed_in month_of m) issues)
  /\ opened_total result = opened_total d + List.length issues
  /\ closed_total result
     = closed_total d + List.length (filter ever_closed issues).
Proof.
  induction issues as [|i issues IH]; intros d m; cbn [group_loop].
  - simpl. lia.
  - set (d1 := bump (month_of (created_at i)) add_opened d).
    set (d2 := match closed_at i with
               | Some closed => bump (month_of closed) add_closed d1
               | None => d1
               end).
    destruct (IH d2 m) as (H1 & H2 & H3 & H4).
    rewrite H1, H2, H3, H4. clear IH H1 H2 H3 H4.
    assert (E1 : month_entry m d1
                 = if opened_in month_of m i
                   then add_opened (month_entry m d) else month_entry m d)
      by apply month_entry_bump.
    destruct (totals_bump_opened (month_of (created_at i)) d) as [T1 T2].
    fold d1 in T1, T2.
    cbn [filter]. unfold closed_in at 2, ever_closed at 2. subst d2.
    destruct (closed_at i) as [closed|].
    + rewrite month_entry_bump.
      destruct (totals_bump_closed (month_of closed) d1) as [T3 T4].
      rewrite T3, T4, T1, T2, E1.
      destruct (String.eqb (month_of closed) m), (opened_in month_of m i);
        cbn [List.length add_opened add_closed fst snd]; lia.
    + rewrite T1, T2, E1.
      destruct (opened_in month_of m i);
        cbn [List.length add_opened fst snd]; lia.
Qed.

(** X14. Issues by month: under every month stand the number of issues
    created in it and the number of issues closed in it, an issue created
    and closed in one month counting in both; over all months the opened
    counts add up to the number of issues and the closed counts to the
    number of issues that have a closing date. *)
Theorem group_issues_by_month_counts (issues : list issue) (m : string) :
  let months := _group_issues_by_month month_of issues in
  month_entry m months
  = (List.length (filter (opened_in month_of m) issues),
     List.length (filter (closed_in month_of m) issues))
  /\ opened_total months = List.length issues
  /\ closed_total months = List.length (filter ever_closed issues).
Proof.
  intros months. subst months. unfold _group_issues_by_month.
  destruct (group_loop_counts issues [] m) as (H1 & H2 & H3 & H4).
  split; [|split; [exact H3 | exact H4]].
  destruct (month_entry m (group_loop month_of issues [])) as [o c].
  simpl in H1, H2. now rewrite H1, H2.
Qed.
End MonthFacts.

(** ** Rates and distributions of the reports *)

Section ReportFacts.
Import RepositoryAnalyzer Activity.
Local Open Scope Q_scope.

Lemma percentage_range (part whole : nat) :
  (part <= whole)%nat -> 0 <= percentage part whole <= 100.
Proof.
  intros Hle. destruct whole as [|n]; [simpl; lra|].
  unfold percentage.
  assert (Hw : 0 < inject_Z (Z.of_nat (S n))).
  { change 0 with (inject_Z 0). rewrite <- Zlt_Qlt. lia. }
  assert (Hp : 0 <= inject_Z (Z.of_nat part)).
  { change 0 with (inject_Z 0). rewrite <- Zle_Qle. lia. }
  assert (Hpw : inject_Z (Z.of_nat part) <= inject_Z (Z.of_nat (S n))).
  { rewrite <- Zle_Qle. lia. }
  set (p := inject_Z (Z.of_nat part)) in *.
  set (w := inject_Z (Z.of_nat (S n))) in *. clearbody p w.
  assert (H0 : 0 <= p / w).
  { apply Qle_shift_div_l; [exact Hw | lra]. }
  assert (H1 : p / w <= 1).
  { apply Qle_shift_div_r; [exact Hw | lra]. }
  lra.
Qed.

Lemma filter_length_le {A : Type} (f : A -> bool) (l : list A) :
  (List.length (filter f l) <= List.length l)%nat.
Proof.
  induction l as [|x l IH]; simpl; [lia|]. destruct (f x); simpl; lia.
Qed.

Lemma open_closed_disjoint issues :
  (count_state "open" issues + count_state "closed" issues
   <= List.length issues)%nat.
Proof.
  unfold count_state. induction issues as [|i issues IH]; simpl; [lia|].
  destruct (String.eqb_spec (issue_state i) "open") as [E|_]; simpl.
  - rewrite E. simpl. lia.
  - destruct (String.eqb (issue_state i) "closed"); simpl; lia.
Qed.

(** X15. Whenever the issue report is produced, its counts are consistent
    and its rate is a percentage: the total is the number of issues, open
    and closed together never exceed it, the close rate is the share of
    closed issues in percent, between 0 and 100, and 0 without issues. *)
Theorem issue_report_rates (issues : list issue) (stats : issue_stats) :
  issue_analytics_of issues = Returns stats ->
  total_issues stats = List.length issues
  /\ (open_issues stats + closed_issues stats <= total_issues stats)%nat
  /\ close_rate stats = percentage (closed_issues stats) (total_issues stats)
  /\ 0 <= close_rate stats <= 100
  /\ (issues = [] -> close_rate stats = 0).
Proof.
  unfold issue_analytics_of.
  destruct (issue_loop issues [] []) as [[ct rt]|]; [|discriminate].
  cbn [bind]. rewrite !mean_or_zero_total, rate_percent_total. cbn [bind].
  intros [= <-].
  cbn [total_issues open_issues closed_issues close_rate].
  split; [reflexivity|]. split; [apply open_closed_disjoint|].
  split; [reflexivity|]. split.
  - apply percentage_range. unfold count_state. apply filter_length_le.
  - intros ->. reflexivity.
Qed.

Lemma pull_loop_is_count pulls : forall d mt,
  fst (pull_loop pulls d mt)
  = fold_left (fun c key => increment key c) (map size_bucket pulls) d.
Proof.
  induction pulls as [|pr pulls IH]; intros d mt; simpl; [reflexivity|].
  destruct (merged_at pr); apply IH.
Qed.

Lemma size_bucket_range pr :
  In (size_bucket pr) ["small"; "medium"; "large"; "xl"].
Proof.
  unfold size_bucket.
  repeat match goal with
         | |- context [(?a <? ?b)%Z] => destruct (a <? b)%Z
         end; simpl; tauto.
Qed.

Lemma occurrences_zero key keys :
  ~ In key keys -> occurrences key keys = 0%nat.
Proof.
  unfold occurrences. induction keys as [|k keys IH]; simpl; [reflexivity|].
  intros H. destruct (String.eqb_spec key k) as [->|_].
  - exfalso. apply H. now left.
  - apply IH. intros Hin. apply H. now right.
Qed.

(** X16. The pull-request report is always produced once the pull
    requests are read; its merge rate is the share of merged pull requests
    in percent, between 0 and 100; the size distribution counts every pull
    request once, lists only the sizes small, medium, large and xl, and
    lists a size only if at least one pull request has it. *)
Theorem pr_report_distribution (pulls : list pull_request) :
  exists stats,
    pr_analytics_of pulls = Returns stats
    /\ total_prs stats = List.length pulls
    /\ (merged_prs stats <= total_prs stats)%nat
    /\ merge_rate stats = percentage (merged_prs stats) (total_prs stats)
    /\ 0 <= merge_rate stats <= 100
    /\ total_count (pr_size_distribution stats) = List.length pulls
    /\ NoDup (map fst (pr_size_distribution stats))
    /\ (forall size n,
           In (size, n) (pr_size_distribution stats) ->
           In size ["small"; "medium"; "large"; "xl"] /\ (0 < n)%nat).
Proof.
  unfold pr_analytics_of.
  pose proof (pull_loop_is_count pulls [] []) as Hc.
  destruct (pull_loop pulls [] []) as [sizes mt]. cbn [fst] in Hc.
  rewrite rate_percent_total, mean_or_zero_total. cbn [bind].
  eexists. split; [reflexivity|].
  cbn [total_prs merged_prs merge_rate pr_size_distribution].
  fold (count_keys (map size_bucket pulls)) in Hc. subst sizes.
  destruct (count_keys_spec (map size_bucket pulls)) as (H1 & H2 & H3 & H4).
  rewrite length_map in H1.
  split; [reflexivity|]. split; [apply filter_length_le|].
  split; [reflexivity|].
  split; [apply percentage_range, filter_length_le|].
  split; [exact H1|]. split; [exact H3|].
  intros size n Hin. destruct (H4 size n Hin) as [Hn Hpos].
  split; [|exact Hpos].
  destruct (in_dec string_dec size (map size_bucket pulls)) as [Hs|Hs].
  - apply in_map_iff in Hs. destruct Hs as (pr & <- & _).
    apply size_bucket_range.
  - rewrite (occurrences_zero _ _ Hs) in Hn. lia.
Qed.
End ReportFacts.

(** ** How the health score moves with its signals *)

Section HealthOrderFacts.
Import RepositoryAnalyzer HealthOrder.
Local Open Scope Q_scope.

Lemma lt_bound_faster x y bound :
  pyfloat_le y x -> lt_bound x bound = true -> lt_bound y bound = true.
Proof.
  destruct x as [a|], y as [b|]; simpl; try easy.
  intros Hle H. destruct (Qle_bool bound a) eqn:Ea; [discriminate|].
  destruct (Qle_bool bound b) eqn:Eb; [|reflexivity].
  apply Qle_bool_iff in Eb.
  assert (Qle_bool bound a = true) by (apply Qle_bool_iff; lra).
  congruence.
Qed.

Lemma ladder_faster x y fast slow :
  pyfloat_le y x ->
  (if lt_bound x fast then 10 else if lt_bound x slow then 5 else 0)
  <= (if lt_bound y fast then 10 else if lt_bound y slow then 5 else 0).
Proof.
  intros Hle.
  pose proof (lt_bound_faster x y fast Hle) as Hf.
  pose proof (lt_bound_faster x y slow Hle) as Hs.
  destruct (lt_bound x fast), (lt_bound x slow),
    (lt_bound y fast), (lt_bound y slow);
    try lra; try (specialize (Hf eq_refl); discriminate);
    try (specialize (Hs eq_refl); discriminate).
Qed.

Lemma clamp_score_mono a b : a <= b -> clamp_score a <= clamp_score b.
Proof.
  intros H. unfold clamp_score.
  apply Q.min_le_compat_l, Q.max_le_compat_l, H.
Qed.

Lemma table_score_mono d1 s1 f1 c1 cr1 rt1 mr1 mt1 d2 s2 f2 c2 cr2 rt2 mr2 mt2 :
  (d1 = true -> d2 = true) ->
  (s1 <= s2)%Z -> (f1 <= f2)%Z -> (c1 <= c2)%nat ->
  cr1 <= cr2 -> pyfloat_le rt2 rt1 -> mr1 <= mr2 -> pyfloat_le mt2 mt1 ->
  table_score d1 s1 f1 c1 cr1 rt1 mr1 mt1
  <= table_score d2 s2 f2 c2 cr2 rt2 mr2 mt2.
Proof.
  intros Hd Hs Hf Hc Hcr Hrt Hmr Hmt. unfold table_score.
  apply Q.max_le_compat_l, Q.min_le_compat_l.
  unfold Qsum. cbn [fold_right].
  assert (A1 : (if d1 then 5 else 0) <= (if d2 then 5 else 0)).
  { destruct d1, d2; try lra; specialize (Hd eq_refl); discriminate. }
  assert (A2 : (if (s1 >? 10)%Z then 5 else 0)
               <= (if (s2 >? 10)%Z then 5 else 0)).
  { destruct (Z.gtb_spec s1 10), (Z.gtb_spec s2 10); try lra; lia. }
  assert (A3 : (if (f1 >? 5)%Z then 5 else 0)
               <= (if (f2 >? 5)%Z then 5 else 0)).
  { destruct (Z.gtb_spec f1 5), (Z.gtb_spec f2 5); try lra; lia. }
  assert (A4 : inject_Z (Z.of_nat (Nat.min c1 15))
               <= inject_Z (Z.of_nat (Nat.min c2 15))).
  { rewrite <- Zle_Qle. lia. }
  assert (A5 : Qmin 15 (cr1 * (15 # 100)) <= Qmin 15 (cr2 * (15 # 100))).
  { apply Q.min_le_compat_l. lra. }
  assert (A6 := ladder_faster rt1 rt2 24 72 Hrt).
  assert (A7 : Qmin 10 (mr1 * (1 # 10)) <= Qmin 10 (mr2 * (1 # 10))).
  { apply Q.min_le_compat_l. lra. }
  assert (A8 := ladder_faster mt1 mt2 48 168 Hmt).
  lra.
Qed.

(** X17. The health score never falls when a signal gets better: a
    description appears, stars, forks or recent commits grow, the close
    rate or the merge rate rises, the average response or merge time
    shrinks. *)
Theorem health_score_monotone
        (basic1 basic2 : option basic_stats)
        (activity1 activity2 : option commit_activity)
        (issues1 issues2 : option issue_stats)
        (prs1 prs2 : option pr_stats) :
  (sig_description basic1 = true -> sig_description basic2 = true) ->
  (sig_stars basic1 <= sig_stars basic2)%Z ->
  (sig_forks basic1 <= sig_forks basic2)%Z ->
  (sig_commits activity1 <= sig_commits activity2)%nat ->
  sig_close_rate issues1 <= sig_close_rate issues2 ->
  pyfloat_le (sig_response_time issues2) (sig_response_time issues1) ->
  sig_merge_rate prs1 <= sig_merge_rate prs2 ->
  pyfloat_le (sig_merge_time prs2) (sig_merge_time prs1) ->
  clamp_score (raw_score basic1 activity1 issues1 prs1)
  <= clamp_score (raw_score basic2 activity2 issues2 prs2).
Proof.
  intros. rewrite !raw_score_table. now apply table_score_mono.
Qed.

Lemma no_comments_no_sample issues :
  (forall i, In i issues -> comments i = Returns []) ->
  defined_values response_pair issues = [].
Proof.
  induction issues as [|i issues IH]; intros H; [reflexivity|].
  cbn [defined_values]. unfold response_pair at 1.
  rewrite (H i (or_introl eq_refl)). apply IH.
  intros j Hj. apply H. now right.
Qed.

Lemma no_merge_no_sample pulls :
  (forall pr, In pr pulls -> merged_at pr = None) ->
  defined_values merge_pair pulls = [].
Proof.
  induction pulls as [|pr pulls IH]; intros H; [reflexivity|].
  cbn [defined_values]. unfold merge_pair at 1.
  rewrite (H pr (or_introl eq_refl)). apply IH.
  intros j Hj. apply H. now right.
Qed.

(** X18. Silence is scored like speed. When no issue has a comment, the
    average response time of the report is 0 and the response ladder adds
    its full 10 points; when no pull request has been merged, the average
    merge time is 0 and the merge ladder adds its full 10 points. *)
Theorem silence_scores_full_points :
  (forall issues : list issue,
      (forall i, In i issues -> comments i = Returns []) ->
      exists stats,
        issue_analytics_of issues = Returns stats
        /\ avg_response_time_hours stats = 0
        /\ issue_points (Some stats)
           == Qmin 15 (close_rate stats * (15 # 100)) + 10)
  /\ (forall pulls : list pull_request,
         (forall pr, In pr pulls -> merged_at pr = None) ->
         exists stats,
           pr_analytics_of pulls = Returns stats
           /\ avg_merge_time_hours stats = 0
           /\ pr_points (Some stats)
              == Qmin 10 (merge_rate stats * (1 # 10)) + 10).
Proof.
  split.
  - intros issues H. unfold issue_analytics_of.
    rewrite (issue_loop_lists issues [] []).
    2:{ intros i Hi. rewrite (H i Hi). discriminate. }
    rewrite (no_comments_no_sample issues H). cbn [app bind].
    rewrite !mean_or_zero_total, rate_percent_total. cbn [bind].
    eexists. split; [reflexivity|]. split; [reflexivity|].
    unfold issue_points. cbn [avg_response_time_hours close_rate lt_bound].
    reflexivity.
  - intros pulls H. unfold pr_analytics_of.
    pose proof (pull_loop_times pulls [] []) as Ht.
    destruct (pull_loop pulls [] []) as [sizes mt]. cbn [snd app] in Ht.
    subst mt. rewrite (no_merge_no_sample pulls H).
    rewrite rate_percent_total, mean_or_zero_total. cbn [bind].
    eexists. split; [reflexivity|]. split; [reflexivity|].
    unfold pr_points. cbn [avg_merge_time_hours merge_rate lt_bound].
    reflexivity.
Qed.
End HealthOrderFacts.

(** ** Credentials *)

Section AuthFacts.
Import Auth.

(** X19. Which credentials are used. A complete GitHub App configuration
    wins over a token; without either, asking for a client raises before
    any login is tried. A failed login leaves nothing cached and is not
    followed by a second attempt with the other credentials: the token is
    tried only when the App is not configured. A client once obtained is
    returned again without a new login. *)
Theorem auth_precedence_and_cache
        (client : Type) (app_login token_login : outcome client)
        (c : config) (cached : option client) :
  let '(cache', result, calls) :=
    get_github_client client app_login token_login
                      (get_auth_method c) cached in
  (is_github_app_configured c = true -> get_auth_method c = Some github_app)
  /\ (get_auth_method c = None
      <-> is_github_app_configured c = false
          /\ is_set (GITHUB_TOKEN c) = false)
  /\ (get_auth_method c = None -> cached = None ->
      result = Raises /\ calls = [])
  /\ (result = Raises -> cache' = None)
  /\ (forall x, result = Returns x -> cache' = Some x)
  /\ (In call_token_login calls ->
      is_github_app_configured c = false /\ ~ In call_app_login calls)
  /\ (forall x, cached = Some x -> result = Returns x /\ calls = [])
  /\ (forall x,
         result = Returns x ->
         get_github_client client app_login token_login
                           (get_auth_method c) cache'
         = (Some x, Returns x, [])).
Proof.
  unfold get_github_client, get_auth_method.
  destruct cached as [x0|];
    destruct (is_github_app_configured c), (is_set (GITHUB_TOKEN c));
    destruct app_login as [a|], token_login as [t|];
    repeat split; intros; simpl in *;
    try tauto; try congruence; try (intuition congruence).
Qed.
End AuthFacts.

(** ** Repository setup *)

Section RepoSetupFacts.
Import RepoSetup.

Lemma create_missing_attempts existing create labels :
  let '(attempted, result) := create_missing existing create labels in
  (forall name, In name attempted ->
                In name labels /\ ~ In name existing)
  /\ ((forall name, create name <> OtherError) ->
      result = Returns tt
      /\ attempted
         = filter (fun n => negb (existsb (String.eqb n) existing)) labels).
Proof.
  induction labels as [|l labels IH]; cbn [create_missing filter].
  - split; [intros ? [] | auto].
  - destruct (existsb (String.eqb l) existing) eqn:E; cbn [negb].
    + destruct (create_missing existing create labels) as [att res].
      destruct IH as [IH1 IH2]. split.
      * intros name Hn. destruct (IH1 name Hn). split; [now right | auto].
      * exact IH2.
    + assert (Hl : ~ In l existing).
      { intros Hin.
        assert (existsb (String.eqb l) existing = true)
          by (apply existsb_exists; exists l; split; auto;
              apply String.eqb_refl).
        congruence. }
      destruct (create_missing existing create labels) as [att res].
      destruct IH as [IH1 IH2].
      destruct (create l) eqn:Ec.
      * split.
        -- intros name [<-|Hn]; [split; [now left | exact Hl]|].
           destruct (IH1 name Hn). split; [now right | auto].
        -- intros Hno. destruct (IH2 Hno) as [-> ->]. auto.
      * split.
        -- intros name [<-|Hn]; [split; [now left | exact Hl]|].
           destruct (IH1 name Hn). split; [now right | auto].
        -- intros Hno. destruct (IH2 Hno) as [-> ->]. auto.
      * split.
        -- intros name [<-|[]]. split; [now left | exact Hl].
        -- intros Hno. now contradiction (Hno l).
Qed.

(** X20. Setting up the standard labels: a label is created only if it is
    one of the twelve standard labels and not among the labels the
    repository already has; when no creation fails with anything but a
    [GithubException], every missing standard label is attempted, in the
    order of the table, and the result is [True], also when all of them
    failed; the result is [True] only if the repository and its labels
    could be read. *)
Theorem setup_labels_attempts
        (lookup : host_result unit) (get_labels : host_result (list string))
        (create_label : string -> host_result unit) :
  let '(ok, attempted) :=
    setup_repository_labels lookup get_labels create_label in
  (forall name,
      In name attempted ->
      In name standard_labels
      /\ exists existing, get_labels = Ok existing /\ ~ In name existing)
  /\ (forall existing,
         lookup = Ok tt -> get_labels = Ok existing ->
         (forall name, create_label name <> OtherError) ->
         ok = true
         /\ attempted
            = filter (fun n => negb (existsb (String.eqb n) existing))
                     standard_labels)
  /\ (ok = true ->
      lookup = Ok tt /\ exists existing, get_labels = Ok existing).
Proof.
  unfold setup_repository_labels, get_repository_safely.
  destruct lookup as [[]| |];
    try (split; [intros ? [] | split; [congruence | discriminate]]).
  destruct get_labels as [existing| |];
    try (split; [intros ? [] | split; [congruence | discriminate]]).
  pose proof (create_missing_attempts existing create_label standard_labels)
    as H.
  destruct (create_missing existing create_label standard_labels)
    as [attempted [[]|]]; destruct H as [H1 H2].
  - split; [|split].
    + intros name Hn. destruct (H1 name Hn). split; [auto|].
      now exists existing.
    + intros e _ [= <-] Hno. destruct (H2 Hno) as [_ ->]. auto.
    + intros _. split; [reflexivity | now exists existing].
  - split; [|split].
    + intros name Hn. destruct (H1 name Hn). split; [auto|].
      now exists existing.
    + intros e _ [= <-] Hno. destruct (H2 Hno) as [E _]. discriminate E.
    + discriminate.
Qed.

(** X21. Creating an issue template never overwrites one: the file is
    created only after the lookup of its path failed with a
    [GithubException], and its path is [.github/ISSUE_TEMPLATE/] followed
    by the file name of the template; for a template type other than
    "bug_report" and "feature_request" the result is [False] and no file
    call is made; a file found in place gives [True] with the lookup as
    the only call. *)
Theorem issue_template_never_overwrites
        (lookup : host_result unit) (template_type : string)
        (contents create : string -> host_result unit) :
  let '(ok, calls) :=
    create_issue_template lookup template_type contents create in
  (forall path,
      In (create_file path) calls ->
      contents path = GithubError
      /\ In (get_contents path) calls
      /\ exists filename,
          In (template_type, filename) templates
          /\ path = (".github/ISSUE_TEMPLATE/" ++ filename)%string)
  /\ (template_type <> "bug_report" ->
      template_type <> "feature_request" -> ok = false /\ calls = [])
  /\ (forall path,
         In (get_contents path) calls -> contents path = Ok tt ->
         ok = true /\ calls = [get_contents path])
  /\ (ok = true -> lookup = Ok tt).
Proof.
  unfold create_issue_template, get_repository_safely.
  destruct lookup as [[]| |];
    try (repeat split; try discriminate; intros; simpl in *; tauto).
  unfold templates. cbn [Labeling.dict_get].
  destruct (String.eqb_spec "bug_report" template_type) as [<-|Hb].
  { set (path := (".github/ISSUE_TEMPLATE/" ++ "bug_report.md")%string).
    destruct (contents path) as [[]| |] eqn:Ec;
      [| destruct (create path) as [[]| |] |];
      repeat split; try congruence; intros; simpl in *;
      repeat match goal with
             | H : _ \/ _ |- _ => destruct H
             | H : False |- _ => destruct H
             | H : get_contents _ = get_contents _ |- _ =>
                 injection H as <-
             | H : create_file _ = create_file _ |- _ =>
                 injection H as <-
             | H : get_contents _ = create_file _ |- _ => discriminate H
             | H : create_file _ = get_contents _ |- _ => discriminate H
             end;
      try congruence; try tauto;
      try (exists "bug_report.md"; split; [now left | reflexivity]). }
  destruct (String.eqb_spec "feature_request" template_type) as [<-|Hf].
  { set (path := (".github/ISSUE_TEMPLATE/" ++ "feature_request.md")%string).
    destruct (contents path) as [[]| |] eqn:Ec;
      [| destruct (create path) as [[]| |] |];
      repeat split; try congruence; intros; simpl in *;
      repeat match goal with
             | H : _ \/ _ |- _ => destruct H
             | H : False |- _ => destruct H
             | H : get_contents _ = get_contents _ |- _ =>
                 injection H as <-
             | H : create_file _ = create_file _ |- _ =>
                 injection H as <-
             | H : get_contents _ = create_file _ |- _ => discriminate H
             | H : create_file _ = get_contents _ |- _ => discriminate H
             end;
      try congruence; try tauto;
      try (exists "feature_request.md";
           split; [right; now left | reflexivity]). }
  repeat split; try congruence; intros; simpl in *; tauto.
Qed.
End RepoSetupFacts.

(** ** What the dashboard shows *)

Section DashboardFacts.
Import RepositoryAnalyzer Dashboard.
Local Open Scope Q_scope.

Lemma issue_rate_range issues stats :
  issue_analytics_of issues = Returns stats -> 0 <= close_rate stats <= 100.
Proof.
  unfold issue_analytics_of.
  destruct (issue_loop issues [] []) as [[ct rt]|]; [|discriminate].
  cbn [bind]. rewrite !mean_or_zero_total, rate_percent_total. cbn [bind].
  intros [= <-]. cbn [close_rate].
  apply percentage_range. unfold count_state. apply filter_length_le.
Qed.

Lemma pr_rate_range pulls stats :
  pr_analytics_of pulls = Returns stats -> 0 <= merge_rate stats <= 100.
Proof.
  unfold pr_analytics_of.
  destruct (pull_loop pulls [] []) as [sizes mt].
  rewrite rate_percent_total, mean_or_zero_total. cbn [bind].
  intros [= <-]. cbn [merge_rate].
  apply percentage_range, filter_length_le.
Qed.

Lemma sig_close_rate_range (h : host) :
  0 <= sig_close_rate (get_issue_analytics h) <= 100.
Proof.
  unfold get_issue_analytics.
  destruct (issues_fetch h) as [issues|]; cbn [bind try_except];
    [|simpl; lra].
  destruct (issue_analytics_of issues) as [stats|] eqn:E;
    cbn [bind try_except sig_close_rate]; [|lra].
  now apply (issue_rate_range issues).
Qed.

Lemma sig_merge_rate_range (h : host) :
  0 <= sig_merge_rate (get_pull_request_analytics h) <= 100.
Proof.
  unfold get_pull_request_analytics.
  destruct (pulls_fetch h) as [pulls|]; cbn [bind try_except];
    [|simpl; lra].
  destruct (pr_analytics_of pulls) as [stats|] eqn:E;
    cbn [bind try_except sig_merge_rate]; [|lra].
  now apply (pr_rate_range pulls).
Qed.

Lemma capped_count_range (n : nat) :
  0 <= Qmin 100 (inject_Z (Z.of_nat n)) <= 100.
Proof.
  assert (H : 0 <= inject_Z (Z.of_nat n)).
  { change 0 with (inject_Z 0). rewrite <- Zle_Qle. lia. }
  split; [apply Q.min_glb; [lra | exact H] | apply Q.le_min_l].
Qed.

(** X22. The dashboard words a score as the [/health] endpoint does: its
    status is the endpoint's status with a capital letter, for every
    score; and like the endpoint it never shows "Excellent" for a score
    the analyzer computed. *)
Theorem dashboard_status_agrees :
  (forall score : Q,
      display_status score = capitalize (App.health_status score))
  /\ (forall h : host,
         display_status (calculate_health_score h) <> "Excellent").
Proof.
  split.
  - intros score. unfold display_status, App.health_status.
    destruct (Qle_bool 90 score), (Qle_bool 75 score), (Qle_bool 60 score);
      reflexivity.
  - intros h. unfold display_status.
    assert (Hle : calculate_health_score h <= 75).
    { apply clamp_score_le; [lra | apply raw_score_le_75]. }
    destruct (Qle_bool 90 (calculate_health_score h)) eqn:E.
    + apply Qle_bool_iff in E. lra.
    + destruct (Qle_bool 75 (calculate_health_score h)),
        (Qle_bool 60 (calculate_health_score h)); discriminate.
Qed.

(** X23. Every value of the health radar lies on its axis, which runs
    from 0 to 100, whatever the host answered and however many
    contributors the report lists. *)
Theorem radar_values_on_axis (h : host) (contributors : nat)
        (name : string) (value : Q) :
  In (name, value)
     (radar_metrics (get_commit_activity h) (get_issue_analytics h)
                    (get_pull_request_analytics h) contributors) ->
  0 <= value <= 100.
Proof.
  unfold radar_metrics. cbn [In].
  pose proof (sig_close_rate_range h). pose proof (sig_merge_rate_range h).
  pose proof (capped_count_range
                (sig_commits (get_commit_activity h) * 5)).
  pose proof (capped_count_range (contributors * 10)).
  intros [E|[E|[E|[E|[E|[E|[]]]]]]]; injection E as _ <-;
    try assumption; lra.
Qed.
End DashboardFacts.

(** ** Contributor activity *)

Section ContributorFacts.
Import Activity Contributors.

Lemma tally_of_update name k f stats :
  tally_of name (update k f stats)
  = if String.eqb k name then f (tally_of name stats)
    else tally_of name stats.
Proof.
  induction stats as [|[k0 t] stats IH]; cbn [update tally_of].
  - reflexivity.
  - destruct (String.eqb_spec k0 k) as [->|Hk]; cbn [tally_of].
    + destruct (String.eqb k name); reflexivity.
    + rewrite IH. destruct (String.eqb_spec k0 name) as [->|Hn];
        [|reflexivity].
      destruct (String.eqb_spec k name) as [->|_];
        [contradiction | reflexivity].
Qed.

Lemma keys_update name k f stats :
  In name (map fst (update k f stats))
  <-> name = k \/ In name (map fst stats).
Proof.
  induction stats as [|[k0 t] stats IH]; cbn [update map fst In].
  - intuition.
  - destruct (String.eqb_spec k0 k) as [->|Hk]; cbn [map fst In].
    + intuition.
    + rewrite IH. intuition.
Qed.

Lemma NoDup_update k f stats :
  NoDup (map fst stats) -> NoDup (map fst (update k f stats)).
Proof.
  induction stats as [|[k0 t] stats IH]; cbn [update map fst]; intros H.
  - constructor; [intros [] | constructor].
  - inversion H as [|? ? Hn Hd]; subst.
    destruct (String.eqb_spec k0 k) as [->|Hk]; cbn [map fst].
    + now constructor.
    + constructor; [|now apply IH].
      rewrite keys_update. intros [E|E]; [now apply Hk | now apply Hn].
Qed.

Lemma occurrences_cons name k keys :
  occurrences name (k :: keys)
  = if String.eqb k name then S (occurrences name keys)
    else occurrences name keys.
Proof.
  unfold occurrences. cbn [filter]. rewrite (String.eqb_sym name k).
  destruct (String.eqb k name); reflexivity.
Qed.

Lemma occurrences_app name xs ys :
  occurrences name (xs ++ ys) = occurrences name xs + occurrences name ys.
Proof. unfold occurrences. now rewrite filter_app, length_app. Qed.

Lemma iter_shift {A : Type} (f : A -> A) n x :
  Nat.iter n f (f x) = f (Nat.iter n f x).
Proof. now rewrite <- Nat.iter_succ_r, Nat.iter_succ. Qed.

Lemma iter_swap {A : Type} (f g : A -> A) n x :
  (forall y, f (g y) = g (f y)) -> Nat.iter n f (g x) = g (Nat.iter n f x).
Proof.
  intros H. induction n as [|n IH]; [reflexivity|].
  now rewrite !Nat.iter_succ, IH, H.
Qed.

Lemma iter_add {A : Type} (f : A -> A) n m x :
  Nat.iter (n + m) f x = Nat.iter n f (Nat.iter m f x).
Proof. apply Nat.iter_add. Qed.

Lemma count_lines_twice a d a' d' t :
  count_lines a d (count_lines a' d' t) = count_lines (a' + a) (d' + d) t.
Proof. unfold count_lines. cbn. f_equal; lia. Qed.

Lemma count_lines_nothing t : count_lines 0 0 t = t.
Proof. destruct t. unfold count_lines. cbn. f_equal; lia. Qed.

(** The commit loop, from any accumulator. *)
Lemma tally_commits_spec name commits :
  forall acc res,
    tally_commits commits acc = Returns res ->
    tally_of name res
    = count_lines (fst (lines_of name commits)) (snd (lines_of name commits))
        (Nat.iter (occurrences name (map commit_author commits))
                  count_commit (tally_of name acc)).
Proof.
  induction commits as [|c commits IH]; intros acc res H.
  - injection H as <-. cbn. now rewrite count_lines_nothing.
  - cbn [tally_commits] in H. cbn [map lines_of].
    rewrite occurrences_cons.
    destruct (lines_of name commits) as [a' d'] eqn:El.
    cbn [fst snd] in IH.
    destruct (commit_stats c) as [[[a d]|]|]; cbn [bind] in H;
      [| |discriminate H]; apply IH in H; rewrite H;
      rewrite !tally_of_update;
      destruct (String.eqb (commit_author c) name); cbn [fst snd];
      try reflexivity.
    + rewrite (iter_swap count_commit (count_lines a d)) by reflexivity.
      rewrite iter_shift, count_lines_twice, Nat.iter_succ.
      reflexivity.
    + now rewrite iter_shift.
Qed.

Lemma tally_replies_spec name count users :
  forall acc,
    tally_of name (tally_replies count users acc)
    = Nat.iter (occurrences name (map login users)) count (tally_of name acc).
Proof.
  unfold tally_replies.
  induction users as [|u users IH]; intros acc; cbn [fold_left map].
  - reflexivity.
  - rewrite IH, tally_of_update, occurrences_cons.
    destruct (String.eqb (login u) name); [|reflexivity].
    now rewrite iter_shift.
Qed.

(** The issue loop and the pull-request loop, from any accumulator. *)
Lemma tally_discussions_spec name opened replied items :
  (forall t, replied (opened t) = opened (replied t)) ->
  forall acc res,
    tally_discussions opened replied items acc = Returns res ->
    tally_of name res
    = Nat.iter (occurrences name (repliers items)) replied
        (Nat.iter (occurrences name (map (fun d => login (user d)) items))
                  opened (tally_of name acc)).
Proof.
  intros Hswap.
  induction items as [|d items IH]; intros acc res H.
  - injection H as <-. reflexivity.
  - cbn [tally_discussions] in H. unfold repliers. cbn [flat_map map].
    fold (repliers items).
    destruct (replies d) as [users|]; cbn [bind] in H; [|discriminate H].
    assert (Hcomm : forall n y,
               opened (Nat.iter n replied y) = Nat.iter n replied (opened y)).
    { intros n y. symmetry. apply iter_swap. exact Hswap. }
    apply IH in H. rewrite H, tally_replies_spec, tally_of_update.
    rewrite (iter_swap opened (Nat.iter _ replied)) by apply Hcomm.
    rewrite <- iter_add, occurrences_app, occurrences_cons.
    rewrite (Nat.add_comm (occurrences name (repliers items))).
    f_equal.
    destruct (String.eqb (login (user d)) name); [|reflexivity].
    now rewrite iter_shift, Nat.iter_succ.
Qed.

Lemma tally_commits_keys name commits :
  forall acc res,
    tally_commits commits acc = Returns res ->
    (In name (map fst res)
     <-> In name (map fst acc) \/ In name (map commit_author commits))
    /\ (NoDup (map fst acc) -> NoDup (map fst res)).
Proof.
  induction commits as [|c commits IH]; intros acc res H.
  - injection H as <-. cbn. tauto.
  - cbn [tally_commits] in H. cbn [map In].
    destruct (commit_stats c) as [[[a d]|]|]; cbn [bind] in H;
      [| |discriminate H]; apply IH in H; destruct H as [Hk Hn];
      rewrite Hk, ?keys_update; split; try (intuition congruence);
      intros Hd; apply Hn; repeat apply NoDup_update; exact Hd.
Qed.

Lemma tally_replies_keys name count users :
  forall acc,
    (In name (map fst (tally_replies count users acc))
     <-> In name (map fst acc) \/ In name (map login users))
    /\ (NoDup (map fst acc)
        -> NoDup (map fst (tally_replies count users acc))).
Proof.
  unfold tally_replies.
  induction users as [|u users IH]; intros acc; cbn [fold_left map In].
  - tauto.
  - destruct (IH (update (login u) count acc)) as [Hk Hn].
    rewrite Hk, keys_update. split; [intuition congruence|].
    intros Hd. now apply Hn, NoDup_update.
Qed.

Lemma tally_discussions_keys name opened replied items :
  forall acc res,
    tally_discussions opened replied items acc = Returns res ->
    (In name (map fst res)
     <-> In name (map fst acc)
         \/ In name (map (fun d => login (user d)) items)
         \/ In name (repliers items))
    /\ (NoDup (map fst acc) -> NoDup (map fst res)).
Proof.
  induction items as [|d items IH]; intros acc res H.
  - injection H as <-. cbn. tauto.
  - cbn [tally_discussions] in H. unfold repliers. cbn [flat_map map In].
    fold (repliers items).
    destruct (replies d) as [users|]; cbn [bind] in H; [|discriminate H].
    apply IH in H. destruct H as [Hk Hn].
    destruct (tally_replies_keys name replied users
                (update (login (user d)) opened acc)) as [Hk' Hn'].
    rewrite Hk, Hk', keys_update, in_app_iff.
    split; [intuition congruence|].
    intros Hd. now apply Hn, Hn', NoDup_update.
Qed.

Lemma iter_count_commit n t :
  Nat.iter n count_commit t
  = {| commits_made := n + commits_made t;
       issues_opened := issues_opened t;
       issues_commented := issues_commented t;
       prs_opened := prs_opened t; prs_reviewed := prs_reviewed t;
       lines_added := lines_added t; lines_deleted := lines_deleted t |}.
Proof.
  induction n as [|n IH]; [now destruct t|].
  rewrite Nat.iter_succ, IH. reflexivity.
Qed.

Lemma iter_count_issue n t :
  Nat.iter n count_issue t
  = {| commits_made := commits_made t;
       issues_opened := n + issues_opened t;
       issues_commented := issues_commented t;
       prs_opened := prs_opened t; prs_reviewed := prs_reviewed t;
       lines_added := lines_added t; lines_deleted := lines_deleted t |}.
Proof.
  induction n as [|n IH]; [now destruct t|].
  rewrite Nat.iter_succ, IH. reflexivity.
Qed.

Lemma iter_count_comment n t :
  Nat.iter n count_comment t
  = {| commits_made := commits_made t;
       issues_opened := issues_opened t;
       issues_commented := n + issues_commented t;
       prs_opened := prs_opened t; prs_reviewed := prs_reviewed t;
       lines_added := lines_added t; lines_deleted := lines_deleted t |}.
Proof.
  induction n as [|n IH]; [now destruct t|].
  rewrite Nat.iter_succ, IH. reflexivity.
Qed.

Lemma iter_count_pr n t :
  Nat.iter n count_pr t
  = {| commits_made := commits_made t;
       issues_opened := issues_opened t;
       issues_commented := issues_commented t;
       prs_opened := n + prs_opened t; prs_reviewed := prs_reviewed t;
       lines_added := lines_added t; lines_deleted := lines_deleted t |}.
Proof.
  induction n as [|n IH]; [now destruct t|].
  rewrite Nat.iter_succ, IH. reflexivity.
Qed.

Lemma iter_count_review n t :
  Nat.iter n count_review t
  = {| commits_made := commits_made t;
       issues_opened := issues_opened t;
       issues_commented := issues_commented t;
       prs_opened := prs_opened t; prs_reviewed := n + prs_reviewed t;
       lines_added := lines_added t; lines_deleted := lines_deleted t |}.
Proof.
  induction n as [|n IH]; [now destruct t|].
  rewrite Nat.iter_succ, IH. reflexivity.
Qed.

Lemma tally_commits_returns commits :
  forall acc,
    (exists res, tally_commits commits acc = Returns res)
    <-> forallb (fun c => match commit_stats c with
                          | Returns _ => true
                          | Raises => false
                          end) commits = true.
Proof.
  induction commits as [|c commits IH]; intros acc;
    cbn [tally_commits forallb].
  - split; [reflexivity | now exists acc].
  - destruct (commit_stats c) as [[[a d]|]|]; cbn [bind andb];
      try apply IH.
    split; [intros [res H]; discriminate H | discriminate].
Qed.

Lemma tally_discussions_returns opened replied items :
  forall acc,
    (exists res, tally_discussions opened replied items acc = Returns res)
    <-> forallb (fun d => match replies d with
                          | Returns _ => true
                          | Raises => false
                          end) items = true.
Proof.
  induction items as [|d items IH]; intros acc;
    cbn [tally_discussions forallb].
  - split; [reflexivity | now exists acc].
  - destruct (replies d) as [users|]; cbn [bind andb]; [apply IH|].
    split; [intros [res H]; discriminate H | discriminate].
Qed.

(** X24. The contributor report, whenever it is produced, lists no name
    twice and tallies every event once under the name it belongs to: the
    commits of an author, the issues and pull requests a user opened, the
    comments and reviews a user wrote (a missing user counting as
    "Unknown"), and the lines of the commits that carry statistics; a
    name is listed exactly when it has at least one such event. *)
Theorem contributor_tallies
        (commits : list authored_commit) (issues pulls : list discussion)
        (stats : list (string * tally)) :
  contributor_activity_of commits issues pulls = Returns stats ->
  NoDup (map fst stats)
  /\ forall name,
      let t := tally_of name stats in
      let openers := map (fun d => login (user d)) in
      commits_made t = occurrences name (map commit_author commits)
      /\ issues_opened t = occurrences name (openers issues)
      /\ issues_commented t = occurrences name (repliers issues)
      /\ prs_opened t = occurrences name (openers pulls)
      /\ prs_reviewed t = occurrences name (repliers pulls)
      /\ (lines_added t, lines_deleted t) = lines_of name commits
      /\ (In name (map fst stats)
          <-> In name (map commit_author commits)
              \/ In name (openers issues) \/ In name (repliers issues)
              \/ In name (openers pulls) \/ In name (repliers pulls)).
Proof.
  unfold contributor_activity_of. intros H.
  destruct (tally_commits commits []) as [s1|] eqn:E1; [|discriminate H].
  cbn [bind] in H.
  destruct (tally_discussions count_issue count_comment issues s1)
    as [s2|] eqn:E2; [|discriminate H].
  cbn [bind] in H. split.
  - apply (tally_discussions_keys EmptyString _ _ _ _ _ H).
    apply (tally_discussions_keys EmptyString _ _ _ _ _ E2).
    apply (tally_commits_keys EmptyString _ _ _ E1). constructor.
  - intros name.
    rewrite (tally_discussions_spec name count_pr count_review pulls
               (fun _ => eq_refl) s2 stats H).
    rewrite (tally_discussions_spec name count_issue count_comment issues
               (fun _ => eq_refl) s1 s2 E2).
    rewrite (tally_commits_spec name _ _ _ E1).
    destruct (tally_discussions_keys name _ _ _ _ _ H) as [K3 _].
    destruct (tally_discussions_keys name _ _ _ _ _ E2) as [K2 _].
    destruct (tally_commits_keys name _ _ _ E1) as [K1 _].
    rewrite K3, K2, K1. cbn [tally_of map In].
    rewrite iter_count_review, iter_count_pr, iter_count_comment,
      iter_count_issue, iter_count_commit.
    destruct (lines_of name commits) as [a d].
    cbn [commits_made issues_opened issues_commented prs_opened
         prs_reviewed lines_added lines_deleted count_lines empty_tally
         fst snd].
    rewrite !Nat.add_0_r.
    repeat split; try reflexivity; tauto.
Qed.

(** X25. The contributor report is all or nothing: it is produced exactly
    when the statistics of every commit and the comments and reviews of
    every issue and pull request could be read; one fetch that raises, in
    a loop or for one of the three lists, leaves the empty report, the
    tallies made before it included. *)
Theorem contributor_report_all_or_nothing
        (commits : list authored_commit) (issues pulls : list discussion) :
  (all_read commits issues pulls = true
   <-> exists stats,
       contributor_activity_of commits issues pulls = Returns stats)
  /\ (all_read commits issues pulls = false ->
      get_contributor_activity (Returns commits) (Returns issues)
                               (Returns pulls) = [])
  /\ (forall commits_fetch issues_fetch pulls_fetch,
         commits_fetch = Raises \/ issues_fetch = Raises
         \/ pulls_fetch = Raises ->
         get_contributor_activity commits_fetch issues_fetch pulls_fetch
         = []).
Proof.
  assert (Hiff : all_read commits issues pulls = true
                 <-> exists stats,
                     contributor_activity_of commits issues pulls
                     = Returns stats).
  { unfold all_read, contributor_activity_of.
    rewrite forallb_app, !andb_true_iff.
    rewrite <- (tally_commits_returns commits []).
    split.
    - intros ([s1 E1] & Hi & Hp). rewrite E1. cbn [bind].
      apply (tally_discussions_returns count_issue count_comment issues s1)
        in Hi.
      destruct Hi as [s2 E2]. rewrite E2. cbn [bind].
      now apply (tally_discussions_returns count_pr count_review pulls s2).
    - intros [stats H].
      destruct (tally_commits commits []) as [s1|] eqn:E1;
        [|discriminate H].
      cbn [bind] in H.
      destruct (tally_discussions count_issue count_comment issues s1)
        as [s2|] eqn:E2; [|discriminate H].
      cbn [bind] in H. split; [now exists s1|]. split.
      + apply (tally_discussions_returns count_issue count_comment issues s1).
        now exists s2.
      + apply (tally_discussions_returns count_pr count_review pulls s2).
        now exists stats. }
  split; [exact Hiff|]. split.
  - intros Hf. unfold get_contributor_activity. cbn [bind].
    destruct (contributor_activity_of commits issues pulls) as [stats|] eqn:E;
      [|reflexivity].
    assert (Ht : all_read commits issues pulls = true)
      by (apply Hiff; now exists stats).
    rewrite Ht in Hf. discriminate Hf.
  - intros cf isf pf H. unfold get_contributor_activity.
    destruct cf as [c|]; [|reflexivity]. cbn [bind].
    destruct isf as [i|]; [|reflexivity]. cbn [bind].
    destruct pf as [p|]; [|reflexivity].
    destruct H as [H|[H|H]]; discriminate H.
Qed.
End ContributorFacts.

(** ** Sample runs: labels, deliveries, reports and setup *)

Section ExtraWitnesses.
Import PyStr Labeling Pipeline Activity RepositoryAnalyzer HealthOrder.
Import Auth RepoSetup Dashboard Samples Scenarios.

(** X5 on a repository that has only the label "bug": the lookup of the
    priority label fails and is followed by its creation. *)
Lemma apply_issue_labels_witness :
  get_label_ok Scenarios.bug_only_host "priority:high" = false
  /\ exists post',
      apply_issue_labels Scenarios.bug_only_host ["bug"; "priority:high"]
                         "bug" "high" []
      = [get_label "bug"; get_label "priority:high"]
          ++ create_label "priority:high" "d93f0b" :: post'.
Proof.
  split; [reflexivity|].
  destruct (apply_issue_labels_calls Scenarios.bug_only_host
              ["bug"; "priority:high"] "bug" "high" [])
    as (_ & _ & Hnext & _).
  specialize (Hnext [get_label "bug"] "priority:high"
                    (skipn 2 (apply_issue_labels Scenarios.bug_only_host
                                ["bug"; "priority:high"] "bug" "high" []))
                    eq_refl).
  destruct Hnext as (post' & E). exists post'.
  change (apply_issue_labels Scenarios.bug_only_host ["bug"; "priority:high"]
                             "bug" "high" [])
    with ([get_label "bug"; get_label "priority:high"]
            ++ skipn 2 (apply_issue_labels Scenarios.bug_only_host
                          ["bug"; "priority:high"] "bug" "high" [])).
  now rewrite E.
Defined.

(** X6 on four components: the fourth, which gets no label, is named in
    the comment. *)
Lemma comment_mentions_witness :
  substring_of "db"
    (_generate_auto_label_comment "bug" "high" ["auth"; "api"; "ui"; "db"]).
Proof.
  apply (comment_mentions_everything "bug" "high" ["auth"; "api"; "ui"; "db"]).
  simpl. tauto.
Defined.

(** X7 on the delivery of an opened issue without a body: the payload has
    every field read, and the classification gets the empty string. *)
Lemma process_issue_witness :
  process_issue finding_host opened_issue_payload <> []
  /\ (exists fields action,
         opened_issue_payload = JObj fields
         /\ lookup_field "action" fields = Some (JStr action)
         /\ (action = "opened" \/ action = "edited"))
  /\ (Pipeline.truthy (JStr EmptyString) = true
      \/ JStr EmptyString = JStr EmptyString).
Proof.
  assert (H : process_issue finding_host opened_issue_payload <> [])
    by (vm_compute; discriminate).
  destruct (process_issue_needs_full_payload finding_host
              opened_issue_payload) as [Hfull Hreach].
  split; [exact H|]. split.
  - destruct (Hfull H) as (fields & action & _ & _ & _ & _ & _ & _
                           & Hd & Ha & Ho & _).
    now exists fields, action.
  - apply (Hreach (JStr "octo/demo") (JNum 7) (JStr "Crash on login")
                  (JStr EmptyString)).
    vm_compute. tauto.
Defined.

(** X8 on the delivery of an edited pull request. *)
Lemma process_pull_request_witness :
  process_pull_request finding_host edited_pr_payload <> []
  /\ exists fields action,
      edited_pr_payload = JObj fields
      /\ lookup_field "action" fields = Some (JStr action)
      /\ (action = "opened" \/ action = "edited").
Proof.
  assert (H : process_pull_request finding_host edited_pr_payload <> [])
    by (vm_compute; discriminate).
  split; [exact H|].
  destruct (proj1 (process_pull_request_needs_full_payload finding_host
                     edited_pr_payload) H)
    as (fields & action & _ & _ & _ & _ & _ & _ & Hd & Ha & Ho & _).
  now exists fields, action.
Defined.

(** X9 on a well-formed request to [/analyze-issue]. *)
Lemma analyze_issue_manually_witness :
  analyze_issue_manually finding_host
    (Returns (JObj [ ("repo_name", JStr "octo/demo");
                     ("issue_number", JNum 7) ]))
  = (200, []).
Proof.
  apply (proj2 (analyze_issue_manually_reaches_nothing finding_host
                  (Returns (JObj [ ("repo_name", JStr "octo/demo");
                                   ("issue_number", JNum 7) ])))
               [ ("repo_name", JStr "octo/demo"); ("issue_number", JNum 7) ]
               (JStr "octo/demo") (JNum 7));
    reflexivity.
Defined.

(** X10 on a signed [issues] delivery: the calls are those of
    [process_issue] on its payload. *)
Lemma webhook_calls_witness :
  webhook_calls sample_digest (Some "abc") finding_host signed_delivery <> []
  /\ exists p,
      App.get_json json signed_delivery = App.JsonPayload json p
      /\ ((App.x_github_event json signed_delivery = Some "issues"
           /\ webhook_calls sample_digest (Some "abc") finding_host
                            signed_delivery
              = process_issue finding_host p)
          \/ (App.x_github_event json signed_delivery = Some "pull_request"
              /\ webhook_calls sample_digest (Some "abc") finding_host
                               signed_delivery
                 = process_pull_request finding_host p)).
Proof.
  assert (H : webhook_calls sample_digest (Some "abc") finding_host
                            signed_delivery <> [])
    by (vm_compute; discriminate).
  split; [exact H|].
  destruct (webhook_calls_gate sample_digest (Some "abc") finding_host
              signed_delivery) as (_ & Hcalls & _).
  destruct (Hcalls H) as (_ & p & Hp).
  now exists p.
Defined.

(** X11 on three commits: the detail of the first keeps seven characters
    of the hash and the first line of the message. *)
Lemma commit_activity_witness :
  In {| detail_sha := "0123456"; detail_message := "Fix login";
        detail_author := "ada" |}
     (commit_details (commit_activity_of sample_commits))
  /\ String.length "0123456" <= 7
  /\ ~ substring_of Labeling.newline "Fix login".
Proof.
  assert (H : In {| detail_sha := "0123456"; detail_message := "Fix login";
                    detail_author := "ada" |}
                 (commit_details (commit_activity_of sample_commits)))
    by (vm_compute; tauto).
  split; [exact H|].
  destruct (commit_activity_counts sample_commits)
    as (_ & _ & _ & _ & _ & Hdetail).
  destruct (Hdetail _ H) as (Hsha & _ & Hline & _).
  split; [exact Hsha | exact Hline].
Defined.

(** X12 on the authors of three commits, ranked to one place: the author
    left out has no more commits than the one listed. *)
Lemma top_ranking_witness :
  In ("ada", 2) (top 1 (count_keys ["ada"; "bob"; "ada"]))
  /\ occurrences "bob" ["ada"; "bob"; "ada"] <= 2.
Proof.
  assert (H : In ("ada", 2) (top 1 (count_keys ["ada"; "bob"; "ada"])))
    by (vm_compute; tauto).
  split; [exact H|].
  destruct (top_ranking 1 ["ada"; "bob"; "ada"])
    as (_ & _ & _ & _ & Hout & _).
  apply (Hout "bob") with (k := "ada"); [simpl; tauto | | exact H].
  vm_compute. intros [E|[]]. discriminate E.
Defined.

(** X13 on ten labels carried twice and a priority label carried once:
    the priority label is counted in the priority distribution and is
    not among the ten listed labels. *)
Lemma label_report_witness :
  lookup0 "priority:high" (snd (label_report Scenarios.crowded_labels)) = 1
  /\ ~ In "priority:high" (map fst (fst (label_report Scenarios.crowded_labels)))
  /\ List.length (fst (label_report Scenarios.crowded_labels)) = 10
  /\ forall k n, In (k, n) (fst (label_report Scenarios.crowded_labels)) -> 1 <= n.
Proof.
  pose proof (priority_counts_restrict_label_counts Scenarios.crowded_labels
                "priority:high") as H.
  destruct (label_report Scenarios.crowded_labels) as [ld pd] eqn:E.
  cbv zeta in H. destruct H as (Hp & _ & _ & _ & _ & Hout).
  assert (Hnot : ~ In "priority:high" (map fst ld)).
  { replace ld with (fst (label_report Scenarios.crowded_labels)) by now rewrite E.
    vm_compute. intuition discriminate. }
  destruct (Hout ltac:(vm_compute; lia) Hnot) as [Hlen Hdom].
  cbn [fst snd]. split; [exact Hp|]. split; [exact Hnot|].
  split; [exact Hlen | exact Hdom].
Defined.

(** X15 on a closed and an open issue: half of them are closed. *)
Lemma issue_report_rates_witness :
  exists stats,
    issue_analytics_of [closed_issue; silent_issue] = Returns stats
    /\ total_issues stats = 2
    /\ (0 <= close_rate stats <= 100)%Q.
Proof.
  assert (Hs : exists stats,
             issue_analytics_of [closed_issue; silent_issue] = Returns stats)
    by (vm_compute; eexists; reflexivity).
  destruct Hs as (stats & Hs). exists stats.
  destruct (issue_report_rates [closed_issue; silent_issue] stats Hs)
    as (Ht & _ & _ & Hr & _).
  split; [exact Hs|]. split; [exact Ht | exact Hr].
Defined.

(** X17 between a repository of which nothing could be read and the
    sample repository that is best on every signal. *)
Lemma health_score_monotone_witness :
  (clamp_score (raw_score None None None None)
   <= clamp_score (raw_score (get_basic_stats best_host)
                             (get_commit_activity best_host)
                             (get_issue_analytics best_host)
                             (get_pull_request_analytics best_host)))%Q.
Proof.
  apply health_score_monotone.
  - intros H. discriminate H.
  - vm_compute. discriminate.
  - vm_compute. discriminate.
  - vm_compute. lia.
  - vm_compute. discriminate.
  - vm_compute. exact I.
  - vm_compute. discriminate.
  - vm_compute. exact I.
Defined.

(** X18 on one unanswered issue and one open pull request. *)
Lemma silence_scores_witness :
  (exists stats,
      issue_analytics_of [silent_issue] = Returns stats
      /\ avg_response_time_hours stats = 0%Q)
  /\ (exists stats,
         pr_analytics_of [pr_of_size 3 1] = Returns stats
         /\ avg_merge_time_hours stats = 0%Q).
Proof.
  destruct silence_scores_full_points as [Hissues Hpulls]. split.
  - destruct (Hissues [silent_issue]) as (stats & Hs & Ha & _).
    + intros i [<-|[]]. reflexivity.
    + now exists stats.
  - destruct (Hpulls [pr_of_size 3 1]) as (stats & Hs & Ha & _).
    + intros pr [<-|[]]. reflexivity.
    + now exists stats.
Defined.

(** X19 without any setting, both logins being able to succeed: nothing
    is tried; and with a token only, the client of the token login is
    cached and returned again. *)
Lemma auth_witness :
  get_github_client nat (Returns 1) (Returns 2)
                    (get_auth_method no_settings) None
  = (None, Raises, [])
  /\ get_github_client nat Raises (Returns 2)
                       (get_auth_method token_only) (Some 2)
     = (Some 2, Returns 2, []).
Proof.
  split.
  - pose proof (auth_precedence_and_cache nat (Returns 1) (Returns 2)
                  no_settings None) as H.
    destruct (get_github_client nat (Returns 1) (Returns 2)
                (get_auth_method no_settings) None)
      as [[cache' result] calls].
    destruct H as (_ & _ & Hnone & Hraise & _).
    destruct (Hnone eq_refl eq_refl) as [-> ->].
    now rewrite (Hraise eq_refl).
  - pose proof (auth_precedence_and_cache nat Raises (Returns 2)
                  token_only None) as H.
    cbn in H. destruct H as (_ & _ & _ & _ & _ & _ & _ & Hagain).
    exact (Hagain 2 eq_refl).
Defined.

(** X20 on a repository that has the label "bug" and refuses every
    creation: the eleven other labels are attempted and the result is
    [True]. *)
Lemma setup_labels_witness :
  setup_repository_labels (Ok tt) (Ok ["bug"]) refusing
  = (true,
     [ "enhancement"; "documentation"; "question"; "good first issue";
       "help wanted"; "priority:high"; "priority:medium"; "priority:low";
       "size:small"; "size:medium"; "size:large" ]).
Proof.
  pose proof (setup_labels_attempts (Ok tt) (Ok ["bug"]) refusing) as H.
  destruct (setup_repository_labels (Ok tt) (Ok ["bug"]) refusing)
    as [ok attempted].
  destruct H as (_ & H & _).
  destruct (H ["bug"] eq_refl eq_refl) as [-> ->].
  - intros name. discriminate.
  - reflexivity.
Defined.

(** X21 on a repository without the bug-report template: the file is
    created under the template directory, after its lookup failed. *)
Lemma issue_template_witness :
  In (create_file ".github/ISSUE_TEMPLATE/bug_report.md")
     (snd (create_issue_template (Ok tt) "bug_report" no_file accepting))
  /\ In (get_contents ".github/ISSUE_TEMPLATE/bug_report.md")
        (snd (create_issue_template (Ok tt) "bug_report" no_file accepting))
  /\ fst (create_issue_template (Ok tt) "feature" no_file accepting) = false.
Proof.
  split; [|split].
  - vm_compute. tauto.
  - pose proof (issue_template_never_overwrites (Ok tt) "bug_report"
                  no_file accepting) as H.
    destruct (create_issue_template (Ok tt) "bug_report" no_file accepting)
      as [ok calls] eqn:E.
    destruct H as (H & _).
    apply (H ".github/ISSUE_TEMPLATE/bug_report.md").
    injection E as _ <-. simpl. tauto.
  - pose proof (issue_template_never_overwrites (Ok tt) "feature"
                  no_file accepting) as H.
    destruct (create_issue_template (Ok tt) "feature" no_file accepting)
      as [ok calls].
    destruct H as (_ & H & _).
    now destruct H as [-> _].
Defined.

(** X23 on the sample repository: its twenty commits fill the activity
    axis. *)
Lemma radar_values_witness :
  (0 <= Qmin 100 (inject_Z (Z.of_nat
                     (sig_commits (get_commit_activity best_host) * 5)))
   <= 100)%Q.
Proof.
  apply (radar_values_on_axis best_host 3 "Activity").
  left. reflexivity.
Defined.

(** X24 on two commits, an issue and a pull request: the author has two
    commits and the lines of the one with statistics; the comment of the
    deleted user counts for "Unknown". *)
Lemma contributor_tallies_witness :
  exists stats,
    Contributors.contributor_activity_of sample_authored sample_issues
                                         sample_pulls = Returns stats
    /\ Contributors.commits_made (Contributors.tally_of "ada" stats) = 2
    /\ Contributors.issues_commented
         (Contributors.tally_of "Unknown" stats) = 1
    /\ (Contributors.lines_added (Contributors.tally_of "ada" stats),
        Contributors.lines_deleted (Contributors.tally_of "ada" stats))
       = (10, 2)%Z.
Proof.
  assert (Hs : exists stats,
             Contributors.contributor_activity_of
               sample_authored sample_issues sample_pulls = Returns stats)
    by (vm_compute; eexists; reflexivity).
  destruct Hs as (stats & Hs). exists stats.
  destruct (contributor_tallies sample_authored sample_issues sample_pulls
              stats Hs) as [_ Hname].
  destruct (Hname "ada") as (Hc & _ & _ & _ & _ & Hl & _).
  destruct (Hname "Unknown") as (_ & _ & Hm & _).
  split; [exact Hs|]. split; [exact Hc|]. split; [exact Hm | exact Hl].
Defined.

(** X25 with one pull request whose reviews cannot be read: the commits
    and the issue are tallied and lost. *)
Lemma contributor_report_witness :
  Contributors.get_contributor_activity
    (Returns sample_authored) (Returns sample_issues) (Returns [unread_pull])
  = [].
Proof.
  apply (proj1 (proj2 (contributor_report_all_or_nothing
                         sample_authored sample_issues [unread_pull]))).
  reflexivity.
Defined.
End ExtraWitnesses.
